(** * drone-map: the area-of-interest state machine and its geometry

    A shallow embedding of [src/App.tsx]: the three geometry functions
    ([distanceKm], [perimeterKm], [areaKm2]), the component state of [App]
    with its event handlers, and the GeoJSON import and export paths.

    Numbers.  A JavaScript number is an IEEE-754 double, and the file
    embeds it twice.

    The component, its handlers and the import and export paths are stated
    over [number]: the finite doubles idealised as exact reals, with one
    extra value, [NaN], for every non-finite result (NaN itself and the two
    infinities).  Rounding, overflow and signed zeros are outside that
    model; domain errors ([Math.sqrt] of a negative number, [Math.log] of a
    non-positive one, a division by zero, [Math.min()] of nothing) are
    inside it and propagate the way NaN does.  What is proved over [number]
    of a perimeter or an area is a property of the formula in exact
    arithmetic.

    What the geometry returns as doubles is stated over [Binary64]: the
    same three functions on binary64 numbers, every operation rounded as
    IEEE 754 rounds it, the functions of [Math] that ECMA-262 leaves to
    the implementation being a parameter.  The symmetry of the distance,
    the order of the sums of perimeter and area and the domain of the
    square roots are settled there.

    Engines.  A spread call [Math.min(...xs)] passes one argument for each
    element, and an engine throws a RangeError when there are more than it
    accepts.  That number is a parameter of the handlers that spread a
    shape, [argument_limit]. *)

From Stdlib Require Import String Ascii.
From Stdlib Require Import Floats.
From Stdlib Require Import Reals Lra Lia List ZArith Bool Arith.
From Stdlib Require Import Permutation.
Import ListNotations.

Set Implicit Arguments.
Set Warnings "-register-all".

(* ================================================================== *)
(** * Part I. Definitions                                              *)
(* ================================================================== *)

(** ** JavaScript numbers *)

Inductive number : Type :=
| Num (r : R)
| NaN.

Coercion Num : R >-> number.

Declare Scope js_scope.
Delimit Scope js_scope with js.
Bind Scope js_scope with number.

Definition lift1 (f : R -> R) (x : number) : number :=
  match x with
  | Num a => Num (f a)
  | NaN => NaN
  end.

Definition lift2 (f : R -> R -> R) (x y : number) : number :=
  match x, y with
  | Num a, Num b => Num (f a b)
  | _, _ => NaN
  end.

Definition js_add : number -> number -> number := lift2 Rplus.
Definition js_sub : number -> number -> number := lift2 Rminus.
Definition js_mul : number -> number -> number := lift2 Rmult.

(** [x / 0] is an infinity or NaN in JavaScript: non-finite either way. *)
Definition js_div (x y : number) : number :=
  match x, y with
  | Num a, Num b => if Req_dec_T b 0 then NaN else Num (a / b)
  | _, _ => NaN
  end.

Infix "+" := js_add : js_scope.
Infix "-" := js_sub : js_scope.
Infix "*" := js_mul : js_scope.
Infix "/" := js_div : js_scope.

(** ** The [Math] object

    The functions of the JavaScript run time the source calls, over the
    idealised numbers. *)

Definition Math_PI : number := Num PI.
Definition Math_sin : number -> number := lift1 sin.
Definition Math_cos : number -> number := lift1 cos.
Definition Math_abs : number -> number := lift1 Rabs.

(** The tangent has a pole where the cosine vanishes. *)
Definition Math_tan (x : number) : number :=
  match x with
  | Num a => if Req_dec_T (cos a) 0 then NaN else Num (tan a)
  | NaN => NaN
  end.

(** [Math.sqrt] of a negative number is NaN. *)
Definition Math_sqrt (x : number) : number :=
  match x with
  | Num a => if Rle_dec 0 a then Num (sqrt a) else NaN
  | NaN => NaN
  end.

(** [Math.log] of a negative number is NaN, of zero minus infinity. *)
Definition Math_log (x : number) : number :=
  match x with
  | Num a => if Rlt_dec 0 a then Num (ln a) else NaN
  | NaN => NaN
  end.

(** The two-argument arctangent: the angle of the point [(x, y)], in
    [(-PI, PI]], and [0] at the origin. *)
Definition atan2 (y x : R) : R :=
  if Rlt_dec 0 x then atan (y / x)
  else if Rlt_dec x 0 then
    (if Rle_dec 0 y then atan (y / x) + PI else atan (y / x) - PI)
  else if Rlt_dec 0 y then PI / 2
  else if Rlt_dec y 0 then - (PI / 2)
  else 0.

Definition Math_atan2 : number -> number -> number := lift2 atan2.

(** [Math.min(...xs)] and [Math.max(...xs)]: NaN as soon as one argument is
    NaN; with no argument at all they are plus and minus infinity. *)
Fixpoint Math_min_from (acc : R) (xs : list number) : number :=
  match xs with
  | [] => Num acc
  | Num a :: xs' => Math_min_from (Rmin acc a) xs'
  | NaN :: _ => NaN
  end.

Fixpoint Math_max_from (acc : R) (xs : list number) : number :=
  match xs with
  | [] => Num acc
  | Num a :: xs' => Math_max_from (Rmax acc a) xs'
  | NaN :: _ => NaN
  end.

Definition Math_min (xs : list number) : number :=
  match xs with
  | Num a :: xs' => Math_min_from a xs'
  | _ => NaN
  end.

Definition Math_max (xs : list number) : number :=
  match xs with
  | Num a :: xs' => Math_max_from a xs'
  | _ => NaN
  end.

(** ** Points *)

(** [interface LatLng { lat: number; lng: number }] *)
Record LatLng : Type := mkLatLng { lat : number; lng : number }.

(** What an out-of-range array read would give; never reached by the loops
    below, whose indices stay in range. *)
Definition undefined_point : LatLng := mkLatLng NaN NaN.

Local Open Scope R_scope.
Local Open Scope js_scope.

(** ** Geometry ([App.tsx], lines 88-136), over the idealised numbers *)

(** [const toRad = (deg) => (deg * Math.PI) / 180] *)
Definition toRad (deg : number) : number := (deg * Math_PI) / 180.

(** The haversine term [si] of [distanceKm] (lines 92-99). *)
Definition distanceKm_si (a b : LatLng) : number :=
  let dLat := toRad (lat b - lat a) in
  let dLon := toRad (lng b - lng a) in
  let lat1 := toRad (lat a) in
  let lat2 := toRad (lat b) in
  Math_sin (dLat / 2) * Math_sin (dLat / 2) +
  Math_cos lat1 * Math_cos lat2 * Math_sin (dLon / 2) * Math_sin (dLon / 2).

(** The inverse-trigonometric step [c] of [distanceKm] (line 101), as a
    function of the haversine term. *)
Definition distanceKm_c (si : number) : number :=
  2 * Math_atan2 (Math_sqrt si) (Math_sqrt (1 - si)).

(** [function distanceKm(a, b)] *)
Definition distanceKm (a b : LatLng) : number :=
  let R := 6371 in
  let si := distanceKm_si a b in
  let c := distanceKm_c si in
  R * c.

(** A [for (let i = 0; i < n; i++) total += f(xs[i], xs[(i + 1) % n])] loop,
    the shape shared by [perimeterKm] and [areaKm2]. *)
Definition ring_loop (A : Type) (d : A) (f : A -> A -> number) (xs : list A)
  : number :=
  fold_left
    (fun total i =>
       total + f (nth i xs d) (nth ((i + 1) mod length xs) xs d))
    (seq 0 (length xs)) (Num 0).

(** [function perimeterKm(points)] *)
Definition perimeterKm (points : list LatLng) : number :=
  if (length points <? 2)%nat then 0
  else ring_loop undefined_point distanceKm points.

(** The projected point [{ x, y }] of [areaKm2]. *)
Record XY : Type := mkXY { x : number; y : number }.

(** The spherical-Mercator projection of lines 120-125. *)
Definition project (p : LatLng) : XY :=
  let R := 6378137 in
  mkXY ((R * lng p * Math_PI) / 180)
       (R * Math_log (Math_tan (Math_PI / 4 + (lat p * Math_PI) / 360))).

(** The summand [a.x * b.y - b.x * a.y] of the shoelace loop. *)
Definition cross (a b : XY) : number := x a * y b - x b * y a.

(** [function areaKm2(points)] *)
Definition areaKm2 (points : list LatLng) : number :=
  if (length points <? 3)%nat then 0
  else
    let projected := map project points in
    let sum := ring_loop (mkXY NaN NaN) cross projected in
    let areaMeters2 := Math_abs sum / 2 in
    areaMeters2 / 1000000.

Local Close Scope js_scope.
Local Close Scope R_scope.
Local Open Scope string_scope.

(** ** JSON documents and the values of untyped code

    [JSON.parse] yields a [json]; the import path handles it as [any], where
    a property read can also produce [undefined] and can throw a TypeError. *)

Inductive json : Type :=
| JNull
| JBool (b : bool)
| JNum (r : R)
| JStr (s : string)
| JArr (items : list json)
| JObj (props : list (string * json)).

(** A JavaScript value of the import path: [None] is [undefined]. *)
Definition value : Type := option json.

Definition undefined : value := None.

(** The completion of an expression: a value, or a thrown exception. *)
Inductive completion (A : Type) : Type :=
| Normal (a : A)
| Throw.

Arguments Normal {A} a.
Arguments Throw {A}.

Definition bind (A B : Type) (c : completion A) (k : A -> completion B)
  : completion B :=
  match c with
  | Normal a => k a
  | Throw => Throw
  end.

Notation "'let*' v ':=' c 'in' k" := (bind c (fun v => k))
  (at level 10, v name, c at level 100, k at level 200).

(** The own property [k] of an object literal. *)
Fixpoint lookup (k : string) (props : list (string * json)) : value :=
  match props with
  | [] => undefined
  | (k', v) :: rest => if String.eqb k k' then Some v else lookup k rest
  end.

(** [v.k] for the property names the import path reads ([type], [features],
    [geometry], [coordinates]): a TypeError on [undefined] and [null], the own
    property on an object, [undefined] on arrays and primitives, which have
    no property of these names. *)
Definition prop (k : string) (v : value) : completion value :=
  match v with
  | None | Some JNull => Throw
  | Some (JObj props) => Normal (lookup k props)
  | Some _ => Normal undefined
  end.

(** The first character of a string, as a string. *)
Definition first_char (s : string) : value :=
  match s with
  | EmptyString => undefined
  | String ch _ => Some (JStr (String ch EmptyString))
  end.

(** The second character of a string, as a string. *)
Definition second_char (s : string) : value :=
  match s with
  | String _ rest => first_char rest
  | EmptyString => undefined
  end.

(** [v[0]]. *)
Definition index0 (v : value) : completion value :=
  match v with
  | None | Some JNull => Throw
  | Some (JArr items) => Normal (nth_error items 0)
  | Some (JStr s) => Normal (first_char s)
  | Some (JObj props) => Normal (lookup "0" props)
  | Some _ => Normal undefined
  end.

(** [v[1]]. *)
Definition index1 (v : value) : completion value :=
  match v with
  | None | Some JNull => Throw
  | Some (JArr items) => Normal (nth_error items 1)
  | Some (JStr s) => Normal (second_char s)
  | Some (JObj props) => Normal (lookup "1" props)
  | Some _ => Normal undefined
  end.

(** Truthiness of a value, as [!v], [if (v)] and [&&] test it. *)
Definition truthy (v : value) : bool :=
  match v with
  | None | Some JNull => false
  | Some (JBool b) => b
  | Some (JNum r) => if Req_dec_T r 0 then false else true
  | Some (JStr s) => negb (String.eqb s "")
  | Some (JArr _) | Some (JObj _) => true
  end.

(** [v === 'lit']. *)
Definition is_string (lit : string) (v : value) : bool :=
  match v with
  | Some (JStr s) => String.eqb s lit
  | _ => false
  end.

(** [v.length === 0], for a truthy [v]. *)
Definition length_is_zero (v : value) : bool :=
  match v with
  | Some (JArr items) => (List.length items =? 0)%nat
  | Some (JStr s) => (String.length s =? 0)%nat
  | Some (JObj props) =>
      match lookup "length" props with
      | Some (JNum r) => if Req_dec_T r 0 then true else false
      | _ => false
      end
  | _ => false
  end.

(** ** The state of the [App] component (lines 139-151) *)

Inductive ViewType : Type := street | satellite.

Record state : Type := mkState {
  view : ViewType;
  searchQuery : string;
  selectedArea : string;
  isDrawing : bool;
  drawnPolygon : list LatLng;
  drawingPoints : list LatLng;
  mapCenter : LatLng;
  zoom : Z;
  activeDrawTool : option string;
  isSearching : bool;
  searchError : option string;
  isGridOn : bool
}.

Definition setSearchQuery (v : string) (s : state) : state :=
  mkState (view s) v (selectedArea s) (isDrawing s) (drawnPolygon s)
    (drawingPoints s) (mapCenter s) (zoom s) (activeDrawTool s)
    (isSearching s) (searchError s) (isGridOn s).

Definition setSelectedArea (v : string) (s : state) : state :=
  mkState (view s) (searchQuery s) v (isDrawing s) (drawnPolygon s)
    (drawingPoints s) (mapCenter s) (zoom s) (activeDrawTool s)
    (isSearching s) (searchError s) (isGridOn s).

Definition setIsDrawing (v : bool) (s : state) : state :=
  mkState (view s) (searchQuery s) (selectedArea s) v (drawnPolygon s)
    (drawingPoints s) (mapCenter s) (zoom s) (activeDrawTool s)
    (isSearching s) (searchError s) (isGridOn s).

Definition setDrawnPolygon (v : list LatLng) (s : state) : state :=
  mkState (view s) (searchQuery s) (selectedArea s) (isDrawing s) v
    (drawingPoints s) (mapCenter s) (zoom s) (activeDrawTool s)
    (isSearching s) (searchError s) (isGridOn s).

Definition setDrawingPoints (v : list LatLng) (s : state) : state :=
  mkState (view s) (searchQuery s) (selectedArea s) (isDrawing s)
    (drawnPolygon s) v (mapCenter s) (zoom s) (activeDrawTool s)
    (isSearching s) (searchError s) (isGridOn s).

Definition setMapCenter (v : LatLng) (s : state) : state :=
  mkState (view s) (searchQuery s) (selectedArea s) (isDrawing s)
    (drawnPolygon s) (drawingPoints s) v (zoom s) (activeDrawTool s)
    (isSearching s) (searchError s) (isGridOn s).

Definition setZoom (v : Z) (s : state) : state :=
  mkState (view s) (searchQuery s) (selectedArea s) (isDrawing s)
    (drawnPolygon s) (drawingPoints s) (mapCenter s) v (activeDrawTool s)
    (isSearching s) (searchError s) (isGridOn s).

Definition setActiveDrawTool (v : option string) (s : state) : state :=
  mkState (view s) (searchQuery s) (selectedArea s) (isDrawing s)
    (drawnPolygon s) (drawingPoints s) (mapCenter s) (zoom s) v
    (isSearching s) (searchError s) (isGridOn s).

(** Handlers read the state of the render they were created in and queue
    their updates: [s |> setA a |> setB b] applies the queued updates, each
    argument having been computed from the state the handler started in. *)
Notation "s |> f" := (f s) (at level 65, left associativity, only parsing).

Definition DEFAULT_CENTER : LatLng := mkLatLng (Num 20) (Num 0).
Definition DEFAULT_ZOOM : Z := 2.
Definition MAX_ZOOM : Z := 18.
Definition MIN_ZOOM : Z := 2.

(** The state of the first render. *)
Definition initial_state : state :=
  mkState satellite "" "" false [] [] DEFAULT_CENTER DEFAULT_ZOOM None
    false None false.

(** What a handler does besides updating the state; [uncaught_RangeError]
    is an exception that leaves the handler. *)
Inductive effect : Type :=
| alert (msg : string)
| console_error
| clear_file_input
| download (fileName : string) (document : json)
| uncaught_RangeError.

(** [activeShape] (lines 158-163). *)
Definition activeShape (s : state) : option (list LatLng) :=
  if (2 <? List.length (drawnPolygon s))%nat then Some (drawnPolygon s)
  else if (2 <? List.length (drawingPoints s))%nat then Some (drawingPoints s)
  else None.

Record Stats : Type := mkStats {
  vertices : nat;
  perimeter : number;
  area : number
}.

(** [stats] (lines 165-172). *)
Definition stats (s : state) : option Stats :=
  match activeShape s with
  | Some shape =>
      Some (mkStats (List.length shape) (perimeterKm shape) (areaKm2 shape))
  | None => None
  end.

(** The [click] handler of [MapController] (lines 65-72). *)
Definition click (latlng : LatLng) (s : state) : state :=
  if isDrawing s then
    s |> setDrawingPoints
           (drawingPoints s ++ [mkLatLng (lat latlng) (lng latlng)])
  else s.

Definition handleBack (s : state) : state :=
  s |> setSelectedArea "" |> setSearchQuery "" |> setDrawnPolygon []
    |> setDrawingPoints [] |> setIsDrawing false |> setActiveDrawTool None.

Definition handleHome (s : state) : state :=
  s |> setMapCenter DEFAULT_CENTER |> setZoom DEFAULT_ZOOM
    |> setDrawnPolygon [] |> setDrawingPoints [] |> setSelectedArea ""
    |> setSearchQuery "" |> setIsDrawing false |> setActiveDrawTool None.

Definition handleClearAOI (s : state) : state :=
  s |> setDrawnPolygon [] |> setDrawingPoints [] |> setIsDrawing false
    |> setActiveDrawTool None.

(** [activeDrawTool === 'polygon'] *)
Definition tool_is (name : string) (tool : option string) : bool :=
  match tool with
  | Some t => String.eqb t name
  | None => false
  end.

(** [toggleDrawing] (lines 328-342). *)
Definition toggleDrawing (s : state) : state :=
  if tool_is "polygon" (activeDrawTool s) then
    (if (2 <? List.length (drawingPoints s))%nat
     then s |> setDrawnPolygon (drawingPoints s)
     else s)
    |> setDrawingPoints [] |> setIsDrawing false |> setActiveDrawTool None
  else
    s |> setDrawnPolygon [] |> setDrawingPoints [] |> setIsDrawing true
      |> setActiveDrawTool (Some "polygon").

Definition handlePointerMode (s : state) : state :=
  s |> setIsDrawing false |> setActiveDrawTool (Some "pointer")
    |> setDrawingPoints [].

(** [f(...xs)]: the call of [f] with the elements of [xs] as its arguments.
    An engine accepts only so many arguments in one call, [argument_limit]
    of them, a number that differs from engine to engine; a spread of more
    elements throws a RangeError. *)
Definition spread (argument_limit : N) (f : list number -> number)
    (xs : list number) : completion number :=
  if (N.of_nat (List.length xs) <=? argument_limit)%N then Normal (f xs)
  else Throw.

(** The midpoint of the axis-aligned bounding box, as lines 302-305 and
    354-357 compute it. *)
Definition bbox_center (argument_limit : N) (pts : list LatLng)
  : completion LatLng :=
  let lats := map lat pts in
  let lngs := map lng pts in
  let* minLat := spread argument_limit Math_min lats in
  let* maxLat := spread argument_limit Math_max lats in
  let centerLat := ((minLat + maxLat) / Num 2)%js in
  let* minLng := spread argument_limit Math_min lngs in
  let* maxLng := spread argument_limit Math_max lngs in
  let centerLng := ((minLng + maxLng) / Num 2)%js in
  Normal (mkLatLng centerLat centerLng).

(** [handleZoomToShape] (lines 350-361).  Nothing catches the RangeError of
    line 356: it leaves the handler before any setter is called. *)
Definition handleZoomToShape (argument_limit : N) (s : state)
  : state * list effect :=
  match activeShape s with
  | None => (s, [])
  | Some pts =>
      if (List.length pts =? 0)%nat then (s, [])
      else
        match bbox_center argument_limit pts with
        | Normal center => (s |> setMapCenter center |> setZoom 13, [])
        | Throw => (s, [uncaught_RangeError])
        end
  end.

Definition handleZoomIn (s : state) : state :=
  s |> setZoom (Z.min MAX_ZOOM (zoom s + 1)).

Definition handleZoomOut (s : state) : state :=
  s |> setZoom (Z.max MIN_ZOOM (zoom s - 1)).

(** [handleApplyOutline] (lines 320-326). *)
Definition handleApplyOutline (s : state) : state * list effect :=
  if String.eqb (selectedArea s) "" then (s, [])
  else
    match activeShape s with
    | None => (s, [alert "Draw or upload a shape first."])
    | Some _ => (s, [])
    end.

(** ** GeoJSON import: the [reader.onload] callback (lines 255-316) *)

(** The callback of [features.find] (lines 264-267). *)
Definition polygon_feature (f : json) : completion bool :=
  let* geometry := prop "geometry" (Some f) in
  if truthy geometry then
    let* type := prop "type" geometry in
    Normal (is_string "Polygon" type || is_string "MultiPolygon" type)
  else Normal false.

Fixpoint find_feature (fs : list json) : completion value :=
  match fs with
  | [] => Normal undefined
  | f :: rest =>
      let* hit := polygon_feature f in
      if hit then Normal (Some f) else find_feature rest
  end.

(** [features.find(...)]: only an array has a [find] to call. *)
Definition features_find (features : value) : completion value :=
  match features with
  | Some (JArr fs) => find_feature fs
  | _ => Throw
  end.

(** [let coords = null] *)
Definition null : value := Some JNull.

(** Lines 270-274 and 277-281: the coordinates of [holder.geometry], a
    polygon's rings or the rings of a multi-polygon's first member. *)
Definition geometry_coordinates (holder : value) : completion value :=
  let* geometry := prop "geometry" holder in
  let* type := prop "type" geometry in
  if is_string "Polygon" type then prop "coordinates" geometry
  else if is_string "MultiPolygon" type then
    let* coordinates := prop "coordinates" geometry in
    index0 coordinates
  else Normal null.

(** Lines 260-284: the value of [coords] after the three-way dispatch. *)
Definition find_coords (geojson : value) : completion value :=
  let* type := prop "type" geojson in
  if is_string "FeatureCollection" type then
    let* features := prop "features" geojson in
    let* feature := features_find features in
    if truthy feature then geometry_coordinates feature else Normal null
  else if is_string "Feature" type then geometry_coordinates geojson
  else if is_string "Polygon" type then prop "coordinates" geojson
  else Normal null.

(** A coordinate read from the document.  The annotation [number[][][]] is
    not checked at run time; a JSON number is stored as it is, and a missing
    one ([undefined]) behaves as NaN in every later use.  Other JSON values
    in coordinate position are stored as NaN here as well, which is only an
    approximation of what the run time does with them. *)
Definition coordinate (v : value) : number :=
  match v with
  | Some (JNum r) => Num r
  | _ => NaN
  end.

(** The callback of [ring.map] (lines 292-295). *)
Definition to_LatLng (c : json) : completion LatLng :=
  let* c0 := index0 (Some c) in
  let* c1 := index1 (Some c) in
  Normal {| lng := coordinate c0; lat := coordinate c1 |}.

Fixpoint map_completion (A B : Type) (f : A -> completion B) (xs : list A)
  : completion (list B) :=
  match xs with
  | [] => Normal []
  | a :: rest =>
      let* b := f a in
      let* bs := map_completion f rest in
      Normal (b :: bs)
  end.

(** [ring.map(...)]: only an array has a [map] to call. *)
Definition ring_map (ring : value) : completion (list LatLng) :=
  match ring with
  | Some (JArr cs) => map_completion to_LatLng cs
  | _ => Throw
  end.

(** The part of the [try] block that can throw or give up (lines 258-295):
    [Normal None] is the early [return] after the alert of line 287. *)
Definition read_polygon (geojson : value) : completion (option (list LatLng)) :=
  let* coords := find_coords geojson in
  if negb (truthy coords) || length_is_zero coords then Normal None
  else
    let* ring := index0 coords in
    let* polygon := ring_map ring in
    Normal (Some polygon).

(** [reader.onload].  [parsed] is the outcome of [JSON.parse(text)], which is
    the run time's: the document, or [Throw] for a SyntaxError.  The four
    setters of lines 297-300 have been called when the bounding box is
    computed: if that throws, their updates stand and the [catch] block
    runs. *)
Definition reader_onload (argument_limit : N) (fileName : string)
    (parsed : completion json) (s : state) : state * list effect :=
  match (let* geojson := parsed in read_polygon (Some geojson)) with
  | Normal (Some polygon) =>
      let s' := s |> setDrawnPolygon polygon |> setDrawingPoints []
                  |> setIsDrawing false |> setActiveDrawTool None in
      match bbox_center argument_limit polygon with
      | Normal center =>
          (s' |> setMapCenter center |> setZoom 12
              |> setSelectedArea fileName,
           [clear_file_input])
      | Throw =>
          (s', [console_error; alert "Failed to read GeoJSON file.";
                clear_file_input])
      end
  | Normal None =>
      (s, [alert "No polygon geometry found in GeoJSON."; clear_file_input])
  | Throw =>
      (s, [console_error; alert "Failed to read GeoJSON file.";
           clear_file_input])
  end.

(** [handleFileChange] (lines 250-318): nothing happens without a file;
    with one, the file is read and [reader.onload] runs. *)
Definition handleFileChange (argument_limit : N)
    (file : option (string * completion json)) (s : state)
  : state * list effect :=
  match file with
  | None => (s, [])
  | Some (fileName, parsed) => reader_onload argument_limit fileName parsed s
  end.

(** ** GeoJSON export (lines 385-417) *)

(** [JSON.stringify] writes a non-finite number as [null]. *)
Definition json_of_number (n : number) : json :=
  match n with
  | Num r => JNum r
  | NaN => JNull
  end.

(** The callback [(p) => [p.lng, p.lat]] of line 391. *)
Definition position_of (p : LatLng) : json :=
  JArr [json_of_number (lng p); json_of_number (lat p)].

(** The object [geojson] of lines 391-403, as [JSON.stringify] writes it. *)
Definition export_document (name : string) (shape : list LatLng) : json :=
  let coords := map position_of shape in
  let coords := (coords ++ [hd JNull coords])%list in
  JObj [("type", JStr "Feature");
        ("properties",
         JObj [("name",
                JStr (if String.eqb name "" then "Area of Interest"
                      else name))]);
        ("geometry",
         JObj [("type", JStr "Polygon");
               ("coordinates", JArr [JArr coords])])].

(** [handleExportGeoJSON]. *)
Definition handleExportGeoJSON (s : state) : state * list effect :=
  match activeShape s with
  | None => (s, [alert "No polygon to export."])
  | Some shape =>
      if (List.length shape <? 3)%nat then
        (s, [alert "No polygon to export."])
      else
        (s, [download "area-of-interest.geojson"
                      (export_document (selectedArea s) shape)])
  end.

Local Close Scope string_scope.
Local Open Scope R_scope.

(** ** Notions used to state the properties *)

(** Degrees to radians over the reals: the value of [toRad]. *)
Definition rad (deg : R) : R := deg * PI / 180.

(** The value of the haversine term [si] at finite coordinates. *)
Definition hav (lat1 lng1 lat2 lng2 : R) : R :=
  sin (rad (lat2 - lat1) / 2) * sin (rad (lat2 - lat1) / 2) +
  cos (rad lat1) * cos (rad lat2) *
  sin (rad (lng2 - lng1) / 2) * sin (rad (lng2 - lng1) / 2).

(** The value of [distanceKm] at finite coordinates. *)
Definition dist (lat1 lng1 lat2 lng2 : R) : R :=
  6371 * (2 * atan2 (sqrt (hav lat1 lng1 lat2 lng2))
                    (sqrt (1 - hav lat1 lng1 lat2 lng2))).

(** Both coordinates of the point are finite numbers. *)
Definition finite_point (p : LatLng) : Prop :=
  exists la lo, p = mkLatLng (Num la) (Num lo).

(** A valid point away from the two poles, where the Mercator projection
    is finite. *)
Definition off_pole (p : LatLng) : Prop :=
  match lat p, lng p with
  | Num la, Num lo => -90 < la < 90
  | _, _ => False
  end.


(** The point [bbox_center] yields when none of its four calls throws. *)
Definition bbox_midpoint (pts : list LatLng) : LatLng :=
  mkLatLng (js_div (js_add (Math_min (map lat pts)) (Math_max (map lat pts)))
                   (Num 2))
           (js_div (js_add (Math_min (map lng pts)) (Math_max (map lng pts)))
                   (Num 2)).

(** The number of arguments a spread of [xs] passes is within the limit of
    the engine. *)
Definition fits (A : Type) (argument_limit : N) (xs : list A) : Prop :=
  (N.of_nat (List.length xs) <= argument_limit)%N.

(** The limit of one engine, JavaScriptCore. *)
Definition JavaScriptCore_limit : N := 65536.

Local Close Scope R_scope.

(** The sum of [f] over the consecutive pairs of a list. *)
Fixpoint path_sum (A : Type) (f : A -> A -> number) (xs : list A) : number :=
  match xs with
  | a :: (b :: _) as rest => js_add (f a b) (path_sum f rest)
  | _ => Num 0
  end.

(** The sum of [f] over the edges of the closed ring: the consecutive pairs
    and the closing edge from the last element back to the first. *)
Definition ring_sum (A : Type) (f : A -> A -> number) (xs : list A) : number :=
  match xs with
  | [] => Num 0
  | a :: _ => js_add (path_sum f xs) (f (last xs a) a)
  end.

(** The vertex list started [k] places further along the ring. *)
Definition rotate (A : Type) (k : nat) (xs : list A) : list A :=
  skipn k xs ++ firstn k xs.

Local Open Scope string_scope.

(** ** The import format, as the specification words it

    These definitions read a document the way section 4.4 of the
    specification describes GeoJSON import, independently of the control
    flow of [reader.onload]; the import theorems compare the two. *)

(** A member of a JSON object; nothing has members but an object. *)
Definition field (k : string) (j : json) : option json :=
  match j with
  | JObj props => lookup k props
  | _ => None
  end.

(** A geometry object of type [Polygon] or [MultiPolygon]. *)
Definition names_polygon (g : json) : bool :=
  match field "type" g with
  | Some (JStr t) => String.eqb t "Polygon" || String.eqb t "MultiPolygon"
  | _ => false
  end.

(** A feature whose geometry is a polygon or a multi-polygon. *)
Definition bears_polygon (f : json) : bool :=
  match field "geometry" f with
  | Some g => names_polygon g
  | None => false
  end.

(** "Recognizable polygon geometry": a [Polygon], a [Feature] wrapping a
    [Polygon] or [MultiPolygon], or a [FeatureCollection] containing such a
    feature. *)
Definition spec_has_polygon_geometry (doc : json) : bool :=
  match field "type" doc with
  | Some (JStr t) =>
      if String.eqb t "Polygon" then true
      else if String.eqb t "Feature" then bears_polygon doc
      else if String.eqb t "FeatureCollection" then
        match field "features" doc with
        | Some (JArr fs) => existsb bears_polygon fs
        | _ => false
        end
      else false
  | _ => false
  end.

(** The rings of the polygon a geometry object designates: its own for a
    [Polygon], those of the first member for a [MultiPolygon]. *)
Definition spec_geometry_rings (g : json) : option (list json) :=
  match field "type" g with
  | Some (JStr t) =>
      if String.eqb t "Polygon" then
        match field "coordinates" g with
        | Some (JArr rings) => Some rings
        | _ => None
        end
      else if String.eqb t "MultiPolygon" then
        match field "coordinates" g with
        | Some (JArr (JArr rings :: _)) => Some rings
        | _ => None
        end
      else None
  | _ => None
  end.

Definition spec_feature_rings (f : json) : option (list json) :=
  match field "geometry" f with
  | Some g => spec_geometry_rings g
  | None => None
  end.

(** The rings of the chosen polygon: the document itself when it is a
    [Polygon], the geometry of a [Feature], the geometry of the first
    polygon-bearing feature of a [FeatureCollection]. *)
Definition spec_chosen_rings (doc : json) : option (list json) :=
  match field "type" doc with
  | Some (JStr t) =>
      if String.eqb t "Polygon" then
        match field "coordinates" doc with
        | Some (JArr rings) => Some rings
        | _ => None
        end
      else if String.eqb t "Feature" then spec_feature_rings doc
      else if String.eqb t "FeatureCollection" then
        match field "features" doc with
        | Some (JArr fs) =>
            match find bears_polygon fs with
            | Some f => spec_feature_rings f
            | None => None
            end
        | _ => None
        end
      else None
  | _ => None
  end.

(** A position [[lng, lat, ...]] as an internal point, the order swapped. *)
Definition spec_position (c : json) : option LatLng :=
  match c with
  | JArr (JNum lo :: JNum la :: _) => Some (mkLatLng (Num la) (Num lo))
  | _ => None
  end.

Fixpoint spec_positions (ring : list json) : option (list LatLng) :=
  match ring with
  | [] => Some []
  | c :: rest =>
      match spec_position c, spec_positions rest with
      | Some p, Some ps => Some (p :: ps)
      | _, _ => None
      end
  end.

(** The vertices the specification imports from a document: the positions
    of the outer (first) ring of the chosen polygon. *)
Definition spec_import (doc : json) : option (list LatLng) :=
  match spec_chosen_rings doc with
  | Some (JArr ring :: _) => spec_positions ring
  | _ => None
  end.

(** A feature collection lists [null] among its features. *)
Definition has_null_feature (doc : json) : Prop :=
  exists fs, field "features" doc = Some (JArr fs) /\ In JNull fs.

(** ** Sample data *)

(** A triangle near the origin, and the state reached from the first render
    by picking the draw tool, clicking its three corners, and putting the
    tool back. *)
Definition corner_a : LatLng := mkLatLng (Num 0%R) (Num 0%R).
Definition corner_b : LatLng := mkLatLng (Num 0%R) (Num 1%R).
Definition corner_c : LatLng := mkLatLng (Num 1%R) (Num 0%R).

Definition triangle : list LatLng := [corner_a; corner_b; corner_c].

Definition drawing_triangle : state :=
  click corner_c
    (click corner_b (click corner_a (toggleDrawing initial_state))).

Definition triangle_drawn : state := toggleDrawing drawing_triangle.

(** A position of a sample document. *)
Definition pos (lo la : R) : json := JArr [JNum lo; JNum la].





(** A polygon document whose only ring has two positions. *)
Definition two_point_polygon : json :=
  JObj [("type", JStr "Polygon");
        ("coordinates", JArr [JArr [pos 0 0; pos 1 1]])].

(** The state after importing [two_point_polygon] into the first render. *)
Definition two_points_imported : state :=
  fst (handleFileChange JavaScriptCore_limit
         (Some ("two.geojson", Normal two_point_polygon)) initial_state).

(** A document without polygon geometry. *)
Definition point_document : json :=
  JObj [("type", JStr "Point"); ("coordinates", pos 5 5)].

(** The document that exporting the drawn triangle downloads, and the state
    after importing it again. *)
Definition exported_triangle : json := export_document "" triangle.

Definition triangle_reimported : state :=
  fst (handleFileChange JavaScriptCore_limit
         (Some ("area-of-interest.geojson", Normal exported_triangle))
         triangle_drawn).

(** ** The handlers outside the drawing and shape paths *)

Definition setView (v : ViewType) (s : state) : state :=
  mkState v (searchQuery s) (selectedArea s) (isDrawing s) (drawnPolygon s)
    (drawingPoints s) (mapCenter s) (zoom s) (activeDrawTool s)
    (isSearching s) (searchError s) (isGridOn s).

Definition setIsSearching (v : bool) (s : state) : state :=
  mkState (view s) (searchQuery s) (selectedArea s) (isDrawing s)
    (drawnPolygon s) (drawingPoints s) (mapCenter s) (zoom s)
    (activeDrawTool s) v (searchError s) (isGridOn s).

Definition setSearchError (v : option string) (s : state) : state :=
  mkState (view s) (searchQuery s) (selectedArea s) (isDrawing s)
    (drawnPolygon s) (drawingPoints s) (mapCenter s) (zoom s)
    (activeDrawTool s) (isSearching s) v (isGridOn s).

Definition setIsGridOn (v : bool) (s : state) : state :=
  mkState (view s) (searchQuery s) (selectedArea s) (isDrawing s)
    (drawnPolygon s) (drawingPoints s) (mapCenter s) (zoom s)
    (activeDrawTool s) (isSearching s) (searchError s) v.

(** [toggleGrid] (lines 381-383). *)
Definition toggleGrid (s : state) : state :=
  s |> setIsGridOn (negb (isGridOn s)).

(** The [moveend] and [zoomend] handlers of [MapController] (lines 73-79):
    the map widget reports the centre and the zoom it has come to rest
    at. *)
Definition moveend (center : LatLng) (s : state) : state :=
  s |> setMapCenter (mkLatLng (lat center) (lng center)).

Definition zoomend (mapZoom : Z) (s : state) : state :=
  s |> setZoom mapZoom.

(** What [navigator.geolocation] answers: there is no such object, or the
    success callback is called with a position, or the error callback. *)
Inductive geolocation : Type :=
| geo_unsupported
| geo_position (latitude longitude : number)
| geo_error.

(** [handleLocateMe] (lines 363-379), with the answer of the platform. *)
Definition handleLocateMe (answer : geolocation) (s : state)
  : state * list effect :=
  match answer with
  | geo_unsupported =>
      (s, [alert "Geolocation is not supported in this browser."])
  | geo_position latitude longitude =>
      (s |> setMapCenter (mkLatLng latitude longitude) |> setZoom 13
         |> setSelectedArea "My Location",
       [])
  | geo_error => (s, [alert "Unable to retrieve your location."])
  end.

(** One element of the array the geocoding service answers with
    (line 196). *)
Module Nominatim.
Record result : Type := mkResult {
  lat : string;
  lon : string;
  display_name : string
}.
End Nominatim.

(** How a search request ends: [search_failed] when [fetch] rejects, when
    [res.ok] is false (line 192 throws) or when [res.json()] rejects;
    otherwise the parsed body, [None] for a [null] body. *)
Inductive search_response : Type :=
| search_failed
| search_data (data : option (list Nominatim.result)).

(** The lines of the status row under the search box (lines 480-488). *)
Inductive span : Type :=
| span_searching
| span_error (message : string)
| span_selected (name : string).

(** A string is truthy when it is not empty. *)
Definition nonempty (t : string) : bool := negb (String.eqb t "").

(** [searchError], a [string | null], is truthy. *)
Definition has_error (s : state) : bool :=
  match searchError s with
  | Some message => nonempty message
  | None => false
  end.

Definition status_row (s : state) : list span :=
  ((if isSearching s then [span_searching] else []) ++
   (if negb (isSearching s) && has_error s then
      match searchError s with
      | Some message => [span_error message]
      | None => []
      end
    else []) ++
   (if negb (isSearching s) && negb (has_error s) && nonempty (selectedArea s)
    then [span_selected (selectedArea s)] else []))%list.

(** The overlays drawn on the map (lines 593-620): the confirmed polygon,
    and the polyline of the buffer with one marker per vertex. *)
Inductive overlay : Type :=
| overlay_polygon (positions : list (number * number))
| overlay_polyline (positions : list (number * number))
| overlay_marker (center : number * number).

(** [(p) => [p.lat, p.lng]] *)
Definition lat_lng_pair (p : LatLng) : number * number := (lat p, lng p).

Definition overlays (s : state) : list overlay :=
  ((if (0 <? List.length (drawnPolygon s))%nat
    then [overlay_polygon (map lat_lng_pair (drawnPolygon s))] else []) ++
   (if (0 <? List.length (drawingPoints s))%nat
    then overlay_polyline (map lat_lng_pair (drawingPoints s))
         :: map (fun p => overlay_marker (lat_lng_pair p)) (drawingPoints s)
    else []))%list.

(** [disabled={!activeShape}] on the export button (line 555). *)
Definition export_disabled (s : state) : bool :=
  match activeShape s with
  | Some _ => false
  | None => true
  end.

(** The draw button is highlighted when [activeDrawTool === 'polygon']
    (lines 657-659). *)
Definition draw_button_active (s : state) : bool :=
  tool_is "polygon" (activeDrawTool s).

Section RunTime.

(** The argument limit of the engine, and three functions of the JavaScript
    run time that [handleSearch] calls; the properties below hold whatever
    they are. *)
Variable argument_limit : N.
Variable trim : string -> string.
Variable encodeURIComponent : string -> string.
Variable parseFloat : string -> number.

(** The request URL of lines 182-184. *)
Definition search_url (query : string) : string :=
  "https://nominatim.openstreetmap.org/search?format=json&q="
  ++ encodeURIComponent query ++ "&limit=1".

(** [handleSearch] up to its first [await] (lines 174-190): nothing happens
    on a blank query; otherwise the busy flag is raised, the error cleared
    and the request sent. *)
Definition handleSearch (s : state) : state * option string :=
  let query := trim (searchQuery s) in
  if String.eqb query "" then (s, None)
  else (s |> setIsSearching true |> setSearchError None,
        Some (search_url query)).

(** The rest of [handleSearch] (lines 192-216), run when the request has
    ended. *)
Definition handleSearch_settled (response : search_response) (s : state)
  : state :=
  match response with
  | search_failed =>
      s |> setSearchError (Some "Error searching location")
        |> setIsSearching false
  | search_data None | search_data (Some []) =>
      s |> setSearchError (Some "Location not found")
        |> setIsSearching false
  | search_data (Some (first :: _)) =>
      let latNum := parseFloat (Nominatim.lat first) in
      let lonNum := parseFloat (Nominatim.lon first) in
      s |> setMapCenter (mkLatLng latNum lonNum) |> setZoom 11
        |> setSelectedArea (Nominatim.display_name first)
        |> setSearchError None |> setIsSearching false
  end.

(** ** Events

    Everything that can happen to the component: the user's actions, the
    reports of the map widget, and the answers of the file reader, the
    geocoding service and the geolocation service. *)
Inductive event : Type :=
| on_click (latlng : LatLng)
| on_moveend (center : LatLng)
| on_zoomend (mapZoom : Z)
| on_type (text : string)
| on_search
| on_search_settled (response : search_response)
| on_back
| on_home
| on_clear
| on_file (file : option (string * completion json))
| on_apply_outline
| on_toggle_drawing
| on_pointer_mode
| on_zoom_to_shape
| on_locate (answer : geolocation)
| on_toggle_grid
| on_export
| on_zoom_in
| on_zoom_out
| on_view (v : ViewType).

Definition step (s : state) (e : event) : state :=
  match e with
  | on_click latlng => click latlng s
  | on_moveend center => moveend center s
  | on_zoomend mapZoom => zoomend mapZoom s
  | on_type text => setSearchQuery text s
  | on_search => fst (handleSearch s)
  | on_search_settled response => handleSearch_settled response s
  | on_back => handleBack s
  | on_home => handleHome s
  | on_clear => handleClearAOI s
  | on_file file => fst (handleFileChange argument_limit file s)
  | on_apply_outline => fst (handleApplyOutline s)
  | on_toggle_drawing => toggleDrawing s
  | on_pointer_mode => handlePointerMode s
  | on_zoom_to_shape => fst (handleZoomToShape argument_limit s)
  | on_locate answer => fst (handleLocateMe answer s)
  | on_toggle_grid => toggleGrid s
  | on_export => fst (handleExportGeoJSON s)
  | on_zoom_in => handleZoomIn s
  | on_zoom_out => handleZoomOut s
  | on_view v => setView v s
  end.

(** The state after a sequence of events. *)
Definition run (events : list event) (s : state) : state :=
  fold_left step events s.

End RunTime.

(** The map widget is given [minZoom] and [maxZoom] (lines 573-574) and
    reports no zoom outside them. *)
Definition widget_zoom_in_bounds (e : event) : Prop :=
  match e with
  | on_zoomend mapZoom => (MIN_ZOOM <= mapZoom <= MAX_ZOOM)%Z
  | _ => True
  end.

(** The buffer clicked point by point. *)
Definition clicks (points : list LatLng) (s : state) : state :=
  fold_left (fun s' p => click p s') points s.

(** What ties the drawing flag, the draw tool, the buffer and the confirmed
    polygon together. *)
Definition drawing_invariant (s : state) : Prop :=
  isDrawing s = tool_is "polygon" (activeDrawTool s) /\
  (isDrawing s = false -> drawingPoints s = []) /\
  (isDrawing s = true -> drawnPolygon s = []).

(** A [coordinates] member that is absent, [null] or an empty array. *)
Definition no_rings (coordinates : option json) : Prop :=
  coordinates = None \/ coordinates = Some JNull \/
  coordinates = Some (JArr []).

(** A [Polygon] object without rings. *)
Definition polygon_without_rings (g : json) : Prop :=
  field "type" g = Some (JStr "Polygon") /\ no_rings (field "coordinates" g).

(** A [MultiPolygon] object without members, or whose first member has no
    rings. *)
Definition multipolygon_without_rings (g : json) : Prop :=
  field "type" g = Some (JStr "MultiPolygon") /\
  exists members,
    field "coordinates" g = Some (JArr members) /\
    no_rings (nth_error members 0).

(** A [MultiPolygon] object whose [coordinates] member is absent or
    [null]. *)
Definition multipolygon_without_coordinates (g : json) : Prop :=
  field "type" g = Some (JStr "MultiPolygon") /\
  (field "coordinates" g = None \/ field "coordinates" g = Some JNull).

(** A polygon document without a [coordinates] member, and one whose outer
    ring is empty. *)
Definition polygon_without_coordinates : json :=
  JObj [("type", JStr "Polygon")].

Definition empty_ring_polygon : json :=
  JObj [("type", JStr "Polygon"); ("coordinates", JArr [JArr []])].

(** A feature collection that lists [null] before a polygon feature. *)
Definition null_then_polygon : json :=
  JObj [("type", JStr "FeatureCollection");
        ("features",
         JArr [JNull;
               JObj [("type", JStr "Feature");
                     ("geometry", two_point_polygon)]])].

(** The first render with "Pune" typed into the search box, and an answer
    of the geocoding service. *)
Definition pune_typed : state := setSearchQuery "Pune" initial_state.

Definition pune : Nominatim.result :=
  Nominatim.mkResult "18.5213738" "73.8545071" "Pune, Maharashtra, India".

(** ** The geometry on binary64 numbers

    The statistics of a shape are sums and products of doubles, and what
    they do to a rotated or reversed ring, or to two points that nearly
    coincide, is decided by rounding.  This part embeds the three geometry
    functions once more, on Rocq's primitive binary64 numbers, whose
    operations are those of IEEE 754 (round to nearest, ties to even,
    signed zeros, infinities and NaN), as [SpecFloat] specifies them.

    [+], [-], [*], [/], [Math.sqrt] and [Math.abs] are fixed by IEEE 754
    and ECMA-262.  [Math.sin], [Math.cos], [Math.tan], [Math.log] and
    [Math.atan2] are not: the standard fixes their values at a few
    arguments and leaves the rest to the implementation.  The geometry is
    therefore a function of the platform's [Math], and a property of the
    code is one of every platform. *)

(** The values of [f] on the consecutive pairs of a list, in order. *)
Fixpoint path_terms (A B : Type) (f : A -> A -> B) (xs : list A) : list B :=
  match xs with
  | a :: (b :: _) as rest => f a b :: path_terms f rest
  | _ => []
  end.

(** The values of [f] on the edges of the closed ring, in the order of the
    loop: the consecutive pairs, then the edge from the last element back
    to the first. *)
Definition ring_terms (A B : Type) (f : A -> A -> B) (xs : list A) : list B :=
  match xs with
  | [] => []
  | a :: _ => path_terms f (xs ++ [a])
  end.

Module Binary64.

Local Open Scope float_scope.

(** The functions of [Math] that the implementation approximates. *)
Record Math : Type := mkMath {
  Math_sin : float -> float;
  Math_cos : float -> float;
  Math_tan : float -> float;
  Math_log : float -> float;
  Math_atan2 : float -> float -> float
}.

(** [Math.PI], the double nearest to pi: 3.141592653589793. *)
Definition Math_PI : float := 0x1.921fb54442d18p+1.

Definition Math_sqrt : float -> float := PrimFloat.sqrt.
Definition Math_abs : float -> float := PrimFloat.abs.

Record LatLng : Type := mkLatLng { lat : float; lng : float }.

Section Platform.

Variable M : Math.

(** [const toRad = (deg) => (deg * Math.PI) / 180] *)
Definition toRad (deg : float) : float := (deg * Math_PI) / 180.

(** The haversine term [si] of [distanceKm] (lines 92-99). *)
Definition distanceKm_si (a b : LatLng) : float :=
  let dLat := toRad (lat b - lat a) in
  let dLon := toRad (lng b - lng a) in
  let lat1 := toRad (lat a) in
  let lat2 := toRad (lat b) in
  Math_sin M (dLat / 2) * Math_sin M (dLat / 2) +
  Math_cos M lat1 * Math_cos M lat2 * Math_sin M (dLon / 2) *
    Math_sin M (dLon / 2).

(** [function distanceKm(a, b)] (lines 90-103).  [si] goes to the two
    square roots as it is. *)
Definition distanceKm (a b : LatLng) : float :=
  let R := 6371 in
  let si := distanceKm_si a b in
  let c := 2 * Math_atan2 M (Math_sqrt si) (Math_sqrt (1 - si)) in
  R * c.

(** A [for (let i = 0; i < n; i++) total += f(xs[i], xs[(i + 1) % n])] loop,
    with [total] starting at [0]. *)
Definition ring_loop (A : Type) (d : A) (f : A -> A -> float) (xs : list A)
  : float :=
  fold_left
    (fun total i =>
       total + f (nth i xs d) (nth ((i + 1) mod List.length xs) xs d))
    (seq 0 (List.length xs)) 0.

(** [function perimeterKm(points)] (lines 105-114) *)
Definition perimeterKm (points : list LatLng) : float :=
  if (List.length points <? 2)%nat then 0
  else ring_loop (mkLatLng nan nan) distanceKm points.

(** The projected point [{ x, y }] of [areaKm2]. *)
Record XY : Type := mkXY { x : float; y : float }.

(** The spherical-Mercator projection of lines 120-125. *)
Definition project (p : LatLng) : XY :=
  let R := 6378137 in
  mkXY ((R * lng p * Math_PI) / 180)
       (R * Math_log M (Math_tan M (Math_PI / 4 + (lat p * Math_PI) / 360))).

(** The summand [a.x * b.y - b.x * a.y] of the shoelace loop. *)
Definition cross (a b : XY) : float := x a * y b - x b * y a.

(** [function areaKm2(points)] (lines 116-136) *)
Definition areaKm2 (points : list LatLng) : float :=
  if (List.length points <? 3)%nat then 0
  else
    let projected := map project points in
    let sum := ring_loop (mkXY nan nan) cross projected in
    let areaMeters2 := Math_abs sum / 2 in
    areaMeters2 / 1000000.

End Platform.

(** *** Notions used to state the properties *)

(** A point of the globe: latitude in [-90, 90], longitude in [-180, 180]. *)
Definition valid (p : LatLng) : Prop :=
  ((-90 <=? lat p) && (lat p <=? 90) &&
   ((-180 <=? lng p) && (lng p <=? 180)))%bool = true.

(** What ECMA-262 fixes of the functions of [Math] that the geometry calls:
    [Math.sin(+0)] is [+0], [Math.cos(+0)] is [1], [Math.atan2(+0, x)] is
    [+0] for [x > 0], and [Math.atan2(y, NaN)] is NaN. *)
Record ECMAScript (M : Math) : Prop := mkECMAScript {
  sin_zero : Math_sin M 0 = 0;
  cos_zero : Math_cos M 0 = 1;
  atan2_zero : forall x, (0 <? x) = true -> Math_atan2 M 0 x = 0;
  atan2_NaN : forall y, Math_atan2 M y nan = nan
}.

(** What the standard leaves to the implementation, and implementations
    provide: a sine that is odd, and a cosine between [-1] and [1]. *)
Definition odd_sine (M : Math) : Prop :=
  forall x, Math_sin M (- x) = - Math_sin M x.

Definition cosine_in_unit (M : Math) : Prop :=
  forall x, is_finite x = true ->
    ((-1 <=? Math_cos M x) && (Math_cos M x <=? 1))%bool = true.

(** [total = 0], then [total += t] for each term, left to right. *)
Definition float_sum (ts : list float) : float := fold_left PrimFloat.add ts 0.

(** The edge lengths [perimeterKm] adds, and the perimeter as their sum. *)
Definition edge_lengths (M : Math) (points : list LatLng) : list float :=
  ring_terms (distanceKm M) points.

Definition perimeter_of (lengths : list float) : float :=
  if (List.length lengths <? 2)%nat then 0 else float_sum lengths.

(** The shoelace terms [areaKm2] adds, and the area as half the magnitude
    of their sum, in square kilometres. *)
Definition shoelace_terms (M : Math) (points : list LatLng) : list float :=
  ring_terms cross (map (project M) points).

Definition area_of (terms : list float) : float :=
  if (List.length terms <? 3)%nat then 0
  else Math_abs (float_sum terms) / 2 / 1000000.

(** Two terms that cancel: one is the negation of the other, or both are
    [+0]. *)
Definition opposite (u v : float) : Prop :=
  u = - v \/ (u = 0 /\ v = 0).

(** Zero, or finite with an exponent of at most [B]: the magnitude is below
    [2 ^ (B + 53)]. *)
Definition SFsmall (B : Z) (f : spec_float) : Prop :=
  match f with
  | S754_zero _ => True
  | S754_finite _ _ e => (e <= B)%Z
  | _ => False
  end.

Definition small (B : Z) (x : float) : Prop := SFsmall B (Prim2SF x).

(** [+0], or finite and positive. *)
Definition nonnegative (x : float) : Prop :=
  match Prim2SF x with
  | S754_zero false | S754_finite false _ _ => True
  | _ => False
  end.

(** *** Sample data *)

Definition origin : LatLng := mkLatLng 0 0.

(** The smallest positive latitude, [5e-324] degrees north of [origin]. *)
Definition nearby : LatLng := mkLatLng 0x1p-1074 0.

(** [1e-300] degrees east of [origin]. *)
Definition east_of_origin : LatLng := mkLatLng 0 0x1.56e1fc2f8f359p-997.

Definition corner_a : LatLng := mkLatLng 0 0.
Definition corner_b : LatLng := mkLatLng 0 1.
Definition corner_c : LatLng := mkLatLng 1 0.
Definition triangle : list LatLng := [corner_a; corner_b; corner_c].

(** Two points opposite each other on the globe. *)
Definition south_west : LatLng := mkLatLng (-12) (-180).
Definition north_east : LatLng := mkLatLng 12 0.

End Binary64.

(** *** A reference platform

    One [Math] among those the standard allows, to evaluate the code at
    concrete points: each function is computed on integers, in fixed-point
    arithmetic with 200 fraction bits ([scale]), and the result rounded to
    the nearest double.  The special values are those of ECMA-262. *)
Module Reference.

Local Open Scope Z_scope.

Definition scale : Z := 200.

(** The precision of [pi] in the reduction of an argument of sine or
    cosine, enough for every finite double. *)
Definition reduction_scale : Z := 1400.

Definition one : Z := Z.shiftl 1 scale.

(** The series of [atan (1 / n)], with [bits] fraction bits. *)
Fixpoint atan_inv_terms (fuel : nat) (k t n2 acc : Z) : Z :=
  match fuel with
  | O => acc
  | S fuel' =>
      if t =? 0 then acc
      else
        let u := t / (2 * k + 1) in
        atan_inv_terms fuel' (k + 1) (t / n2) n2
          (if Z.even k then acc + u else acc - u)
  end.

Definition atan_inv (n bits : Z) : Z :=
  atan_inv_terms 2000 0 (Z.shiftl 1 bits / n) (n * n) 0.

(** [pi = 16 atan (1/5) - 4 atan (1/239)] (Machin). *)
Definition pi_reduction : Z :=
  Eval vm_compute in
    Z.shiftr (16 * atan_inv 5 (reduction_scale + 64)
              - 4 * atan_inv 239 (reduction_scale + 64)) 64.

Definition half_pi_reduction : Z := Eval vm_compute in Z.shiftr pi_reduction 1.

Definition pi : Z :=
  Eval vm_compute in Z.shiftr pi_reduction (reduction_scale - scale).

Definition half_pi : Z :=
  Eval vm_compute in Z.shiftr pi_reduction (reduction_scale - scale + 1).

(** The series of [atanh z], for [ln]. *)
Fixpoint atanh_terms (fuel : nat) (k t z2 acc : Z) : Z :=
  match fuel with
  | O => acc
  | S fuel' =>
      if t =? 0 then acc
      else atanh_terms fuel' (k + 1) (Z.shiftr (t * z2) scale) z2
             (acc + t / (2 * k + 1))
  end.

Definition atanh_series (z : Z) : Z :=
  atanh_terms 1000 0 z (Z.shiftr (z * z) scale) 0.

(** [ln 2 = 2 atanh (1/3)]. *)
Definition ln2 : Z := Eval vm_compute in 2 * atanh_series (one / 3).

(** The double nearest to [v / 2 ^ bits]. *)
Definition round (v bits : Z) : float :=
  SF2Prim (binary_normalize prec emax v (- bits) false).

Fixpoint sin_terms (fuel : nat) (k t r2 acc : Z) : Z :=
  match fuel with
  | O => acc
  | S fuel' =>
      if t =? 0 then acc
      else
        let k' := k + 1 in
        sin_terms fuel' k'
          (Z.shiftr (t * r2) scale / ((2 * k') * (2 * k' + 1))) r2
          (if Z.even k then acc + t else acc - t)
  end.

Fixpoint cos_terms (fuel : nat) (k t r2 acc : Z) : Z :=
  match fuel with
  | O => acc
  | S fuel' =>
      if t =? 0 then acc
      else
        let k' := k + 1 in
        cos_terms fuel' k'
          (Z.shiftr (t * r2) scale / ((2 * k' - 1) * (2 * k'))) r2
          (if Z.even k then acc + t else acc - t)
  end.

(** The sine and the cosine of [m * 2 ^ e]: the argument is reduced by a
    multiple of [pi / 2], and the quadrant selects the series. *)
Definition sincos (m : positive) (e : Z) : Z * Z :=
  let argument := Z.shiftl (Zpos m) (e + reduction_scale) in
  let (k, reduced) := Z.div_eucl argument half_pi_reduction in
  let r := Z.shiftr reduced (reduction_scale - scale) in
  let r2 := Z.shiftr (r * r) scale in
  let s := sin_terms 1000 0 r r2 0 in
  let c := cos_terms 1000 0 one r2 0 in
  match k mod 4 with
  | 0 => (s, c)
  | 1 => (c, - s)
  | 2 => (- s, - c)
  | _ => (- c, s)
  end.

(** Below [2 ^ -30] the sine and the tangent round to their argument and
    the cosine to [1]. *)
Definition tiny (m : positive) (e : Z) : bool :=
  e + Zpos (digits2_pos m) <=? -30.

Definition signed (s : bool) (v : float) : float :=
  if s then (- v)%float else v.

(** The sine of the magnitude, with the sign of the argument. *)
Definition sin (x : float) : float :=
  match Prim2SF x with
  | S754_nan | S754_infinity _ => nan
  | S754_zero _ => x
  | S754_finite s m e =>
      if tiny m e then x else signed s (round (fst (sincos m e)) scale)
  end.

(** A rounded cosine lies between [-1] and [1]. *)
Definition within_unit (v : float) : float :=
  if ((-1 <=? v) && (v <=? 1))%float then v else 1%float.

Definition cos (x : float) : float :=
  match Prim2SF x with
  | S754_nan | S754_infinity _ => nan
  | S754_zero _ => 1%float
  | S754_finite s m e =>
      if tiny m e then 1%float
      else within_unit (round (snd (sincos m e)) scale)
  end.

Definition tan (x : float) : float :=
  match Prim2SF x with
  | S754_nan | S754_infinity _ => nan
  | S754_zero _ => x
  | S754_finite s m e =>
      if tiny m e then x
      else
        let (sv, cv) := sincos m e in
        if cv =? 0 then signed s infinity
        else
          signed (xorb s (xorb (sv <? 0) (cv <? 0)))
            (round (Z.shiftl (Z.abs sv) scale / Z.abs cv) scale)
  end.

(** [ln (t * 2 ^ k) = k ln 2 + 2 atanh ((t - 1) / (t + 1))], with [t] in
    [1, 2). *)
Definition log (y : float) : float :=
  match Prim2SF y with
  | S754_nan | S754_infinity true | S754_finite true _ _ => nan
  | S754_zero _ => neg_infinity
  | S754_infinity false => infinity
  | S754_finite false m e =>
      let n := Zpos (digits2_pos m) in
      let t := Z.shiftl (Zpos m) (scale - (n - 1)) in
      let k := e + n - 1 in
      let z := Z.shiftl (t - one) scale / (t + one) in
      round (k * ln2 + 2 * atanh_series z) scale
  end.

Fixpoint atan_terms (fuel : nat) (k t q2 acc : Z) : Z :=
  match fuel with
  | O => acc
  | S fuel' =>
      if t =? 0 then acc
      else
        let u := t / (2 * k + 1) in
        atan_terms fuel' (k + 1) (Z.shiftr (t * q2) scale) q2
          (if Z.even k then acc + u else acc - u)
  end.

(** [atan q = 2 atan (q / (1 + sqrt (1 + q ^ 2)))]. *)
Definition halve (q : Z) : Z :=
  Z.shiftl q scale / (one + Z.sqrt (one * one + q * q)).

(** The arc tangent of a ratio [q] between [0] and [1]. *)
Definition atan_fixed (q : Z) : Z :=
  let q := halve (halve (halve q)) in
  Z.shiftl (atan_terms 1000 0 q (Z.shiftr (q * q) scale) 0) 3.

(** [(my * 2 ^ ey) / (mx * 2 ^ ex)], with [scale] fraction bits. *)
Definition ratio (my : positive) (ey : Z) (mx : positive) (ex : Z) : Z :=
  let sh := ey - ex + scale in
  if 0 <=? sh then Z.shiftl (Zpos my) sh / Zpos mx
  else Zpos my / Z.shiftl (Zpos mx) (- sh).

Definition sign_of (f : spec_float) : bool :=
  match f with
  | S754_zero s | S754_infinity s | S754_finite s _ _ => s
  | S754_nan => false
  end.

(** [Math.atan2(y, x)]: the special values of ECMA-262, and otherwise the
    angle of the point [(x, y)], with the sign of [y]. *)
Definition atan2 (y x : float) : float :=
  let sy := sign_of (Prim2SF y) in
  let sx := sign_of (Prim2SF x) in
  match Prim2SF y, Prim2SF x with
  | S754_nan, _ | _, S754_nan => nan
  | S754_zero _, _ => if sx then signed sy (round pi scale) else y
  | _, S754_zero _ => signed sy (round half_pi scale)
  | S754_infinity _, S754_infinity _ =>
      signed sy (round (if sx then 3 * pi else pi) (scale + 2))
  | _, S754_infinity _ =>
      signed sy (if sx then round pi scale else 0%float)
  | S754_infinity _, _ => signed sy (round half_pi scale)
  | S754_finite _ my ey, S754_finite _ mx ex =>
      let d := (abs y / abs x)%float in
      if ((d <? 0x1p-30) && negb sx)%float%bool then signed sy d
      else
        let a :=
          if (abs y <=? abs x)%float then atan_fixed (ratio my ey mx ex)
          else half_pi - atan_fixed (ratio mx ex my ey) in
        signed sy (round (if sx then pi - a else a) scale)
  end.

Definition math : Binary64.Math :=
  Binary64.mkMath sin cos tan log atan2.

End Reference.

(* ================================================================== *)
(** * Part II. Properties                                              *)
(* ================================================================== *)

Local Close Scope string_scope.
Local Open Scope R_scope.

(** ** Arithmetic of [number] *)

Lemma js_div_Num (a b : R) : b <> 0 -> js_div (Num a) (Num b) = Num (a / b).
Proof.
  intros Hb. unfold js_div.
  destruct (Req_dec_T b 0); [contradiction | reflexivity].
Qed.

Lemma js_add_comm (u v : number) : js_add u v = js_add v u.
Proof. destruct u, v; simpl; try reflexivity. f_equal. lra. Qed.

Lemma js_add_assoc (u v w : number) :
  js_add u (js_add v w) = js_add (js_add u v) w.
Proof. destruct u, v, w; simpl; try reflexivity. f_equal. lra. Qed.

Lemma js_add_0_l (u : number) : js_add (Num 0) u = u.
Proof. destruct u; simpl; try reflexivity. f_equal. lra. Qed.

Lemma js_add_0_r (u : number) : js_add u (Num 0) = u.
Proof. rewrite js_add_comm. apply js_add_0_l. Qed.

(** ** The haversine term over the reals *)

Lemma toRad_Num (d : R) : toRad (Num d) = Num (rad d).
Proof.
  unfold toRad, Math_PI. cbn [js_mul lift2].
  rewrite js_div_Num by lra. reflexivity.
Qed.

Lemma distanceKm_si_Num (lat1 lng1 lat2 lng2 : R) :
  distanceKm_si (mkLatLng (Num lat1) (Num lng1))
                (mkLatLng (Num lat2) (Num lng2))
  = Num (hav lat1 lng1 lat2 lng2).
Proof.
  unfold distanceKm_si. cbn [lat lng js_sub lift2].
  rewrite !toRad_Num. rewrite !js_div_Num by lra. reflexivity.
Qed.

Lemma rad_minus (u v : R) : rad (u - v) = rad u - rad v.
Proof. unfold rad. lra. Qed.

Lemma sin_sqr_half (t : R) : sin (t / 2) * sin (t / 2) = (1 - cos t) / 2.
Proof.
  replace t with (2 * (t / 2)) at 3 by lra.
  rewrite cos_2a_sin. lra.
Qed.

(** The haversine term is half of one minus the cosine of the central angle,
    written with the dot product of the two unit vectors. *)
Lemma hav_dot (lat1 lng1 lat2 lng2 : R) :
  2 * hav lat1 lng1 lat2 lng2 =
  1 - (cos (rad lat1) * cos (rad lat2) * cos (rad (lng2 - lng1))
       + sin (rad lat1) * sin (rad lat2)).
Proof.
  unfold hav. rewrite !sin_sqr_half.
  replace (cos (rad lat1) * cos (rad lat2) *
           sin (rad (lng2 - lng1) / 2) * sin (rad (lng2 - lng1) / 2))
    with (cos (rad lat1) * cos (rad lat2) *
          (sin (rad (lng2 - lng1) / 2) * sin (rad (lng2 - lng1) / 2))) by ring.
  rewrite sin_sqr_half.
  rewrite rad_minus, cos_minus. lra.
Qed.

Lemma hav_range (lat1 lng1 lat2 lng2 : R) :
  0 <= hav lat1 lng1 lat2 lng2 <= 1.
Proof.
  pose proof (hav_dot lat1 lng1 lat2 lng2) as Hd.
  pose proof (sin2_cos2 (rad lat1)) as H1.
  pose proof (sin2_cos2 (rad lat2)) as H2.
  pose proof (COS_bound (rad (lng2 - lng1))) as [Hlo Hhi].
  unfold Rsqr in H1, H2.
  set (c1 := cos (rad lat1)) in *. set (s1 := sin (rad lat1)) in *.
  set (c2 := cos (rad lat2)) in *. set (s2 := sin (rad lat2)) in *.
  set (t := cos (rad (lng2 - lng1))) in *.
  set (h := hav lat1 lng1 lat2 lng2) in *.
  assert (Ht : 0 <= 1 - t * t) by nra.
  split.
  - assert (0 <= (c1 - c2 * t) * (c1 - c2 * t) + (s1 - s2) * (s1 - s2)
                 + c2 * c2 * (1 - t * t)).
    { pose proof (Rle_0_sqr (c1 - c2 * t)). pose proof (Rle_0_sqr (s1 - s2)).
      pose proof (Rle_0_sqr c2). unfold Rsqr in *. nra. }
    nra.
  - assert (0 <= (c1 + c2 * t) * (c1 + c2 * t) + (s1 + s2) * (s1 + s2)
                 + c2 * c2 * (1 - t * t)).
    { pose proof (Rle_0_sqr (c1 + c2 * t)). pose proof (Rle_0_sqr (s1 + s2)).
      pose proof (Rle_0_sqr c2). unfold Rsqr in *. nra. }
    nra.
Qed.

(** ** The inverse-trigonometric step *)

Lemma distanceKm_c_Num (si : R) :
  0 <= si <= 1 ->
  distanceKm_c (Num si) = Num (2 * atan2 (sqrt si) (sqrt (1 - si))).
Proof.
  intros [Hlo Hhi]. unfold distanceKm_c, Math_sqrt. cbn [js_sub lift2].
  destruct (Rle_dec 0 si) as [_ | Hn]; [ | contradiction].
  destruct (Rle_dec 0 (1 - si)) as [_ | Hn]; [ | exfalso; apply Hn; lra].
  reflexivity.
Qed.

Lemma distanceKm_Num (lat1 lng1 lat2 lng2 : R) :
  distanceKm (mkLatLng (Num lat1) (Num lng1)) (mkLatLng (Num lat2) (Num lng2))
  = Num (dist lat1 lng1 lat2 lng2).
Proof.
  unfold distanceKm. rewrite distanceKm_si_Num.
  rewrite distanceKm_c_Num by apply hav_range. reflexivity.
Qed.

Lemma distanceKm_NaN (a b : LatLng) :
  lat a = NaN \/ lng a = NaN \/ lat b = NaN \/ lng b = NaN ->
  distanceKm a b = NaN.
Proof.
  destruct a as [[la | ] [ga | ]], b as [[lb | ] [gb | ]];
    intros H; cbn [lat lng] in H;
    try (destruct H as [H | [H | [H | H]]]; discriminate H);
    unfold distanceKm, distanceKm_si; cbn [lat lng js_sub lift2];
    rewrite ?toRad_Num; rewrite ?js_div_Num by lra; reflexivity.
Qed.

Lemma atan2_quadrant (v u : R) :
  0 <= v -> 0 <= u -> (atan2 v u = 0 <-> v = 0).
Proof.
  intros Hv Hu. unfold atan2.
  destruct (Rlt_dec 0 u) as [Hpos | Hnpos].
  - split.
    + intros Ha. destruct (Rle_lt_or_eq_dec 0 v Hv) as [Hlt | Heq]; [ | lra].
      exfalso.
      assert (0 < v / u) by (apply Rdiv_lt_0_compat; assumption).
      pose proof (atan_increasing 0 (v / u) H) as Hinc.
      rewrite atan_0 in Hinc. lra.
    + intros ->. unfold Rdiv. rewrite Rmult_0_l. apply atan_0.
  - destruct (Rlt_dec u 0) as [Hneg | _]; [lra | ].
    destruct (Rlt_dec 0 v) as [Hvpos | Hvn].
    + pose proof PI_RGT_0. split; intros; lra.
    + destruct (Rlt_dec v 0); [lra | ]. split; intros; lra.
Qed.

Lemma dist_zero (lat1 lng1 lat2 lng2 : R) :
  dist lat1 lng1 lat2 lng2 = 0 <-> hav lat1 lng1 lat2 lng2 = 0.
Proof.
  pose proof (hav_range lat1 lng1 lat2 lng2) as [Hlo Hhi].
  unfold dist. set (h := hav lat1 lng1 lat2 lng2) in *.
  pose proof (atan2_quadrant (sqrt_pos h) (sqrt_pos (1 - h))) as Hq.
  split.
  - intros Hd. assert (Ha : atan2 (sqrt h) (sqrt (1 - h)) = 0) by lra.
    apply Hq in Ha. apply sqrt_eq_0 in Ha; assumption.
  - intros Hh. assert (Hs : sqrt h = 0) by (rewrite Hh; apply sqrt_0).
    apply Hq in Hs. rewrite Hs. lra.
Qed.

(** ** Loops over the edges of a ring *)

Section RingLoop.

Variable A : Type.
Variable d : A.

Lemma fold_left_js_add (g : nat -> number) (l : list nat) (acc : number) :
  fold_left (fun total i => js_add total (g i)) l acc
  = js_add acc (fold_right js_add (Num 0) (map g l)).
Proof.
  revert acc. induction l as [ | i l IH]; intros acc;
  cbn [fold_left map fold_right].
  - now rewrite js_add_0_r.
  - rewrite IH. now rewrite js_add_assoc.
Qed.

Lemma fold_right_js_add_app (u v : list number) :
  fold_right js_add (Num 0) (u ++ v)
  = js_add (fold_right js_add (Num 0) u) (fold_right js_add (Num 0) v).
Proof.
  induction u as [ | a u IH]; cbn [app fold_right].
  - now rewrite js_add_0_l.
  - rewrite IH. now rewrite js_add_assoc.
Qed.

(** The sum over the first [m] consecutive pairs, read by index. *)
Lemma path_sum_by_index (f : A -> A -> number) (xs : list A) :
  fold_right js_add (Num 0)
    (map (fun i => f (nth i xs d) (nth (S i) xs d))
         (seq 0 (List.length xs - 1)))
  = path_sum f xs.
Proof.
  induction xs as [ | a [ | b rest] IH]; try reflexivity.
  replace (List.length (a :: b :: rest) - 1)%nat
    with (S (List.length (b :: rest) - 1)) by (cbn [List.length]; lia).
  cbn [seq map fold_right path_sum]. f_equal.
  rewrite <- seq_shift, map_map. exact IH.
Qed.

(** On a non-empty list the default of [last] is never used. *)
Lemma last_default (b : A) (rest : list A) (a a' : A) :
  last (b :: rest) a = last (b :: rest) a'.
Proof.
  revert b. induction rest as [ | c rest IH]; intros b; [reflexivity | ].
  change (last (b :: c :: rest) a) with (last (c :: rest) a).
  change (last (b :: c :: rest) a') with (last (c :: rest) a').
  apply IH.
Qed.

Lemma nth_last (a : A) (rest : list A) :
  nth (List.length rest) (a :: rest) d = last (a :: rest) a.
Proof.
  revert a. induction rest as [ | b rest IH]; intros a; [reflexivity | ].
  change (nth (List.length (b :: rest)) (a :: b :: rest) d)
    with (nth (List.length rest) (b :: rest) d).
  rewrite IH. change (last (a :: b :: rest) a) with (last (b :: rest) a).
  apply last_default.
Qed.

(** The index loop of the source adds up the edges of the ring. *)
Lemma ring_loop_ring_sum (f : A -> A -> number) (xs : list A) :
  ring_loop d f xs = ring_sum f xs.
Proof.
  unfold ring_loop. rewrite fold_left_js_add, js_add_0_l.
  destruct xs as [ | a rest]; [reflexivity | ].
  change (ring_sum f (a :: rest))
    with (js_add (path_sum f (a :: rest)) (f (last (a :: rest) a) a)).
  rewrite <- (path_sum_by_index f (a :: rest)).
  change (List.length (a :: rest)) with (S (List.length rest)).
  replace (S (List.length rest) - 1)%nat with (List.length rest) by lia.
  rewrite seq_S, map_app, fold_right_js_add_app.
  cbn [Nat.add map fold_right]. rewrite js_add_0_r.
  f_equal.
  - f_equal. apply map_ext_in. intros i Hi. apply in_seq in Hi.
    f_equal. f_equal. replace (i + 1)%nat with (S i) by lia.
    apply Nat.mod_small. lia.
  - replace ((List.length rest + 1) mod S (List.length rest))%nat with 0%nat.
    + cbn [nth]. f_equal. apply nth_last.
    + replace (List.length rest + 1)%nat with (S (List.length rest)) by lia.
      now rewrite Nat.Div0.mod_same.
Qed.

End RingLoop.

Section RingSum.

Variable A : Type.

Lemma path_sum_snoc (f : A -> A -> number) (b : A) (t : list A) (e : A) :
  path_sum f ((b :: t) ++ [e])
  = js_add (path_sum f (b :: t)) (f (last (b :: t) b) e).
Proof.
  revert b. induction t as [ | c t IH]; intros b.
  - cbn [app path_sum last]. now rewrite js_add_0_l, js_add_0_r.
  - change (path_sum f ((b :: c :: t) ++ [e]))
      with (js_add (f b c) (path_sum f ((c :: t) ++ [e]))).
    rewrite IH.
    change (path_sum f (b :: c :: t))
      with (js_add (f b c) (path_sum f (c :: t))).
    change (last (b :: c :: t) b) with (last (c :: t) b).
    rewrite (last_default c t b c). now rewrite js_add_assoc.
Qed.

(** Moving the first vertex to the end keeps the same edges. *)
Lemma ring_sum_rot1 (f : A -> A -> number) (a : A) (t : list A) :
  ring_sum f (t ++ [a]) = ring_sum f (a :: t).
Proof.
  destruct t as [ | b t]; [reflexivity | ].
  change (ring_sum f ((b :: t) ++ [a]))
    with (js_add (path_sum f ((b :: t) ++ [a]))
                 (f (last ((b :: t) ++ [a]) b) b)).
  rewrite last_last, path_sum_snoc.
  change (ring_sum f (a :: b :: t))
    with (js_add (js_add (f a b) (path_sum f (b :: t)))
                 (f (last (b :: t) a) a)).
  rewrite (last_default b t a b).
  rewrite (js_add_comm (f a b)). rewrite <- !js_add_assoc. f_equal.
  apply js_add_comm.
Qed.

Lemma ring_sum_rotate (f : A -> A -> number) (l1 l2 : list A) :
  ring_sum f (l2 ++ l1) = ring_sum f (l1 ++ l2).
Proof.
  revert l2. induction l1 as [ | a l1 IH]; intros l2.
  - now rewrite app_nil_r.
  - change (ring_sum f ((a :: l1) ++ l2)) with (ring_sum f (a :: (l1 ++ l2))).
    rewrite <- ring_sum_rot1, <- app_assoc, <- IH, <- app_assoc.
    reflexivity.
Qed.

End RingSum.

(** ** Rings of idealised numbers: rotation

    Over [number] addition is associative, and the sum over a ring does not
    depend on the vertex the ring starts at.  Over doubles it does; see the
    binary64 sections below. *)

Lemma length_rotate (A : Type) (k : nat) (xs : list A) :
  List.length (rotate k xs) = List.length xs.
Proof.
  unfold rotate. rewrite length_app, Nat.add_comm, <- length_app.
  now rewrite firstn_skipn.
Qed.

Lemma ring_sum_rotate_k (A : Type) (f : A -> A -> number) (k : nat)
    (xs : list A) :
  ring_sum f (rotate k xs) = ring_sum f xs.
Proof.
  unfold rotate. rewrite ring_sum_rotate. now rewrite firstn_skipn.
Qed.

Lemma map_rotate (A B : Type) (g : A -> B) (k : nat) (xs : list A) :
  map g (rotate k xs) = rotate k (map g xs).
Proof.
  unfold rotate. now rewrite map_app, skipn_map, firstn_map.
Qed.

Lemma perimeterKm_rotate (k : nat) (points : list LatLng) :
  perimeterKm (rotate k points) = perimeterKm points.
Proof.
  unfold perimeterKm. rewrite length_rotate, !ring_loop_ring_sum.
  now rewrite ring_sum_rotate_k.
Qed.

Lemma areaKm2_rotate (k : nat) (points : list LatLng) :
  areaKm2 (rotate k points) = areaKm2 points.
Proof.
  unfold areaKm2. rewrite length_rotate, !ring_loop_ring_sum.
  now rewrite map_rotate, ring_sum_rotate_k.
Qed.

(** ** Rings of idealised numbers: repeated vertices *)

Lemma project_off_pole (a : LatLng) :
  off_pole a -> exists px py, project a = mkXY (Num px) (Num py).
Proof.
  destruct a as [[la | ] [lo | ]]; cbn [off_pole lat lng]; intros H;
    try contradiction.
  pose proof PI_RGT_0 as Hpi.
  assert (Hq : 0 < PI / 4 + la * PI / 360 < PI / 2) by (split; nra).
  assert (Hcos : cos (PI / 4 + la * PI / 360) <> 0).
  { apply Rgt_not_eq, cos_gt_0; lra. }
  assert (Htan : 0 < tan (PI / 4 + la * PI / 360)) by (apply tan_gt_0; lra).
  unfold project, Math_PI. cbn [lat lng js_mul lift2].
  rewrite !js_div_Num by lra. cbn [js_add lift2 Math_tan].
  destruct (Req_dec_T (cos (PI / 4 + la * PI / 360)) 0) as [E | _];
    [contradiction | ].
  cbn [Math_log].
  destruct (Rlt_dec 0 (tan (PI / 4 + la * PI / 360))) as [_ | N];
    [ | contradiction].
  cbn [js_mul lift2]. eauto.
Qed.

Lemma cross_self (a : LatLng) :
  off_pole a -> cross (project a) (project a) = Num 0.
Proof.
  intros H. destruct (project_off_pole a H) as (px & py & ->).
  unfold cross. cbn. f_equal. lra.
Qed.

Lemma cross_there_and_back (a b : LatLng) :
  off_pole a -> off_pole b ->
  js_add (cross (project a) (project b)) (cross (project b) (project a))
  = Num 0.
Proof.
  intros Ha Hb.
  destruct (project_off_pole a Ha) as (ax & ay & ->).
  destruct (project_off_pole b Hb) as (bx & by' & ->).
  unfold cross. cbn. f_equal. lra.
Qed.

Lemma distanceKm_self (a : LatLng) :
  finite_point a -> distanceKm a a = Num 0.
Proof.
  intros (la & lo & ->). rewrite distanceKm_Num. f_equal.
  apply dist_zero. unfold hav.
  replace (rad (la - la) / 2) with 0 by (unfold rad; lra).
  replace (rad (lo - lo) / 2) with 0 by (unfold rad; lra).
  rewrite sin_0. ring.
Qed.

(** An edge from a vertex to itself, of weight zero, can be left out of the
    ring. *)
Lemma ring_sum_duplicate (A : Type) (f : A -> A -> number) (a : A)
    (l1 l2 : list A) :
  f a a = Num 0 ->
  ring_sum f (l1 ++ a :: a :: l2) = ring_sum f (l1 ++ a :: l2).
Proof.
  intros Hzero.
  rewrite <- (ring_sum_rotate f l1 (a :: a :: l2)).
  rewrite <- (ring_sum_rotate f l1 (a :: l2)).
  cbn [app]. set (rest := l2 ++ l1).
  change (ring_sum f (a :: a :: rest))
    with (js_add (js_add (f a a) (path_sum f (a :: rest)))
                 (f (last (a :: rest) a) a)).
  now rewrite Hzero, js_add_0_l.
Qed.

Lemma perimeterKm_duplicate (a : LatLng) (l1 l2 : list LatLng) :
  finite_point a ->
  perimeterKm (l1 ++ a :: a :: l2) = perimeterKm (l1 ++ a :: l2).
Proof.
  intros Hfin. pose proof (distanceKm_self Hfin) as Hzero.
  unfold perimeterKm. rewrite !ring_loop_ring_sum.
  rewrite (ring_sum_duplicate distanceKm a l1 l2 Hzero).
  rewrite !length_app. cbn [List.length].
  destruct (List.length l1 + S (List.length l2) <? 2)%nat eqn:E.
  - apply Nat.ltb_lt in E.
    assert (E1 : l1 = []) by (destruct l1; [reflexivity | cbn in E; lia]).
    assert (E2 : l2 = []) by (destruct l2; [reflexivity | cbn in E; lia]).
    subst l1 l2. cbn [app List.length Nat.add Nat.ltb Nat.leb].
    cbn [ring_sum path_sum last]. now rewrite Hzero, js_add_0_l.
  - apply Nat.ltb_ge in E.
    assert (E' : (List.length l1 + S (S (List.length l2)) <? 2)%nat = false)
      by (apply Nat.ltb_ge; lia).
    now rewrite E'.
Qed.

Lemma areaKm2_duplicate (a : LatLng) (l1 l2 : list LatLng) :
  Forall off_pole (l1 ++ a :: l2) ->
  areaKm2 (l1 ++ a :: a :: l2) = areaKm2 (l1 ++ a :: l2).
Proof.
  intros Hall.
  assert (Ha : off_pole a).
  { rewrite Forall_forall in Hall. apply Hall, in_elt. }
  pose proof (cross_self a Ha) as Hzero.
  unfold areaKm2. rewrite !ring_loop_ring_sum, !map_app. cbn [map].
  rewrite (ring_sum_duplicate cross (project a) (map project l1)
             (map project l2) Hzero).
  rewrite !length_app. cbn [List.length].
  destruct (List.length l1 + S (List.length l2) <? 3)%nat eqn:E.
  - destruct (List.length l1 + S (S (List.length l2)) <? 3)%nat eqn:E';
      [reflexivity | ].
    apply Nat.ltb_lt in E. apply Nat.ltb_ge in E'.
    assert (Hzero2 :
      ring_sum cross (map project l1 ++ project a :: map project l2) = Num 0).
    { rewrite Forall_forall in Hall.
      destruct l1 as [ | b [ | c l1]], l2 as [ | d [ | e l2]];
        cbn [List.length] in E, E'; try lia.
      - cbn [map app ring_sum path_sum last].
        rewrite js_add_0_r. apply cross_there_and_back; [exact Ha | ].
        apply Hall. cbn. tauto.
      - cbn [map app ring_sum path_sum last].
        rewrite js_add_0_r. apply cross_there_and_back; [ | exact Ha].
        apply Hall. cbn. tauto. }
    rewrite Hzero2. cbn [Math_abs lift1]. rewrite !js_div_Num by lra.
    f_equal. rewrite Rabs_R0. lra.
  - apply Nat.ltb_ge in E.
    assert (E' : (List.length l1 + S (S (List.length l2)) <? 3)%nat = false)
      by (apply Nat.ltb_ge; lia).
    now rewrite E'.
Qed.

(** ** Binary64: rounding to nearest

    [SpecFloat] rounds a mantissa and an exponent to a double in two shifts.
    The lemmas bound the result, so that a product or a quotient of numbers
    that are small enough is finite, and show that rounding commutes with
    negation. *)

Lemma iter_pos_invariant (A : Type) (f : A -> A) (Inv : A -> Prop) :
  (forall a, Inv a -> Inv (f a)) ->
  forall p a, Inv a -> Inv (SpecFloat.iter_pos f p a).
Proof. intros Hf. induction p as [p IH | p IH | ]; intros a Ha; cbn; auto. Qed.

Lemma shr_1_bound (B : Z) (mrs : shr_record) :
  (0 <= shr_m mrs <= B)%Z -> (0 <= shr_m (shr_1 mrs) <= B)%Z.
Proof.
  destruct mrs as [m r s]. cbn [shr_m shr_1].
  destruct m as [ | [p | p | ] | [p | p | ]]; cbn [shr_m]; lia.
Qed.

Lemma digits2_pos_lower (p : positive) :
  (2 ^ (Zpos (digits2_pos p) - 1) <= Zpos p)%Z.
Proof.
  induction p as [p IH | p IH | ]; cbn [digits2_pos];
    [rewrite Pos2Z.inj_succ | rewrite Pos2Z.inj_succ | cbn; lia];
    replace (Z.succ (Zpos (digits2_pos p)) - 1)%Z
      with (Z.succ (Zpos (digits2_pos p) - 1))%Z by lia;
    rewrite Z.pow_succ_r by lia; lia.
Qed.

Lemma Zdigits2_le (m k : Z) :
  (0 <= k)%Z -> (0 <= m < 2 ^ k)%Z -> (Zdigits2 m <= k)%Z.
Proof.
  intros Hk [Hm Hlt]. destruct m as [ | p | p]; cbn [Zdigits2]; [lia | | lia].
  destruct (Z_le_gt_dec (Zpos (digits2_pos p)) k) as [H | H]; [exact H | ].
  exfalso. pose proof (digits2_pos_lower p) as Hlow.
  assert (2 ^ k <= 2 ^ (Zpos (digits2_pos p) - 1))%Z
    by (apply Z.pow_le_mono_r; lia).
  lia.
Qed.

Lemma shr_m_of_loc (m : Z) (l : location) : shr_m (shr_record_of_loc m l) = m.
Proof. destruct l as [ | [ | | ]]; reflexivity. Qed.

Lemma shr_fexp_bound (m e : Z) (l : location) (k : Z) :
  (0 <= k)%Z -> (0 <= m < 2 ^ k)%Z ->
  (0 <= shr_m (fst (shr_fexp prec emax m e l)) <= m)%Z /\
  (snd (shr_fexp prec emax m e l) <= Z.max e (fexp prec emax (k + e)))%Z.
Proof.
  intros Hk Hm. pose proof (Zdigits2_le Hk Hm) as Hd.
  unfold shr_fexp, shr.
  destruct (fexp prec emax (Zdigits2 m + e) - e)%Z as [ | p | p] eqn:En;
    cbn [fst snd]; rewrite ?shr_m_of_loc; try (split; lia).
  split.
  - apply (iter_pos_invariant shr_1 (fun mrs => (0 <= shr_m mrs <= m)%Z)).
    + intros a. apply shr_1_bound.
    + rewrite shr_m_of_loc. lia.
  - revert En. unfold fexp, emin, prec, emax.
    change IntDef.Z.max with Z.max. lia.
Qed.

Lemma round_nearest_even_bound (m : Z) (l : location) :
  (0 <= m)%Z -> (0 <= round_nearest_even m l <= m + 1)%Z.
Proof.
  intros Hm. destruct l as [ | [ | | ]]; cbn [round_nearest_even]; try lia.
  destruct (Z.even m); lia.
Qed.

(** A rounded mantissa of at most [k] binary digits, at an exponent far
    enough below the largest one, gives a zero or a finite number. *)
Lemma binary_round_aux_finite (s : bool) (m e : Z) (l : location) (k : Z) :
  (0 <= k)%Z -> (0 <= m < 2 ^ k)%Z -> (Z.max e (-1074) + 2 * k <= 971)%Z ->
  binary_round_aux prec emax s m e l = S754_zero s \/
  exists m' e',
    binary_round_aux prec emax s m e l = S754_finite s m' e' /\
    (e' <= Z.max e (-1074) + 2 * k)%Z.
Proof.
  intros Hk Hm He. unfold binary_round_aux.
  destruct (shr_fexp_bound e l Hk Hm) as [Hm1 He1].
  destruct (shr_fexp prec emax m e l) as [mrs1 e1]. cbn [fst snd] in *.
  pose proof (round_nearest_even_bound (loc_of_shr_record mrs1) (proj1 Hm1))
    as Hm2.
  set (m2 := round_nearest_even (shr_m mrs1) (loc_of_shr_record mrs1)) in *.
  assert (Hk2 : (0 <= m2 < 2 ^ (k + 1))%Z).
  { rewrite Z.pow_add_r by lia. lia. }
  destruct (@shr_fexp_bound m2 e1 loc_Exact (k + 1)%Z ltac:(lia) Hk2)
    as [Hm3 He3].
  destruct (shr_fexp prec emax m2 e1 loc_Exact) as [mrs2 e2].
  cbn [fst snd] in *.
  destruct (shr_m mrs2) as [ | p | p]; [now left | | lia].
  right. exists p, e2.
  assert (Hbound : (e2 <= Z.max e (-1074) + 2 * k)%Z).
  { revert He1 He3. unfold fexp, emin, prec, emax.
    change IntDef.Z.max with Z.max. lia. }
  assert (Hle : (e2 <=? emax - prec)%Z = true).
  { apply Z.leb_le. unfold prec, emax. lia. }
  rewrite Hle. now split.
Qed.

Lemma binary_round_aux_opp (s : bool) (m e : Z) (l : location) :
  binary_round_aux prec emax (negb s) m e l
  = SFopp (binary_round_aux prec emax s m e l).
Proof.
  unfold binary_round_aux.
  destruct (shr_fexp prec emax m e l) as [mrs1 e1].
  destruct (shr_fexp prec emax _ e1 loc_Exact) as [mrs2 e2].
  destruct (shr_m mrs2); try reflexivity.
  destruct (e2 <=? emax - prec)%Z; reflexivity.
Qed.

(** ** Binary64: signs, bounds and special values *)

Section Binary64Arithmetic.

Import Binary64.
Local Open Scope float_scope.

Lemma digits2_pos_upper (p : positive) :
  (Zpos p < 2 ^ Zpos (digits2_pos p))%Z.
Proof.
  induction p as [p IH | p IH | ]; cbn [digits2_pos];
    [rewrite Pos2Z.inj_succ, Z.pow_succ_r by lia; lia
    | rewrite Pos2Z.inj_succ, Z.pow_succ_r by lia; lia
    | cbn; lia].
Qed.

Lemma valid_mantissa (s : bool) (m : positive) (e : Z) :
  valid_binary (S754_finite s m e) = true -> (Zpos m < 2 ^ 53)%Z.
Proof.
  cbn [SpecFloat.valid_binary]. unfold bounded, canonical_mantissa.
  intros H. apply andb_true_iff in H as [H _]. apply Z.eqb_eq in H.
  revert H. unfold fexp, emin, prec, emax. change IntDef.Z.max with Z.max.
  intros H. pose proof (digits2_pos_upper m) as Hu.
  assert (2 ^ Zpos (digits2_pos m) <= 2 ^ 53)%Z
    by (apply Z.pow_le_mono_r; lia).
  lia.
Qed.

Lemma small_weaken (B B' : Z) (x : float) :
  (B <= B')%Z -> small B x -> small B' x.
Proof.
  unfold small. destruct (Prim2SF x); cbn [SFsmall]; try tauto. lia.
Qed.

Lemma small_finite (B : Z) (x : float) : small B x -> is_finite x = true.
Proof.
  unfold small, is_finite, is_nan, is_infinity.
  rewrite !FloatAxioms.eqb_spec, FloatAxioms.abs_spec.
  change (Prim2SF infinity) with (S754_infinity false).
  destruct (Prim2SF x) as [s | s | | s m e]; cbn [SFsmall]; try tauto;
    intros _; unfold SFeqb; cbn [SFabs SFcompare]; destruct s;
    rewrite ?Z.compare_refl, ?Pos.compare_cont_refl, ?Pos.compare_refl;
    reflexivity.
Qed.

Lemma finite_small (x : float) : is_finite x = true -> small 971 x.
Proof.
  unfold small, is_finite, is_nan, is_infinity.
  rewrite !FloatAxioms.eqb_spec, FloatAxioms.abs_spec.
  change (Prim2SF infinity) with (S754_infinity false).
  pose proof (FloatAxioms.Prim2SF_valid x) as Hv.
  destruct (Prim2SF x) as [s | s | | s m e]; cbn [SFsmall].
  - tauto.
  - destruct s; unfold SFeqb; cbn; discriminate.
  - unfold SFeqb; cbn; discriminate.
  - intros _. cbn [SpecFloat.valid_binary] in Hv. unfold bounded in Hv.
    apply andb_true_iff in Hv as [_ Hv]. apply Z.leb_le in Hv.
    revert Hv. unfold prec, emax. lia.
Qed.

Lemma mul_small (B1 B2 : Z) (x y : float) :
  small B1 x -> small B2 y -> (Z.max (B1 + B2) (-1074) + 212 <= 971)%Z ->
  small (Z.max (B1 + B2) (-1074) + 212) (x * y).
Proof.
  unfold small. rewrite FloatAxioms.mul_spec. unfold SF64mul.
  pose proof (FloatAxioms.Prim2SF_valid x) as Hx. pose proof (FloatAxioms.Prim2SF_valid y) as Hy.
  destruct (Prim2SF x) as [sx | sx | | sx mx ex];
    destruct (Prim2SF y) as [sy | sy | | sy my ey];
    cbn [SFsmall SFmul]; try tauto.
  intros H1 H2 HB.
  pose proof (valid_mantissa _ _ _ Hx) as Hmx.
  pose proof (valid_mantissa _ _ _ Hy) as Hmy.
  assert (Hm : (0 <= Zpos (mx * my) < 2 ^ 106)%Z).
  { rewrite Pos2Z.inj_mul. change (2 ^ 106)%Z with (2 ^ 53 * 2 ^ 53)%Z. nia. }
  destruct (@binary_round_aux_finite (xorb sx sy) (Zpos (mx * my))
              (ex + ey)%Z loc_Exact 106 ltac:(lia) Hm ltac:(lia))
    as [-> | (m' & e' & -> & He')]; cbn [SFsmall]; [exact I | lia].
Qed.

(** *** Signs *)

Lemma binary_round_opp (s : bool) (m : positive) (e : Z) :
  binary_round prec emax (negb s) m e = SFopp (binary_round prec emax s m e).
Proof.
  unfold binary_round. destruct (shl_align _ _ _) as [mz ez].
  apply binary_round_aux_opp.
Qed.

Lemma SFopp_involutive (f : spec_float) : SFopp (SFopp f) = f.
Proof. destruct f as [s | s | | s m e]; cbn; now rewrite ?negb_involutive. Qed.

Lemma opp_involutive (x : float) : - - x = x.
Proof. apply FloatAxioms.Prim2SF_inj. now rewrite !FloatAxioms.opp_spec, SFopp_involutive. Qed.

Lemma SFmul_comm (f g : spec_float) :
  SFmul prec emax f g = SFmul prec emax g f.
Proof.
  destruct f as [s | s | | s m e], g as [s' | s' | | s' m' e']; cbn [SFmul];
    rewrite ?(xorb_comm s s'); try reflexivity.
  now rewrite Pos.mul_comm, Z.add_comm.
Qed.

Lemma mul_comm (x y : float) : x * y = y * x.
Proof. apply FloatAxioms.Prim2SF_inj. rewrite !FloatAxioms.mul_spec. apply SFmul_comm. Qed.

Lemma SFmul_opp_l (f g : spec_float) :
  SFmul prec emax (SFopp f) g = SFopp (SFmul prec emax f g).
Proof.
  destruct f as [s | s | | s m e], g as [s' | s' | | s' m' e'];
    cbn [SFmul SFopp]; rewrite <- ?negb_xorb_l; try reflexivity.
  apply binary_round_aux_opp.
Qed.

Lemma mul_opp_l (x y : float) : (- x) * y = - (x * y).
Proof.
  apply FloatAxioms.Prim2SF_inj. rewrite !FloatAxioms.mul_spec, !FloatAxioms.opp_spec, FloatAxioms.mul_spec.
  apply SFmul_opp_l.
Qed.

Lemma mul_opp_r (x y : float) : x * (- y) = - (x * y).
Proof. now rewrite mul_comm, mul_opp_l, mul_comm. Qed.

Lemma mul_opp_opp (x y : float) : (- x) * (- y) = x * y.
Proof. now rewrite mul_opp_l, mul_opp_r, opp_involutive. Qed.

Lemma SFdiv_opp_l (f g : spec_float) :
  SFdiv prec emax (SFopp f) g = SFopp (SFdiv prec emax f g).
Proof.
  destruct f as [s | s | | s m e], g as [s' | s' | | s' m' e'];
    cbn [SFdiv SFopp]; rewrite <- ?negb_xorb_l; try reflexivity.
  destruct (SFdiv_core_binary prec emax (Zpos m) e (Zpos m') e')
    as [[mz ez] lz].
  apply binary_round_aux_opp.
Qed.

Lemma div_opp_l (x y : float) : (- x) / y = - (x / y).
Proof.
  apply FloatAxioms.Prim2SF_inj. rewrite !FloatAxioms.div_spec, !FloatAxioms.opp_spec, FloatAxioms.div_spec.
  apply SFdiv_opp_l.
Qed.

Lemma binary_normalize_opp (m e : Z) :
  m <> 0%Z ->
  binary_normalize prec emax (- m) e false =
  SFopp (binary_normalize prec emax m e false).
Proof.
  destruct m as [ | p | p]; intros Hm; [easy | | ]; cbn [Z.opp binary_normalize].
  - apply (binary_round_opp false).
  - rewrite (binary_round_opp false), SFopp_involutive. reflexivity.
Qed.

(** Subtraction the other way round gives the negation, unless both
    differences are [+0]. *)
Lemma SFsub_swap (f g : spec_float) :
  SFsub prec emax g f = SFopp (SFsub prec emax f g) \/
  (SFsub prec emax f g = S754_zero false /\
   SFsub prec emax g f = S754_zero false).
Proof.
  destruct f as [s | s | | s m e], g as [s' | s' | | s' m' e'];
    cbn [SFsub SFopp];
    try (left; reflexivity);
    try (destruct s, s'; cbn; tauto);
    try (left; now rewrite negb_involutive).
  rewrite Z.min_comm.
  set (a := cond_Zopp s (Zpos (fst (shl_align m e (Z.min e e'))))).
  set (b := cond_Zopp s' (Zpos (fst (shl_align m' e' (Z.min e e'))))).
  destruct (Z.eq_dec (a - b) 0) as [H0 | Hne].
  - right. replace (b - a)%Z with 0%Z by lia. rewrite H0. now split.
  - left. replace (b - a)%Z with (- (a - b))%Z by lia.
    now apply binary_normalize_opp.
Qed.

Lemma sub_swap (x y : float) :
  y - x = - (x - y) \/ (x - y = 0 /\ y - x = 0).
Proof.
  destruct (SFsub_swap (Prim2SF x) (Prim2SF y)) as [H | [H1 H2]].
  - left. apply FloatAxioms.Prim2SF_inj. now rewrite FloatAxioms.opp_spec, !FloatAxioms.sub_spec.
  - right. split; apply FloatAxioms.Prim2SF_inj; rewrite FloatAxioms.sub_spec; assumption.
Qed.

(** *** Quotients and bounds *)

Lemma SFdiv_core_binary_bound (m1 : positive) (e1 : Z) (m2 : positive)
    (e2 : Z) :
  (Zpos m1 < 2 ^ 53)%Z -> (Zpos m2 < 2 ^ 53)%Z ->
  let '(q, e', _) := SFdiv_core_binary prec emax (Zpos m1) e1 (Zpos m2) e2 in
  (0 <= q < 2 ^ 159)%Z /\ (e' <= e1 - e2)%Z.
Proof.
  intros Hm Hm2. unfold SFdiv_core_binary.
  set (e' := Z.min _ _).
  set (s := (e1 - e2 - e')%Z).
  set (m' := match s with
             | 0%Z => Zpos m1
             | Zpos _ => Z.shiftl (Zpos m1) s
             | Zneg _ => 0%Z
             end).
  assert (He' : (e' <= e1 - e2)%Z) by (unfold e'; lia).
  assert (Hs : (0 <= s <= 106)%Z).
  { unfold s, e', fexp, emin, prec, emax. change IntDef.Z.max with Z.max.
    assert (1 <= Zdigits2 (Zpos m1))%Z by (cbn; lia).
    assert (Zdigits2 (Zpos m2) <= 53)%Z; [ | lia].
    cbn [Zdigits2]. pose proof (digits2_pos_lower m2) as Hl.
    apply Z.lt_succ_r, Z.lt_pred_lt_succ.
    apply (Z.pow_lt_mono_r_iff 2); lia. }
  assert (Hm' : (0 <= m' < 2 ^ 159)%Z).
  { assert (Zpos m1 * 2 ^ s < 2 ^ 159)%Z.
    { assert (2 ^ s <= 2 ^ 106)%Z by (apply Z.pow_le_mono_r; lia).
      change (2 ^ 159)%Z with (2 ^ 53 * 2 ^ 106)%Z. nia. }
    unfold m'. destruct s as [ | p | p] eqn:Es; try lia.
    rewrite Z.shiftl_mul_pow2 by lia. lia. }
  pose proof (Z_div_mod m' (Zpos m2) ltac:(lia)) as Hd.
  destruct (Z.div_eucl m' (Zpos m2)) as [q r].
  split; [ | exact He'].
  destruct Hd as [Hd Hr]. nia.
Qed.

Lemma div_small (B : Z) (x y : float) (sy : bool) (my : positive) (ey : Z) :
  Prim2SF y = S754_finite sy my ey ->
  small B x -> (Z.max (B - ey) (-1074) + 318 <= 971)%Z ->
  small (Z.max (B - ey) (-1074) + 318) (x / y).
Proof.
  unfold small. rewrite FloatAxioms.div_spec. unfold SF64div.
  pose proof (FloatAxioms.Prim2SF_valid x) as Hx. pose proof (FloatAxioms.Prim2SF_valid y) as Hy.
  intros Ey. rewrite Ey in *.
  destruct (Prim2SF x) as [sx | sx | | sx mx ex]; cbn [SFsmall SFdiv];
    try tauto.
  intros H1 HB.
  pose proof (valid_mantissa _ _ _ Hx) as Hmx.
  pose proof (valid_mantissa _ _ _ Hy) as Hmy.
  pose proof (@SFdiv_core_binary_bound mx ex my ey Hmx Hmy) as Hq.
  destruct (SFdiv_core_binary prec emax (Zpos mx) ex (Zpos my) ey)
    as [[q e'] l].
  destruct Hq as [Hq He'].
  destruct (@binary_round_aux_finite (xorb sx sy) q e' l 159 ltac:(lia) Hq
              ltac:(lia))
    as [-> | (m' & e'' & -> & He'')]; cbn [SFsmall]; [exact I | lia].
Qed.

(** A number between [-c] and [c] is zero or has at most the exponent of
    [c]. *)
Lemma between_small (x : float) (mc : positive) (ec : Z) :
  SFleb (S754_finite true mc ec) (Prim2SF x) = true ->
  SFleb (Prim2SF x) (S754_finite false mc ec) = true ->
  small ec x.
Proof.
  unfold small, SFleb.
  destruct (Prim2SF x) as [s | s | | s m e]; cbn [SFcompare SFsmall];
    try destruct s; try discriminate; try tauto.
  - intros H _. revert H. destruct (Z.compare_spec ec e); try discriminate;
      intros _; lia.
  - intros _. destruct (Z.compare_spec e ec); try discriminate;
      intros _; lia.
Qed.

(** *** Zeros, negative numbers and NaN *)

Lemma SFsub_diag (f : spec_float) :
  SFsmall 971 f -> SFsub prec emax f f = S754_zero false.
Proof.
  destruct f as [s | s | | s m e]; cbn [SFsmall SFsub]; try tauto;
    intros _.
  - now destruct s.
  - rewrite Z.min_id, Z.sub_diag. reflexivity.
Qed.

Lemma sub_diag (x : float) : is_finite x = true -> x - x = 0.
Proof.
  intros H. apply FloatAxioms.Prim2SF_inj. rewrite FloatAxioms.sub_spec.
  apply SFsub_diag. now apply finite_small.
Qed.

Lemma mul_self_nonnegative (x : float) :
  small (-52) x -> nonnegative (x * x).
Proof.
  unfold small, nonnegative. rewrite FloatAxioms.mul_spec. unfold SF64mul.
  pose proof (FloatAxioms.Prim2SF_valid x) as Hx.
  destruct (Prim2SF x) as [sx | sx | | sx mx ex]; cbn [SFsmall SFmul];
    try tauto; rewrite xorb_nilpotent; [easy | ].
  intros H1.
  pose proof (valid_mantissa _ _ _ Hx) as Hmx.
  assert (Hm : (0 <= Zpos (mx * mx) < 2 ^ 106)%Z).
  { rewrite Pos2Z.inj_mul. change (2 ^ 106)%Z with (2 ^ 53 * 2 ^ 53)%Z. nia. }
  destruct (@binary_round_aux_finite false (Zpos (mx * mx))
              (ex + ex)%Z loc_Exact 106 ltac:(lia) Hm ltac:(lia))
    as [-> | (m' & e' & -> & He')]; exact I.
Qed.

Lemma nonnegative_mul_zero (x : float) : nonnegative x -> x * 0 = 0.
Proof.
  unfold nonnegative. intros H. apply FloatAxioms.Prim2SF_inj. rewrite FloatAxioms.mul_spec.
  change (Prim2SF 0) with (S754_zero false).
  destruct (Prim2SF x) as [[ | ] | s | | [ | ] m e]; try tauto; reflexivity.
Qed.

Lemma negative_sqrt (x : float) : (x <? 0) = true -> PrimFloat.sqrt x = nan.
Proof.
  intros H. apply FloatAxioms.Prim2SF_inj. rewrite FloatAxioms.sqrt_spec. revert H.
  rewrite FloatAxioms.ltb_spec. change (Prim2SF 0) with (S754_zero false).
  change (Prim2SF nan) with S754_nan. unfold SFltb.
  destruct (Prim2SF x) as [s | [ | ] | | [ | ] m e]; cbn; try discriminate;
    reflexivity.
Qed.

Lemma mul_nan_r (x : float) : x * nan = nan.
Proof.
  apply FloatAxioms.Prim2SF_inj. rewrite FloatAxioms.mul_spec. change (Prim2SF nan) with S754_nan.
  now destruct (Prim2SF x).
Qed.

End Binary64Arithmetic.

(** ** The terms of a ring loop *)

Section RingTerms.

Variable A : Type.
Variable B : Type.
Variable f : A -> A -> B.

Lemma path_terms_length (a : A) (l : list A) :
  length (path_terms f (a :: l)) = length l.
Proof.
  revert a. induction l as [ | b l IH]; intros a; [reflexivity | ].
  change (S (length (path_terms f (b :: l))) = S (length l)).
  now rewrite IH.
Qed.

Lemma path_terms_app (l1 : list A) (b : A) (l2 : list A) :
  path_terms f (l1 ++ b :: l2) =
  path_terms f (l1 ++ [b]) ++ path_terms f (b :: l2).
Proof.
  induction l1 as [ | a l1 IH]; [reflexivity | ].
  destruct l1 as [ | a' l1]; [reflexivity | ].
  change (f a a' :: path_terms f ((a' :: l1) ++ b :: l2) =
          (f a a' :: path_terms f ((a' :: l1) ++ [b])) ++
          path_terms f (b :: l2)).
  now rewrite IH.
Qed.

Lemma path_terms_snoc (l : list A) (a b : A) :
  path_terms f (l ++ [a; b]) = path_terms f (l ++ [a]) ++ [f a b].
Proof. now rewrite path_terms_app. Qed.

Lemma path_terms_nth (d : A) (e : B) (l : list A) (i : nat) :
  (i + 1 < length l)%nat ->
  nth i (path_terms f l) e = f (nth i l d) (nth (i + 1) l d).
Proof.
  revert i. induction l as [ | a l IH]; intros i Hi; [cbn in Hi; lia | ].
  destruct l as [ | b l]; [cbn in Hi; lia | ].
  destruct i as [ | i]; [reflexivity | ].
  change (nth i (path_terms f (b :: l)) e =
          f (nth i (b :: l) d) (nth (i + 1) (b :: l) d)).
  apply IH. cbn [length] in *. lia.
Qed.

Lemma ring_terms_length (xs : list A) :
  length (ring_terms f xs) = length xs.
Proof.
  destruct xs as [ | a l]; [reflexivity | ].
  unfold ring_terms. rewrite <- app_comm_cons, path_terms_length.
  rewrite length_app. cbn. lia.
Qed.

Lemma ring_terms_nth (d : A) (e : B) (xs : list A) (i : nat) :
  (i < length xs)%nat ->
  nth i (ring_terms f xs) e =
  f (nth i xs d) (nth ((i + 1) mod length xs) xs d).
Proof.
  intros Hi. destruct xs as [ | a l]; [cbn in Hi; lia | ].
  unfold ring_terms.
  rewrite (@path_terms_nth d e) by (rewrite length_app; cbn [length] in *; lia).
  rewrite (app_nth1 (a :: l) [a] d Hi).
  destruct (Nat.eq_dec (i + 1) (length (a :: l))) as [Heq | Hne].
  - rewrite Heq, Nat.Div0.mod_same.
    rewrite app_nth2 by lia. now rewrite Nat.sub_diag.
  - rewrite Nat.mod_small by lia. now rewrite app_nth1 by lia.
Qed.

Lemma ring_terms_by_index (d : A) (xs : list A) :
  ring_terms f xs =
  map (fun i => f (nth i xs d) (nth ((i + 1) mod length xs) xs d))
      (seq 0 (length xs)).
Proof.
  destruct xs as [ | a l]; [reflexivity | ].
  apply (nth_ext _ _ (f a a) (f a a)).
  - now rewrite ring_terms_length, length_map, length_seq.
  - intros i Hi. rewrite ring_terms_length in Hi.
    rewrite (@ring_terms_nth d) by exact Hi.
    rewrite (nth_indep _ (f a a)
               (f (nth 0 (a :: l) d) (nth (1 mod length (a :: l)) (a :: l) d)))
      by now rewrite length_map, length_seq.
    change (f (nth 0 (a :: l) d) (nth (1 mod length (a :: l)) (a :: l) d))
      with ((fun i => f (nth i (a :: l) d)
                        (nth ((i + 1) mod length (a :: l)) (a :: l) d)) 0%nat).
    rewrite map_nth. rewrite seq_nth by exact Hi. reflexivity.
Qed.

Lemma ring_terms_app (l1 l2 : list A) :
  l1 <> [] -> l2 <> [] ->
  exists u v,
    length u = length l1 /\
    ring_terms f (l1 ++ l2) = u ++ v /\ ring_terms f (l2 ++ l1) = v ++ u.
Proof.
  destruct l1 as [ | a t1]; [easy | ]. destruct l2 as [ | b t2]; [easy | ].
  intros _ _.
  exists (path_terms f ((a :: t1) ++ [b])), (path_terms f ((b :: t2) ++ [a])).
  split; [ | split].
  - rewrite <- app_comm_cons, path_terms_length, length_app. cbn. lia.
  - unfold ring_terms. cbn [app].
    change (a :: t1 ++ b :: t2) with ((a :: t1) ++ b :: t2).
    rewrite <- app_assoc. cbn [app].
    change (a :: t1 ++ b :: t2 ++ [a]) with ((a :: t1) ++ b :: (t2 ++ [a])).
    now rewrite path_terms_app.
  - unfold ring_terms. cbn [app].
    change (b :: t2 ++ a :: t1) with ((b :: t2) ++ a :: t1).
    rewrite <- app_assoc. cbn [app].
    change (b :: t2 ++ a :: t1 ++ [b]) with ((b :: t2) ++ a :: (t1 ++ [b])).
    now rewrite path_terms_app.
Qed.

Lemma rotate_all (C : Type) (k : nat) (l : list C) :
  (length l <= k)%nat -> rotate k l = l.
Proof.
  intros Hk. unfold rotate.
  rewrite skipn_all2, firstn_all2 by exact Hk. reflexivity.
Qed.

Lemma rotate_length_app (C : Type) (u v : list C) :
  rotate (length u) (u ++ v) = v ++ u.
Proof.
  unfold rotate.
  rewrite skipn_app, firstn_app, Nat.sub_diag, skipn_all, firstn_all.
  cbn. now rewrite app_nil_r.
Qed.

(** The loop over the ring started [k] places further along adds the same
    terms, started [k] places further along. *)
Lemma ring_terms_rotate (k : nat) (xs : list A) :
  ring_terms f (rotate k xs) = rotate k (ring_terms f xs).
Proof.
  destruct (Nat.le_gt_cases (length xs) k) as [Hk | Hk].
  - rewrite !rotate_all; rewrite ?ring_terms_length; auto.
  - destruct k as [ | k].
    + unfold rotate. cbn. now rewrite !app_nil_r.
    + assert (H1 : firstn (S k) xs <> []).
      { destruct xs; [cbn in Hk; lia | discriminate]. }
      assert (H2 : skipn (S k) xs <> []).
      { intros H. apply (f_equal (@length A)) in H.
        rewrite length_skipn in H. cbn in H. lia. }
      destruct (ring_terms_app H1 H2) as (u & v & Hu & Huv & Hvu).
      rewrite firstn_skipn in Huv.
      unfold rotate at 1. rewrite Hvu, Huv.
      rewrite length_firstn, Nat.min_l in Hu by lia.
      rewrite <- Hu. now rewrite rotate_length_app.
Qed.

End RingTerms.

Section RingTermsReversed.

Variable A : Type.
Variable B : Type.
Variable f : A -> A -> B.

Lemma path_terms_rev (l : list A) :
  path_terms f (rev l) = rev (path_terms (fun a b => f b a) l).
Proof.
  induction l as [ | a l IH]; [reflexivity | ].
  destruct l as [ | b l]; [reflexivity | ].
  change (path_terms (fun a0 b0 => f b0 a0) (a :: b :: l))
    with (f b a :: path_terms (fun a0 b0 => f b0 a0) (b :: l)).
  cbn [rev]. rewrite <- IH. cbn [rev].
  rewrite <- app_assoc. cbn [app]. apply path_terms_snoc.
Qed.

(** The loop over the reversed ring adds the terms of the opposite edges,
    in reverse order, started one place further along. *)
Lemma ring_terms_rev (xs : list A) :
  ring_terms f (rev xs) =
  rotate 1 (rev (ring_terms (fun a b => f b a) xs)).
Proof.
  destruct xs as [ | a t]; [reflexivity | ].
  destruct (exists_last (l := a :: t) ltac:(discriminate)) as (l & z & Hl).
  set (f' := fun a b => f b a).
  assert (HL : ring_terms f (rev (a :: t)) =
               rev (path_terms f' (a :: t)) ++ [f' z a]).
  { rewrite Hl at 1. rewrite rev_unit. unfold ring_terms.
    replace ((z :: rev l) ++ [z]) with (rev (z :: (l ++ [z])))
      by (cbn [rev]; now rewrite rev_unit).
    rewrite path_terms_rev, <- Hl. reflexivity. }
  assert (HR : ring_terms f' (a :: t) = path_terms f' (a :: t) ++ [f' z a]).
  { unfold ring_terms. rewrite Hl, <- app_assoc. cbn [app].
    apply (path_terms_snoc f'). }
  rewrite HL, HR, rev_unit. reflexivity.
Qed.

End RingTermsReversed.

(** ** Distance on binary64 numbers *)

Section Distance.

Import Binary64.
Local Open Scope float_scope.

Variable M : Math.

Lemma toRad_opp (z : float) : toRad (- z) = - toRad z.
Proof. unfold toRad. now rewrite mul_opp_l, div_opp_l. Qed.

(** The sine of the half angle of a difference taken the other way round
    is the same sine, up to its sign. *)
Lemma half_angle_swap (x y : float) :
  odd_sine M ->
  Math_sin M (toRad (y - x) / 2) = - Math_sin M (toRad (x - y) / 2) \/
  Math_sin M (toRad (y - x) / 2) = Math_sin M (toRad (x - y) / 2).
Proof.
  intros Hodd. destruct (sub_swap x y) as [H | [H1 H2]].
  - left. now rewrite H, toRad_opp, div_opp_l, Hodd.
  - right. now rewrite H1, H2.
Qed.

Lemma square_up_to_sign (p s s' : float) :
  s' = - s \/ s' = s -> s' * s' = s * s /\ p * s' * s' = p * s * s.
Proof.
  intros [-> | ->]; [ | easy]. split.
  - apply mul_opp_opp.
  - now rewrite (mul_opp_r p s), mul_opp_opp.
Qed.

Lemma distanceKm_si_sym (a b : LatLng) :
  odd_sine M -> distanceKm_si M a b = distanceKm_si M b a.
Proof.
  intros Hodd. unfold distanceKm_si. cbv zeta.
  destruct (square_up_to_sign 0 (half_angle_swap (lat b) (lat a) Hodd))
    as [-> _].
  destruct (square_up_to_sign
              (Math_cos M (toRad (lat b)) * Math_cos M (toRad (lat a)))
              (half_angle_swap (lng b) (lng a) Hodd))
    as [_ ->].
  now rewrite (mul_comm (Math_cos M (toRad (lat a)))).
Qed.

Lemma distanceKm_sym (a b : LatLng) :
  odd_sine M -> distanceKm M a b = distanceKm M b a.
Proof. intros Hodd. unfold distanceKm. now rewrite distanceKm_si_sym. Qed.

Lemma valid_small (p : LatLng) :
  valid p -> small (-46) (lat p) /\ small (-45) (lng p).
Proof.
  unfold valid. intros H.
  apply andb_true_iff in H as [Hlat Hlng].
  apply andb_true_iff in Hlat as [H1 H2].
  apply andb_true_iff in Hlng as [H3 H4].
  rewrite FloatAxioms.leb_spec in H1, H2, H3, H4.
  split.
  - exact (@between_small (lat p) 6333186975989760 (-46) H1 H2).
  - exact (@between_small (lng p) 6333186975989760 (-45) H3 H4).
Qed.

Lemma toRad_small (B : Z) (x : float) :
  (B <= -45)%Z -> small B x -> small 479 (toRad x).
Proof.
  intros HB Hx. unfold toRad.
  assert (Hpi : small (-51) Math_PI) by (unfold small; cbn; lia).
  pose proof (@mul_small B (-51) x Math_PI Hx Hpi ltac:(lia)) as Hm.
  assert (E180 : Prim2SF 180 = S754_finite false 6333186975989760 (-45))
    by reflexivity.
  pose proof (@div_small _ _ 180 _ _ _ E180 Hm ltac:(lia)) as Hd.
  revert Hd. apply small_weaken. lia.
Qed.

Lemma cosine_squared_nonnegative (x : float) :
  cosine_in_unit M -> is_finite x = true ->
  nonnegative (Math_cos M x * Math_cos M x).
Proof.
  intros Hcos Hx. apply mul_self_nonnegative.
  specialize (Hcos x Hx). apply andb_true_iff in Hcos as [H1 H2].
  rewrite FloatAxioms.leb_spec in H1, H2.
  exact (@between_small (Math_cos M x) 4503599627370496 (-52) H1 H2).
Qed.

Lemma distanceKm_si_self (a : LatLng) :
  ECMAScript M -> cosine_in_unit M -> valid a -> distanceKm_si M a a = 0.
Proof.
  intros HM Hcos Ha. destruct (valid_small Ha) as [Hlat Hlng].
  unfold distanceKm_si. cbv zeta.
  rewrite !sub_diag by (eapply small_finite; eassumption).
  change (toRad 0 / 2) with 0. rewrite (sin_zero HM).
  rewrite (@nonnegative_mul_zero
             (Math_cos M (toRad (lat a)) * Math_cos M (toRad (lat a)))).
  - reflexivity.
  - apply cosine_squared_nonnegative; [exact Hcos | ].
    apply (@small_finite 479). apply (@toRad_small (-46)); [lia | exact Hlat].
Qed.

Lemma distanceKm_zero_si (a b : LatLng) :
  ECMAScript M -> distanceKm_si M a b = 0 -> distanceKm M a b = 0.
Proof.
  intros HM Hsi. unfold distanceKm. cbv zeta. rewrite Hsi.
  change (Math_sqrt 0) with 0. change (Math_sqrt (1 - 0)) with 1.
  rewrite (atan2_zero HM) by reflexivity. reflexivity.
Qed.

Lemma distanceKm_same_point (a : LatLng) :
  ECMAScript M -> cosine_in_unit M -> valid a -> distanceKm M a a = 0.
Proof.
  intros HM Hcos Ha. apply distanceKm_zero_si; [exact HM | ].
  now apply distanceKm_si_self.
Qed.

Lemma distanceKm_overshoot (a b : LatLng) :
  ECMAScript M -> (1 - distanceKm_si M a b <? 0) = true ->
  distanceKm M a b = nan.
Proof.
  intros HM H. unfold distanceKm. cbv zeta.
  unfold Math_sqrt at 2. rewrite (negative_sqrt H), (atan2_NaN HM).
  reflexivity.
Qed.

End Distance.

(** ** The reference platform follows the standard *)

Section ReferenceLaws.

Import Binary64.
Local Open Scope float_scope.

Lemma Reference_signed_negb (s : bool) (v : float) :
  Reference.signed (negb s) v = - Reference.signed s v.
Proof. destruct s; cbn; [now rewrite opp_involutive | reflexivity]. Qed.

Lemma Reference_odd_sine : odd_sine Reference.math.
Proof.
  intros x. cbn [Math_sin Reference.math]. unfold Reference.sin.
  rewrite FloatAxioms.opp_spec.
  destruct (Prim2SF x) as [s | s | | s m e] eqn:E; cbn [SFopp];
    try reflexivity.
  destruct (Reference.tiny m e); [reflexivity | ].
  apply Reference_signed_negb.
Qed.

Lemma Reference_within_unit (v : float) :
  ((-1 <=? Reference.within_unit v) && (Reference.within_unit v <=? 1))%bool = true.
Proof.
  unfold Reference.within_unit.
  destruct ((-1 <=? v) && (v <=? 1))%bool eqn:E; [exact E | reflexivity].
Qed.

Lemma Reference_cosine_in_unit : cosine_in_unit Reference.math.
Proof.
  intros x Hx. cbn [Math_cos Reference.math]. unfold Reference.cos.
  apply finite_small in Hx. unfold small in Hx.
  destruct (Prim2SF x) as [s | s | | s m e]; cbn [SFsmall] in Hx.
  - reflexivity.
  - contradiction.
  - contradiction.
  - destruct (Reference.tiny m e); [reflexivity | ].
    apply Reference_within_unit.
Qed.

Lemma Reference_ECMAScript : ECMAScript Reference.math.
Proof.
  split.
  - reflexivity.
  - reflexivity.
  - intros x Hx. cbn [Math_atan2 Reference.math]. unfold Reference.atan2.
    change (Prim2SF 0) with (S754_zero false). cbv iota.
    revert Hx. rewrite FloatAxioms.ltb_spec. change (Prim2SF 0) with (S754_zero false).
    unfold SFltb.
    destruct (Prim2SF x) as [s | [ | ] | | [ | ] m e]; cbn;
      try discriminate; reflexivity.
  - intros y. cbn [Math_atan2 Reference.math]. unfold Reference.atan2.
    change (Prim2SF nan) with S754_nan.
    destruct (Prim2SF y); reflexivity.
Qed.

End ReferenceLaws.

(** ** Perimeter and area: the terms that are added *)

Section RingStatistics.

Import Binary64.
Local Open Scope float_scope.

Variable M : Math.

Lemma ring_loop_terms (A : Type) (d : A) (f : A -> A -> float)
    (xs : list A) :
  ring_loop d f xs = float_sum (ring_terms f xs).
Proof.
  unfold ring_loop, float_sum. rewrite (ring_terms_by_index f d).
  generalize (seq 0 (length xs)) as l. generalize 0 as acc.
  intros acc l. revert acc.
  induction l as [ | i l IH]; intros acc; [reflexivity | ].
  cbn [fold_left map]. apply IH.
Qed.

Lemma perimeterKm_terms (points : list LatLng) :
  perimeterKm M points = perimeter_of (edge_lengths M points).
Proof.
  unfold perimeterKm, perimeter_of, edge_lengths.
  now rewrite ring_terms_length, ring_loop_terms.
Qed.

Lemma areaKm2_terms (points : list LatLng) :
  areaKm2 M points = area_of (shoelace_terms M points).
Proof.
  unfold areaKm2, area_of, shoelace_terms. cbv zeta.
  now rewrite ring_terms_length, length_map, ring_loop_terms.
Qed.

Lemma path_terms_Forall2 (A B : Type) (R : B -> B -> Prop)
    (f g : A -> A -> B) (xs : list A) :
  (forall a b, R (f a b) (g a b)) ->
  Forall2 R (path_terms f xs) (path_terms g xs).
Proof.
  intros H. induction xs as [ | a xs IH]; [constructor | ].
  destruct xs as [ | b xs]; [constructor | ].
  change (Forall2 R (f a b :: path_terms f (b :: xs))
                    (g a b :: path_terms g (b :: xs))).
  constructor; [apply H | exact IH].
Qed.

Lemma ring_terms_Forall2 (A B : Type) (R : B -> B -> Prop)
    (f g : A -> A -> B) (xs : list A) :
  (forall a b, R (f a b) (g a b)) ->
  Forall2 R (ring_terms f xs) (ring_terms g xs).
Proof.
  intros H. destruct xs as [ | a xs]; [constructor | ].
  now apply path_terms_Forall2.
Qed.

Lemma ring_terms_ext (A B : Type) (f g : A -> A -> B) (xs : list A) :
  (forall a b, f a b = g a b) -> ring_terms f xs = ring_terms g xs.
Proof.
  intros H. pose proof (@ring_terms_Forall2 A B eq f g xs H) as HF.
  induction HF as [ | u v us vs Huv _ IH]; [reflexivity | ].
  now rewrite Huv, IH.
Qed.

Lemma cross_swap (a b : XY) : opposite (cross b a) (cross a b).
Proof.
  unfold opposite, cross.
  destruct (sub_swap (x a * y b) (x b * y a)) as [H | [H1 H2]]; auto.
Qed.

Lemma edge_lengths_rotate (k : nat) (points : list LatLng) :
  edge_lengths M (rotate k points) = rotate k (edge_lengths M points).
Proof. apply ring_terms_rotate. Qed.

Lemma shoelace_terms_rotate (k : nat) (points : list LatLng) :
  shoelace_terms M (rotate k points) = rotate k (shoelace_terms M points).
Proof.
  unfold shoelace_terms. rewrite map_rotate. apply ring_terms_rotate.
Qed.

Lemma edge_lengths_rev (points : list LatLng) :
  odd_sine M ->
  edge_lengths M (rev points) = rotate 1 (rev (edge_lengths M points)).
Proof.
  intros Hodd. unfold edge_lengths. rewrite ring_terms_rev.
  do 2 f_equal. apply ring_terms_ext. intros a b.
  now apply distanceKm_sym.
Qed.

Lemma shoelace_terms_rev (points : list LatLng) :
  exists terms,
    Forall2 opposite terms (shoelace_terms M points) /\
    shoelace_terms M (rev points) = rotate 1 (rev terms).
Proof.
  exists (ring_terms (fun a b => cross b a) (map (project M) points)).
  split.
  - apply ring_terms_Forall2. intros a b. apply cross_swap.
  - unfold shoelace_terms. rewrite map_rev. apply ring_terms_rev.
Qed.

End RingStatistics.

(** ** Distance, perimeter and area as the code computes them *)

Section Geometry.

Import Binary64.
Local Open Scope float_scope.

(** C5, as the code has it.  On every platform whose [Math] follows
    ECMA-262, with an odd sine and a cosine between -1 and 1, the distance
    between two points of the globe is the same in both directions, bit for
    bit, and the distance from a point to itself is [+0]. *)
Theorem distanceKm_symmetric_and_zero_on_itself (M : Math) (a b : LatLng) :
  ECMAScript M -> odd_sine M -> cosine_in_unit M ->
  valid a -> valid b ->
  distanceKm M a b = distanceKm M b a /\ distanceKm M a a = 0.
Proof.
  intros HM Hodd Hcos Ha _. split.
  - now apply distanceKm_sym.
  - now apply distanceKm_same_point.
Qed.

Lemma distanceKm_symmetric_and_zero_on_itself_witness :
  valid south_west /\ valid north_east /\
  distanceKm Reference.math south_west north_east =
  distanceKm Reference.math north_east south_west /\
  distanceKm Reference.math south_west south_west = 0.
Proof.
  split; [reflexivity | split; [reflexivity | ]].
  apply distanceKm_symmetric_and_zero_on_itself.
  - exact Reference_ECMAScript.
  - exact Reference_odd_sine.
  - exact Reference_cosine_in_unit.
  - reflexivity.
  - reflexivity.
Defined.

Lemma distanceKm_zero_nearby (M : Math) :
  ECMAScript M -> distanceKm M origin nearby = 0.
Proof.
  intros HM. apply distanceKm_zero_si; [exact HM | ].
  unfold distanceKm_si. cbv zeta. cbn [lat lng origin nearby].
  change (toRad (0x1p-1074 - 0) / 2) with 0.
  change (toRad (0 - 0) / 2) with 0.
  change (toRad 0) with 0. change (toRad 0x1p-1074) with 0.
  rewrite (sin_zero HM), (cos_zero HM). reflexivity.
Qed.

(** C5, as the specification words it, fails: two points of the globe that
    differ, [5e-324] degrees of latitude apart, are at distance zero, on the
    reference platform and on every platform that follows ECMA-262: the
    difference is [+0] once in radians.  So are, on the reference platform,
    two points [1e-300] degrees of longitude apart: the square of the sine
    underflows. *)
Lemma distanceKm_zero_between_distinct_points :
  valid origin /\ valid nearby /\ valid east_of_origin /\
  (lat nearby =? lat origin) = false /\
  (lng east_of_origin =? lng origin) = false /\
  distanceKm Reference.math origin nearby = 0 /\
  distanceKm Reference.math origin east_of_origin = 0 /\
  (forall M, ECMAScript M -> distanceKm M origin nearby = 0).
Proof.
  split; [reflexivity | ]. split; [reflexivity | ]. split; [reflexivity | ].
  split; [reflexivity | ]. split; [reflexivity | ].
  split; [apply distanceKm_zero_nearby; exact Reference_ECMAScript | ].
  split; [vm_compute; reflexivity | exact distanceKm_zero_nearby].
Qed.

(** C6, as the code has it.  The perimeter is the left-to-right sum of the
    edge lengths and the area half the magnitude of the left-to-right sum
    of the shoelace terms.  Rotating the vertex list rotates the terms
    that are added; reversing it reverses them, started one place further
    along, with each shoelace term replaced by a term that cancels it. *)
Theorem perimeter_area_add_the_same_terms (M : Math) (k : nat)
    (points : list LatLng) :
  odd_sine M ->
  perimeterKm M points = perimeter_of (edge_lengths M points) /\
  areaKm2 M points = area_of (shoelace_terms M points) /\
  perimeterKm M (rotate k points) =
    perimeter_of (rotate k (edge_lengths M points)) /\
  areaKm2 M (rotate k points) =
    area_of (rotate k (shoelace_terms M points)) /\
  perimeterKm M (rev points) =
    perimeter_of (rotate 1 (rev (edge_lengths M points))) /\
  exists terms,
    Forall2 opposite terms (shoelace_terms M points) /\
    areaKm2 M (rev points) = area_of (rotate 1 (rev terms)).
Proof.
  intros Hodd. repeat split.
  - apply perimeterKm_terms.
  - apply areaKm2_terms.
  - now rewrite perimeterKm_terms, edge_lengths_rotate.
  - now rewrite areaKm2_terms, shoelace_terms_rotate.
  - now rewrite perimeterKm_terms, edge_lengths_rev.
  - destruct (shoelace_terms_rev M points) as (terms & Hopp & Hrev).
    exists terms. split; [exact Hopp | ].
    now rewrite areaKm2_terms, Hrev.
Qed.

Lemma perimeter_area_add_the_same_terms_witness :
  perimeterKm Reference.math triangle =
    perimeter_of (edge_lengths Reference.math triangle) /\
  areaKm2 Reference.math triangle =
    area_of (shoelace_terms Reference.math triangle) /\
  perimeterKm Reference.math (rotate 2 triangle) =
    perimeter_of (rotate 2 (edge_lengths Reference.math triangle)) /\
  areaKm2 Reference.math (rotate 2 triangle) =
    area_of (rotate 2 (shoelace_terms Reference.math triangle)) /\
  perimeterKm Reference.math (rev triangle) =
    perimeter_of (rotate 1 (rev (edge_lengths Reference.math triangle))) /\
  exists terms,
    Forall2 opposite terms (shoelace_terms Reference.math triangle) /\
    areaKm2 Reference.math (rev triangle) = area_of (rotate 1 (rev terms)).
Proof.
  apply perimeter_area_add_the_same_terms. exact Reference_odd_sine.
Defined.

(** C6, as the specification words it, fails: on the reference platform
    the perimeter of the triangle (0,0), (0,1), (1,0) is
    379.6392345610614 km and that of the same triangle started at its
    third vertex 379.63923456106147 km. *)
Lemma perimeterKm_changes_under_rotation :
  perimeterKm Reference.math triangle = 0x1.7ba3a4e04e3b5p+8 /\
  perimeterKm Reference.math (rotate 2 triangle) = 0x1.7ba3a4e04e3b6p+8 /\
  (perimeterKm Reference.math (rotate 2 triangle) =?
   perimeterKm Reference.math triangle) = false.
Proof.
  split; [vm_compute; reflexivity | ].
  split; vm_compute; reflexivity.
Qed.

(** C7.  [distanceKm] does not clamp the haversine term: on every platform
    that follows ECMA-262, when the term exceeds 1 so that [1 - si] is
    negative, the second square root is NaN and so is the distance. *)
Theorem distanceKm_does_not_clamp (M : Math) (a b : LatLng) :
  ECMAScript M ->
  (1 - distanceKm_si M a b <? 0) = true ->
  distanceKm M a b = nan.
Proof. intros HM H. now apply distanceKm_overshoot. Qed.

Lemma distanceKm_does_not_clamp_witness :
  valid south_west /\ valid north_east /\
  distanceKm_si Reference.math south_west north_east = 0x1.0000000000001p+0 /\
  (1 - distanceKm_si Reference.math south_west north_east <? 0) = true /\
  distanceKm Reference.math south_west north_east = nan.
Proof.
  split; [reflexivity | ]. split; [reflexivity | ].
  split; [vm_compute; reflexivity | ].
  split; [vm_compute; reflexivity | ].
  apply distanceKm_does_not_clamp.
  - exact Reference_ECMAScript.
  - vm_compute. reflexivity.
Defined.

End Geometry.

(** ** The drawing tool *)

Lemma LatLng_eta (p : LatLng) : mkLatLng (lat p) (lng p) = p.
Proof. now destruct p. Qed.

Lemma toggleDrawing_enter (s : state) :
  tool_is "polygon" (activeDrawTool s) = false ->
  toggleDrawing s =
  mkState (view s) (searchQuery s) (selectedArea s) true [] []
    (mapCenter s) (zoom s) (Some "polygon"%string)
    (isSearching s) (searchError s) (isGridOn s).
Proof. intros H. unfold toggleDrawing. now rewrite H. Qed.

(** C1, as the code has it.  From a state where the draw tool is not
    active, entering drawing mode empties the confirmed polygon along with
    the buffer; two clicks later the buffer holds the two points, and
    toggling the tool off discards them without touching the confirmed
    polygon, which is still the empty one that entering drawing mode left. *)
Theorem draw_two_points_then_toggle_off (s : state) (p1 p2 : LatLng) :
  tool_is "polygon" (activeDrawTool s) = false ->
  let s1 := toggleDrawing s in
  let s3 := click p2 (click p1 s1) in
  let s4 := toggleDrawing s3 in
  drawnPolygon s1 = [] /\
  drawingPoints s3 = [p1; p2] /\
  drawnPolygon s4 = drawnPolygon s3 /\
  drawnPolygon s4 = [] /\
  drawingPoints s4 = [] /\
  isDrawing s4 = false.
Proof.
  intros H. cbv zeta. rewrite (toggleDrawing_enter s H).
  unfold click. cbn. rewrite !LatLng_eta. repeat split; reflexivity.
Qed.

Lemma draw_two_points_then_toggle_off_witness :
  tool_is "polygon" (activeDrawTool initial_state) = false /\
  drawnPolygon
    (toggleDrawing
       (click (mkLatLng (Num 1) (Num 1))
          (click (mkLatLng (Num 0) (Num 0)) (toggleDrawing initial_state))))
  = [].
Proof.
  split; [reflexivity | ].
  exact (proj1 (proj2 (proj2 (proj2
    (draw_two_points_then_toggle_off initial_state
       (mkLatLng (Num 0) (Num 0)) (mkLatLng (Num 1) (Num 1))
       eq_refl))))).
Defined.

(** C4. When the draw tool is active and the buffer holds at least three
    vertices, toggling the tool off makes the buffer the confirmed polygon,
    empties the buffer and leaves drawing mode. *)
Theorem toggle_off_commits_buffer (s : state) :
  tool_is "polygon" (activeDrawTool s) = true ->
  (3 <= List.length (drawingPoints s))%nat ->
  drawnPolygon (toggleDrawing s) = drawingPoints s /\
  drawingPoints (toggleDrawing s) = [] /\
  isDrawing (toggleDrawing s) = false /\
  activeDrawTool (toggleDrawing s) = None.
Proof.
  intros Htool Hlen. unfold toggleDrawing. rewrite Htool.
  assert (Hlt : (2 <? List.length (drawingPoints s))%nat = true)
    by (apply Nat.ltb_lt; lia).
  rewrite Hlt. repeat split; reflexivity.
Qed.

Lemma toggle_off_commits_buffer_witness :
  tool_is "polygon" (activeDrawTool drawing_triangle) = true /\
  (3 <= List.length (drawingPoints drawing_triangle))%nat /\
  drawnPolygon (toggleDrawing drawing_triangle) = triangle.
Proof.
  assert (Htool : tool_is "polygon" (activeDrawTool drawing_triangle) = true)
    by reflexivity.
  assert (Hlen : (3 <= List.length (drawingPoints drawing_triangle))%nat)
    by (cbn; lia).
  split; [exact Htool | split; [exact Hlen | ]].
  exact (proj1 (toggle_off_commits_buffer drawing_triangle Htool Hlen)).
Defined.

(** C1 as stated fails: with the triangle confirmed, picking the draw tool,
    clicking twice and putting the tool back leaves no confirmed polygon. *)
Lemma toggle_on_discards_confirmed_polygon :
  drawnPolygon triangle_drawn = triangle /\
  tool_is "polygon" (activeDrawTool triangle_drawn) = false /\
  drawnPolygon
    (toggleDrawing
       (click corner_b (click corner_a (toggleDrawing triangle_drawn))))
  <> triangle.
Proof.
  split; [reflexivity | split; [reflexivity | ]].
  cbn. discriminate.
Qed.

(** ** The other transitions of the drawing state *)

(** Switching to the pointer discards the buffer without committing it. *)
Lemma pointer_mode_discards_buffer (s : state) :
  drawingPoints (handlePointerMode s) = [] /\
  drawnPolygon (handlePointerMode s) = drawnPolygon s /\
  isDrawing (handlePointerMode s) = false.
Proof. repeat split; reflexivity. Qed.

(** Clear, home and back all empty the confirmed polygon and the buffer and
    leave drawing mode. *)
Lemma reset_actions_empty_both (s : state) :
  Forall (fun s' => drawnPolygon s' = [] /\ drawingPoints s' = [] /\
                    isDrawing s' = false /\ activeDrawTool s' = None)
         [handleClearAOI s; handleHome s; handleBack s].
Proof. repeat constructor. Qed.

(** A click outside drawing mode changes nothing. *)
Lemma click_outside_drawing (p : LatLng) (s : state) :
  isDrawing s = false -> click p s = s.
Proof. intros H. unfold click. now rewrite H. Qed.

(** The zoom buttons move by one step and stay within the zoom bounds. *)
Lemma zoom_buttons_clamped (s : state) :
  (MIN_ZOOM <= zoom s <= MAX_ZOOM)%Z ->
  zoom (handleZoomIn s) = (if (zoom s =? MAX_ZOOM)%Z then MAX_ZOOM
                           else zoom s + 1)%Z /\
  zoom (handleZoomOut s) = (if (zoom s =? MIN_ZOOM)%Z then MIN_ZOOM
                            else zoom s - 1)%Z.
Proof.
  unfold MIN_ZOOM, MAX_ZOOM. intros H.
  cbn [zoom handleZoomIn handleZoomOut setZoom].
  unfold MIN_ZOOM, MAX_ZOOM. split.
  - destruct (Z.eqb_spec (zoom s) 18); lia.
  - destruct (Z.eqb_spec (zoom s) 2); lia.
Qed.

(** ** The active shape *)

Lemma activeShape_confirmed (s : state) :
  (3 <= List.length (drawnPolygon s))%nat ->
  activeShape s = Some (drawnPolygon s).
Proof.
  intros H. unfold activeShape.
  assert (Hlt : (2 <? List.length (drawnPolygon s))%nat = true)
    by (apply Nat.ltb_lt; lia).
  now rewrite Hlt.
Qed.

Lemma activeShape_buffer (s : state) :
  (List.length (drawnPolygon s) < 3)%nat ->
  (3 <= List.length (drawingPoints s))%nat ->
  activeShape s = Some (drawingPoints s).
Proof.
  intros H1 H2. unfold activeShape.
  assert (Hge : (2 <? List.length (drawnPolygon s))%nat = false)
    by (apply Nat.ltb_ge; lia).
  assert (Hlt : (2 <? List.length (drawingPoints s))%nat = true)
    by (apply Nat.ltb_lt; lia).
  now rewrite Hge, Hlt.
Qed.

Lemma activeShape_none (s : state) :
  (List.length (drawnPolygon s) < 3)%nat ->
  (List.length (drawingPoints s) < 3)%nat ->
  activeShape s = None.
Proof.
  intros H1 H2. unfold activeShape.
  assert (Hge1 : (2 <? List.length (drawnPolygon s))%nat = false)
    by (apply Nat.ltb_ge; lia).
  assert (Hge2 : (2 <? List.length (drawingPoints s))%nat = false)
    by (apply Nat.ltb_ge; lia).
  now rewrite Hge1, Hge2.
Qed.

Lemma activeShape_length (s : state) (shape : list LatLng) :
  activeShape s = Some shape -> (3 <= List.length shape)%nat.
Proof.
  unfold activeShape.
  destruct (2 <? List.length (drawnPolygon s))%nat eqn:E1.
  - intros H. injection H as <-. apply Nat.ltb_lt in E1. lia.
  - destruct (2 <? List.length (drawingPoints s))%nat eqn:E2; [ | discriminate].
    intros H. injection H as <-. apply Nat.ltb_lt in E2. lia.
Qed.

(** The four spread calls of [bbox_center] pass as many arguments as the
    shape has vertices: they all return, or the first one throws. *)
Lemma bbox_center_spread (argument_limit : N) (pts : list LatLng) :
  bbox_center argument_limit pts
  = if (N.of_nat (List.length pts) <=? argument_limit)%N
    then Normal (bbox_midpoint pts) else Throw.
Proof.
  unfold bbox_center, spread. rewrite !length_map.
  destruct (N.of_nat (List.length pts) <=? argument_limit)%N; reflexivity.
Qed.

Lemma bbox_center_fits (argument_limit : N) (pts : list LatLng) :
  fits argument_limit pts ->
  bbox_center argument_limit pts = Normal (bbox_midpoint pts).
Proof.
  unfold fits. intros H. rewrite bbox_center_spread.
  apply N.leb_le in H. now rewrite H.
Qed.

(** What statistics and export do with a shape. *)
Lemma stats_and_export_with_shape (s : state) (shape : list LatLng) :
  activeShape s = Some shape ->
  stats s
  = Some (mkStats (List.length shape) (perimeterKm shape) (areaKm2 shape)) /\
  handleExportGeoJSON s
  = (s, [download "area-of-interest.geojson"
                  (export_document (selectedArea s) shape)]).
Proof.
  intros H. pose proof (activeShape_length s H) as Hlen.
  unfold stats, handleExportGeoJSON. rewrite H.
  assert (E1 : (List.length shape <? 3)%nat = false) by (apply Nat.ltb_ge; lia).
  rewrite E1. split; reflexivity.
Qed.

(** What the three consumers do with a shape. *)
Lemma consumers_with_shape (argument_limit : N) (s : state)
    (shape : list LatLng) :
  activeShape s = Some shape ->
  stats s
  = Some (mkStats (List.length shape) (perimeterKm shape) (areaKm2 shape)) /\
  handleExportGeoJSON s
  = (s, [download "area-of-interest.geojson"
                  (export_document (selectedArea s) shape)]) /\
  handleZoomToShape argument_limit s
  = if (N.of_nat (List.length shape) <=? argument_limit)%N
    then (setZoom 13 (setMapCenter (bbox_midpoint shape) s), [])
    else (s, [uncaught_RangeError]).
Proof.
  intros H. pose proof (activeShape_length s H) as Hlen.
  unfold stats, handleExportGeoJSON, handleZoomToShape. rewrite H.
  assert (E1 : (List.length shape <? 3)%nat = false) by (apply Nat.ltb_ge; lia).
  assert (E2 : (List.length shape =? 0)%nat = false)
    by (apply Nat.eqb_neq; lia).
  rewrite E1, E2, bbox_center_spread.
  destruct (N.of_nat (List.length shape) <=? argument_limit)%N;
    repeat split; reflexivity.
Qed.

(** What they do without one. *)
Lemma consumers_without_shape (argument_limit : N) (s : state) :
  activeShape s = None ->
  stats s = None /\
  handleExportGeoJSON s = (s, [alert "No polygon to export."]) /\
  handleZoomToShape argument_limit s = (s, []) /\
  handleApplyOutline s
  = (s, if String.eqb (selectedArea s) ""
        then [] else [alert "Draw or upload a shape first."]).
Proof.
  intros H. unfold stats, handleExportGeoJSON, handleZoomToShape,
    handleApplyOutline. rewrite H.
  destruct (String.eqb (selectedArea s) ""); repeat split; reflexivity.
Qed.

(** C3, as the code has it.  The shape that statistics, export and recenter
    work on is the confirmed polygon when it has at least three vertices;
    otherwise the buffer when that has at least three; otherwise there is
    none.  Without a shape there are no statistics, export shows an alert,
    outline-apply shows an alert when an area is selected, and recenter does
    nothing and says nothing; no handler throws.  (With a shape, recenter
    moves the map to the midpoint of the bounding box of that shape; only
    when the shape has more vertices than the engine takes arguments does
    the spread call of line 356 throw instead.) *)
Theorem active_shape_resolution (argument_limit : N) (s : state) :
  ((3 <= List.length (drawnPolygon s))%nat ->
   activeShape s = Some (drawnPolygon s)) /\
  ((List.length (drawnPolygon s) < 3)%nat ->
   (3 <= List.length (drawingPoints s))%nat ->
   activeShape s = Some (drawingPoints s)) /\
  ((List.length (drawnPolygon s) < 3)%nat ->
   (List.length (drawingPoints s) < 3)%nat ->
   activeShape s = None) /\
  (forall shape, activeShape s = Some shape ->
     stats s
     = Some (mkStats (List.length shape) (perimeterKm shape) (areaKm2 shape)) /\
     handleExportGeoJSON s
     = (s, [download "area-of-interest.geojson"
                     (export_document (selectedArea s) shape)]) /\
     handleZoomToShape argument_limit s
     = if (N.of_nat (List.length shape) <=? argument_limit)%N
       then (setZoom 13 (setMapCenter (bbox_midpoint shape) s), [])
       else (s, [uncaught_RangeError])) /\
  (activeShape s = None ->
     stats s = None /\
     handleExportGeoJSON s = (s, [alert "No polygon to export."]) /\
     handleZoomToShape argument_limit s = (s, []) /\
     handleApplyOutline s
     = (s, if String.eqb (selectedArea s) ""
           then [] else [alert "Draw or upload a shape first."])).
Proof.
  split; [apply activeShape_confirmed | ].
  split; [apply activeShape_buffer | ].
  split; [apply activeShape_none | ].
  split; [apply consumers_with_shape | apply consumers_without_shape].
Qed.

Lemma active_shape_resolution_witness :
  (3 <= List.length (drawnPolygon triangle_drawn))%nat /\
  activeShape triangle_drawn = Some triangle.
Proof.
  assert (H : (3 <= List.length (drawnPolygon triangle_drawn))%nat)
    by (cbn; lia).
  split; [exact H | ].
  exact (proj1 (active_shape_resolution JavaScriptCore_limit triangle_drawn)
           H).
Defined.

(** C10. Without an active shape, the recenter handler returns the state it
    was given, field for field, and produces no alert or other effect. *)
Theorem zoom_to_shape_without_shape (argument_limit : N) (s : state) :
  (List.length (drawnPolygon s) < 3)%nat ->
  (List.length (drawingPoints s) < 3)%nat ->
  handleZoomToShape argument_limit s = (s, []).
Proof.
  intros H1 H2. unfold handleZoomToShape.
  now rewrite (activeShape_none s H1 H2).
Qed.

Lemma zoom_to_shape_without_shape_witness :
  (List.length (drawnPolygon initial_state) < 3)%nat /\
  (List.length (drawingPoints initial_state) < 3)%nat /\
  handleZoomToShape JavaScriptCore_limit initial_state = (initial_state, []).
Proof.
  assert (H1 : (List.length (drawnPolygon initial_state) < 3)%nat)
    by (cbn; lia).
  assert (H2 : (List.length (drawingPoints initial_state) < 3)%nat)
    by (cbn; lia).
  split; [exact H1 | split; [exact H2 | ]].
  exact (zoom_to_shape_without_shape JavaScriptCore_limit initial_state
           H1 H2).
Defined.

(** ** GeoJSON import against the specification's reading *)

Local Open Scope string_scope.

Lemma polygon_feature_spec (f : json) :
  polygon_feature f =
  match f with
  | JNull => Throw
  | _ => Normal (bears_polygon f)
  end.
Proof.
  destruct f as [ | b | r | s | items | props]; try reflexivity.
  unfold polygon_feature, bears_polygon. cbn [prop bind field].
  destruct (lookup "geometry" props) as [g | ]; [ | reflexivity].
  destruct g as [ | b | r | s | items | props']; try reflexivity.
  - destruct b; reflexivity.
  - cbn [truthy]. destruct (Req_dec_T r 0); reflexivity.
  - cbn [truthy]. destruct (negb (s =? "")); reflexivity.
  - cbn [truthy prop bind]. unfold names_polygon. cbn [field].
    destruct (lookup "type" props') as [[ | b | r | s | items | props''] | ];
      reflexivity.
Qed.

Lemma find_feature_spec (fs : list json) :
  (find_feature fs = Throw /\ In JNull fs) \/
  find_feature fs = Normal (find bears_polygon fs).
Proof.
  induction fs as [ | f rest IH]; [now right | ].
  cbn [find_feature find]. rewrite polygon_feature_spec.
  destruct f; try (left; split; [reflexivity | now left]); cbn [bind];
    match goal with
    | |- context [bears_polygon ?f] => destruct (bears_polygon f)
    end; auto;
    (destruct IH as [[-> Hin] | ->];
     [left; split; [reflexivity | now right] | now right]).
Qed.

Lemma geometry_coordinates_unrecognised (holder : json) :
  bears_polygon holder = false ->
  geometry_coordinates (Some holder) = Throw \/
  geometry_coordinates (Some holder) = Normal null.
Proof.
  unfold bears_polygon, geometry_coordinates.
  destruct holder as [ | b | r | s | items | props]; try (now left).
  cbn [field prop bind].
  destruct (lookup "geometry" props) as [g | ]; [ | now left].
  destruct g as [ | b | r | s | items | props']; try (now left);
    try (intros _; now right).
  unfold names_polygon. cbn [field prop bind].
  destruct (lookup "type" props') as [[ | b | r | s | items | props''] | ];
    try (intros _; now right).
  cbn [is_string]. intros H. apply orb_false_iff in H as [H1 H2].
  rewrite H1, H2. now right.
Qed.

Lemma geometry_coordinates_rings (holder : json) (rings : list json) :
  spec_feature_rings holder = Some rings ->
  geometry_coordinates (Some holder) = Normal (Some (JArr rings)).
Proof.
  unfold spec_feature_rings, geometry_coordinates.
  destruct holder as [ | b | r | s | items | props]; try discriminate.
  cbn [field prop bind].
  destruct (lookup "geometry" props) as [g | ]; [ | discriminate].
  unfold spec_geometry_rings.
  destruct g as [ | b | r | s | items | props']; try discriminate.
  cbn [field prop bind].
  destruct (lookup "type" props') as [[ | b | r | t | items | props''] | ];
    try discriminate.
  cbn [is_string].
  destruct (t =? "Polygon").
  - destruct (lookup "coordinates" props') as [[ | b | r | s | rs | ps] | ];
      try discriminate.
    now intros [= ->].
  - destruct (t =? "MultiPolygon"); [ | discriminate].
    destruct (lookup "coordinates" props') as [[ | b | r | s | rs | ps] | ];
      try discriminate.
    destruct rs as [ | [ | b | r | s | rs' | ps] others]; try discriminate.
    now intros [= ->].
Qed.

Lemma bears_polygon_truthy (f : json) :
  bears_polygon f = true -> truthy (Some f) = true.
Proof.
  unfold bears_polygon.
  destruct f as [ | b | r | s | items | props]; cbn [field]; try discriminate.
  reflexivity.
Qed.

(** The three-way dispatch finds nothing where the specification's reading
    recognises no polygon geometry. *)
Lemma find_coords_unrecognised (doc : json) :
  spec_has_polygon_geometry doc = false ->
  find_coords (Some doc) = Throw \/ find_coords (Some doc) = Normal null.
Proof.
  unfold spec_has_polygon_geometry, find_coords.
  destruct doc as [ | b | r | s | items | props]; try (now left);
    try (intros _; now right).
  cbn [field prop bind].
  destruct (lookup "type" props) as [[ | b | r | t | items | props'] | ] eqn:Et;
    try (intros _; now right).
  cbn [is_string].
  destruct (t =? "FeatureCollection") eqn:Efc.
  - apply String.eqb_eq in Efc. subst t. cbn [String.eqb Ascii.eqb Bool.eqb].
    cbn.
    destruct (lookup "features" props) as [[ | b | r | s | fs | ps] | ];
      try (now left).
    intros Hex. cbn [features_find].
    destruct (find_feature_spec fs) as [[-> _] | ->]; [now left | ].
    cbn [bind].
    destruct (find bears_polygon fs) as [f | ] eqn:Ef; [ | now right].
    apply find_some in Ef as [Hin Hb].
    assert (existsb bears_polygon fs = true)
      by (apply existsb_exists; now exists f).
    congruence.
  - destruct (t =? "Feature") eqn:Ef.
    + apply String.eqb_eq in Ef. subst t. cbn.
      intros Hb.
      apply (geometry_coordinates_unrecognised (JObj props)). exact Hb.
    + destruct (t =? "Polygon"); [discriminate | ]. intros _. now right.
Qed.

Lemma read_polygon_unrecognised (doc : json) :
  spec_has_polygon_geometry doc = false ->
  read_polygon (Some doc) = Throw \/ read_polygon (Some doc) = Normal None.
Proof.
  intros H. unfold read_polygon.
  destruct (find_coords_unrecognised doc H) as [-> | ->];
    [now left | now right].
Qed.

(** C8. When [JSON.parse] throws, or the parsed document holds no
    recognisable polygon geometry, the import callback shows one of its two
    alerts and returns the state it was given: no field changes. *)
Theorem malformed_shape_alert_no_mutation (argument_limit : N)
    (fileName : string) (parsed : completion json) (s : state) :
  parsed = Throw \/
  (exists doc, parsed = Normal doc /\ spec_has_polygon_geometry doc = false) ->
  handleFileChange argument_limit (Some (fileName, parsed)) s
  = (s, [console_error; alert "Failed to read GeoJSON file.";
         clear_file_input]) \/
  handleFileChange argument_limit (Some (fileName, parsed)) s
  = (s, [alert "No polygon geometry found in GeoJSON."; clear_file_input]).
Proof.
  intros [-> | (doc & -> & H)]; [now left | ].
  unfold handleFileChange, reader_onload. cbn [bind].
  destruct (read_polygon_unrecognised doc H) as [-> | ->];
    [now left | now right].
Qed.

Lemma malformed_shape_alert_no_mutation_witness :
  (Normal point_document = Throw \/
   exists doc, Normal point_document = Normal doc /\
               spec_has_polygon_geometry doc = false) /\
  (handleFileChange JavaScriptCore_limit (Some ("p.json", Normal point_document)) triangle_drawn
   = (triangle_drawn,
      [console_error; alert "Failed to read GeoJSON file.";
       clear_file_input]) \/
   handleFileChange JavaScriptCore_limit (Some ("p.json", Normal point_document)) triangle_drawn
   = (triangle_drawn,
      [alert "No polygon geometry found in GeoJSON."; clear_file_input])).
Proof.
  assert (H : Normal point_document = Throw \/
              exists doc, Normal point_document = Normal doc /\
                          spec_has_polygon_geometry doc = false).
  { right. exists point_document. split; reflexivity. }
  split; [exact H | ].
  exact (malformed_shape_alert_no_mutation JavaScriptCore_limit "p.json"
           triangle_drawn H).
Defined.

Lemma to_LatLng_position (c : json) (p : LatLng) :
  spec_position c = Some p -> to_LatLng c = Normal p.
Proof.
  destruct c as [ | b | r | s | items | props]; try discriminate.
  destruct items
    as [ | [ | b | lo | s | i | ps] [ | [ | b' | la | s' | i' | ps'] rest]];
    try discriminate.
  cbn. now intros [= <-].
Qed.

Lemma ring_map_positions (ring : list json) (pts : list LatLng) :
  spec_positions ring = Some pts -> map_completion to_LatLng ring = Normal pts.
Proof.
  revert pts. induction ring as [ | c rest IH]; intros pts.
  - now intros [= <-].
  - cbn [spec_positions map_completion].
    destruct (spec_position c) as [p | ] eqn:Ep; [ | discriminate].
    destruct (spec_positions rest) as [ps | ]; [ | discriminate].
    intros [= <-]. rewrite (to_LatLng_position c Ep). cbn [bind].
    now rewrite (IH ps eq_refl).
Qed.

Lemma find_coords_rings (doc : json) (rings : list json) :
  spec_chosen_rings doc = Some rings ->
  (find_coords (Some doc) = Throw /\ has_null_feature doc) \/
  find_coords (Some doc) = Normal (Some (JArr rings)).
Proof.
  unfold spec_chosen_rings, find_coords.
  destruct doc as [ | b | r | s | items | props]; try discriminate.
  cbn [field prop bind].
  destruct (lookup "type" props) as [[ | b | r | t | items | props'] | ] eqn:Et;
    try discriminate.
  cbn [is_string].
  destruct (t =? "FeatureCollection") eqn:Efc.
  - apply String.eqb_eq in Efc. subst t. cbn.
    destruct (lookup "features" props) as [[ | b | r | s | fs | ps] | ] eqn:Efs;
      try discriminate.
    cbn [features_find].
    destruct (find_feature_spec fs) as [[-> Hnull] | ->].
    { intros _. left. split; [reflexivity | ]. now exists fs. }
    cbn [bind].
    destruct (find bears_polygon fs) as [f | ] eqn:Ef; [ | discriminate].
    intros Hr. apply find_some in Ef as [_ Hb].
    rewrite (bears_polygon_truthy f Hb). right.
    now apply geometry_coordinates_rings.
  - destruct (t =? "Feature") eqn:Ef.
    + apply String.eqb_eq in Ef. subst t. cbn.
      intros Hr. right.
      now apply (geometry_coordinates_rings (JObj props)).
    + destruct (t =? "Polygon"); [ | discriminate].
      destruct (lookup "coordinates" props) as [[ | b | r | s | rs | ps] | ];
        try discriminate.
      intros [= ->]. now right.
Qed.

(** On a document the specification can import, the [try] block either
    throws or produces the specification's vertices. *)
Lemma read_polygon_import (doc : json) (pts : list LatLng) :
  spec_import doc = Some pts ->
  (read_polygon (Some doc) = Throw /\ has_null_feature doc) \/
  read_polygon (Some doc) = Normal (Some pts).
Proof.
  unfold spec_import, read_polygon.
  destruct (spec_chosen_rings doc) as [rings | ] eqn:Er; [ | discriminate].
  destruct rings as [ | [ | b | r | s | ring | ps] holes]; try discriminate.
  intros Hp.
  destruct (find_coords_rings doc Er) as [[-> Hnull] | ->]; [now left | ].
  cbn. rewrite (ring_map_positions ring Hp). now right.
Qed.

(** ** The midpoint of the bounding box *)

Local Close Scope string_scope.









(** ** Import: the new state *)

Local Open Scope string_scope.

(** What an import does on a document the specification can import: the
    [try] block throws on a [null] feature and nothing changes; or the ring
    is longer than the engine's argument limit, the four setters of lines
    297-300 stand and the [catch] block runs; or the import goes through. *)
Lemma handleFileChange_cases
    (argument_limit : N) (fileName : string) (doc : json) (s : state)
    (pts : list LatLng) :
  spec_import doc = Some pts ->
  (has_null_feature doc /\
   handleFileChange argument_limit (Some (fileName, Normal doc)) s
   = (s, [console_error; alert "Failed to read GeoJSON file.";
          clear_file_input])) \/
  (~ fits argument_limit pts /\
   handleFileChange argument_limit (Some (fileName, Normal doc)) s
   = (mkState (view s) (searchQuery s) (selectedArea s) false pts []
        (mapCenter s) (zoom s) None (isSearching s) (searchError s)
        (isGridOn s),
      [console_error; alert "Failed to read GeoJSON file.";
       clear_file_input])) \/
  (fits argument_limit pts /\
   handleFileChange argument_limit (Some (fileName, Normal doc)) s
   = (mkState (view s) (searchQuery s) fileName false pts []
        (bbox_midpoint pts) 12 None (isSearching s) (searchError s)
        (isGridOn s),
      [clear_file_input])).
Proof.
  intros Hspec. unfold handleFileChange, reader_onload. cbn [bind].
  destruct (read_polygon_import doc Hspec) as [[-> Hnull] | ->].
  - left. now split.
  - right. rewrite bbox_center_spread. unfold fits.
    destruct (N.leb_spec (N.of_nat (List.length pts)) argument_limit)
      as [Hle | Hgt].
    + right. now split.
    + left. split; [lia | reflexivity].
Qed.

(** An import that shows no alert has gone through. *)
Lemma handleFileChange_imports
    (argument_limit : N) (fileName : string) (doc : json) (s : state)
    (pts : list LatLng) :
  spec_import doc = Some pts ->
  (forall msg,
     ~ In (alert msg)
          (snd (handleFileChange argument_limit
                  (Some (fileName, Normal doc)) s))) ->
  fits argument_limit pts /\
  handleFileChange argument_limit (Some (fileName, Normal doc)) s
  = (mkState (view s) (searchQuery s) fileName false pts []
       (bbox_midpoint pts) 12 None (isSearching s) (searchError s)
       (isGridOn s),
     [clear_file_input]).
Proof.
  intros Hspec Hquiet.
  destruct (@handleFileChange_cases argument_limit fileName doc s pts Hspec)
    as [[_ E] | [[_ E] | H]]; [ | | exact H];
    exfalso; apply (Hquiet "Failed to read GeoJSON file.");
    rewrite E; cbn; tauto.
Qed.





(** The import of such a document raises no alert unless a feature
    collection lists [null] among its features or the ring is longer than
    the engine's argument limit. *)
Lemma import_alert_only_for_null_feature
    (argument_limit : N) (fileName : string) (doc : json) (s : state)
    (pts : list LatLng) (msg : string) :
  spec_import doc = Some pts ->
  In (alert msg)
     (snd (handleFileChange argument_limit (Some (fileName, Normal doc)) s)) ->
  has_null_feature doc \/ ~ fits argument_limit pts.
Proof.
  intros Hspec.
  destruct (@handleFileChange_cases argument_limit fileName doc s pts Hspec)
    as [[Hnull _] | [[Hbig _] | [_ E]]];
    [now left | now right | ].
  rewrite E. cbn [snd In]. intros [H | []]. discriminate H.
Qed.


(** C3 as stated fails: after importing a ring of two positions the
    confirmed polygon is present, with two vertices, yet no shape is active:
    there are no statistics and export answers that there is no polygon. *)
Lemma confirmed_polygon_of_two_vertices_is_not_active :
  drawnPolygon two_points_imported
  = [mkLatLng (Num 0%R) (Num 0%R); mkLatLng (Num 1%R) (Num 1%R)] /\
  drawnPolygon two_points_imported <> [] /\
  activeShape two_points_imported = None /\
  stats two_points_imported = None /\
  handleExportGeoJSON two_points_imported
  = (two_points_imported, [alert "No polygon to export."]).
Proof.
  assert (Hd : drawnPolygon two_points_imported
               = [mkLatLng (Num 0%R) (Num 0%R); mkLatLng (Num 1%R) (Num 1%R)])
    by reflexivity.
  assert (Ha : activeShape two_points_imported = None).
  { unfold activeShape. rewrite Hd. reflexivity. }
  split; [exact Hd | split; [rewrite Hd; discriminate | split; [exact Ha | ]]].
  split.
  - unfold stats. now rewrite Ha.
  - unfold handleExportGeoJSON. now rewrite Ha.
Qed.

(** ** Export, then import *)

Lemma to_LatLng_exported (p : LatLng) :
  finite_point p -> to_LatLng (position_of p) = Normal p.
Proof. intros (la & lo & ->). reflexivity. Qed.

Lemma ring_map_exported (shape : list LatLng) :
  Forall finite_point shape ->
  map_completion to_LatLng (map position_of shape) = Normal shape.
Proof.
  induction 1 as [ | p shape Hp _ IH]; [reflexivity | ].
  cbn [map map_completion]. rewrite (to_LatLng_exported Hp). cbn [bind].
  now rewrite IH.
Qed.

(** Importing an exported document gives back the ring that was written:
    the shape followed by a second copy of its first vertex. *)
Lemma read_polygon_exported (name : string) (shape : list LatLng) :
  shape <> [] -> Forall finite_point shape ->
  read_polygon (Some (export_document name shape))
  = Normal (Some (shape ++ [hd undefined_point shape])%list).
Proof.
  intros Hne Hfin. destruct shape as [ | p rest]; [contradiction | ].
  assert (Hring : read_polygon (Some (export_document name (p :: rest)))
                  = let* polygon :=
                      map_completion to_LatLng
                        (map position_of ((p :: rest) ++ [p])%list) in
                    Normal (Some polygon)).
  { rewrite map_app. reflexivity. }
  rewrite Hring, ring_map_exported; [reflexivity | ].
  apply Forall_app. split; [exact Hfin | ].
  constructor; [ | constructor]. now inversion Hfin.
Qed.

(** Once the ring has been read, the confirmed polygon is replaced and the
    buffer emptied, whether or not the bounding box can be computed. *)
Lemma handleFileChange_polygon
    (argument_limit : N) (fileName : string) (doc : json) (s : state)
    (polygon : list LatLng) :
  read_polygon (Some doc) = Normal (Some polygon) ->
  let s' := fst (handleFileChange argument_limit
                   (Some (fileName, Normal doc)) s) in
  drawnPolygon s' = polygon /\ drawingPoints s' = [].
Proof.
  intros H. unfold handleFileChange, reader_onload. cbn [bind]. rewrite H.
  destruct (bbox_center argument_limit polygon); split; reflexivity.
Qed.

(** C2, as the code has it.  Exporting an active shape of finite points and
    importing the produced document, in whatever state, makes the confirmed
    polygon the original vertex sequence followed by a second copy of its
    first vertex: the point that closes the exported ring is kept, so the
    polygon has one vertex more than the shape had. *)
Theorem export_then_import_keeps_closing_vertex (argument_limit : N)
    (s s0 : state) (shape : list LatLng) (fileName : string) :
  activeShape s = Some shape ->
  Forall finite_point shape ->
  exists doc imported,
    handleExportGeoJSON s = (s, [download "area-of-interest.geojson" doc]) /\
    imported
    = fst (handleFileChange argument_limit (Some (fileName, Normal doc))
             s0) /\
    drawnPolygon imported = (shape ++ [hd undefined_point shape])%list /\
    List.length (drawnPolygon imported) = S (List.length shape).
Proof.
  intros Hactive Hfin.
  pose proof (activeShape_length s Hactive) as Hlen.
  exists (export_document (selectedArea s) shape).
  eexists. split; [apply (stats_and_export_with_shape s Hactive) | ].
  split; [reflexivity | ].
  assert (Hne : shape <> []) by (intros ->; cbn in Hlen; lia).
  destruct (@handleFileChange_polygon argument_limit fileName
              (export_document (selectedArea s) shape) s0 _
              (read_polygon_exported (selectedArea s) Hne Hfin))
    as [-> _].
  split; [reflexivity | ].
  rewrite length_app. cbn [List.length]. lia.
Qed.

Lemma triangle_finite : Forall finite_point triangle.
Proof.
  repeat constructor.
  - now exists 0%R, 0%R.
  - now exists 0%R, 1%R.
  - now exists 1%R, 0%R.
Qed.

Lemma export_then_import_keeps_closing_vertex_witness :
  activeShape triangle_drawn = Some triangle /\
  Forall finite_point triangle /\
  exists doc imported,
    handleExportGeoJSON triangle_drawn
    = (triangle_drawn, [download "area-of-interest.geojson" doc]) /\
    imported
    = fst (handleFileChange JavaScriptCore_limit
             (Some ("copy.geojson", Normal doc)) initial_state) /\
    drawnPolygon imported = (triangle ++ [hd undefined_point triangle])%list /\
    List.length (drawnPolygon imported) = S (List.length triangle).
Proof.
  assert (Ha : activeShape triangle_drawn = Some triangle) by reflexivity.
  split; [exact Ha | split; [exact triangle_finite | ]].
  exact (export_then_import_keeps_closing_vertex
           JavaScriptCore_limit triangle_drawn initial_state "copy.geojson"
           Ha triangle_finite).
Defined.

(** The round trip at the drawn triangle: the document that export
    downloads is imported as four vertices, not as the triangle. *)
Lemma exported_triangle_is_imported_with_four_vertices :
  activeShape triangle_drawn = Some triangle /\
  handleExportGeoJSON triangle_drawn
  = (triangle_drawn,
     [download "area-of-interest.geojson" exported_triangle]) /\
  drawnPolygon triangle_reimported
  = [corner_a; corner_b; corner_c; corner_a] /\
  drawnPolygon triangle_reimported <> triangle /\
  List.length (drawnPolygon triangle_reimported) = 4%nat.
Proof.
  assert (Hread : read_polygon (Some exported_triangle)
                  = Normal (Some [corner_a; corner_b; corner_c; corner_a]))
    by reflexivity.
  assert (Himp : drawnPolygon triangle_reimported
                 = [corner_a; corner_b; corner_c; corner_a]).
  { unfold triangle_reimported.
    exact (proj1 (@handleFileChange_polygon JavaScriptCore_limit
                    "area-of-interest.geojson" exported_triangle
                    triangle_drawn _ Hread)). }
  split; [reflexivity | split; [reflexivity | split; [exact Himp | ]]].
  rewrite Himp. split; [discriminate | reflexivity].
Qed.

(* ================================================================== *)
(** * Part III. Further properties of the component                    *)
(* ================================================================== *)

Local Close Scope R_scope.

(** ** A drawing session *)

Lemma clicks_while_drawing (points : list LatLng) (s : state) :
  isDrawing s = true ->
  clicks points s = setDrawingPoints (drawingPoints s ++ points) s.
Proof.
  revert s. induction points as [ | p points IH]; intros s Hd.
  - cbn. rewrite app_nil_r. now destruct s.
  - cbn [clicks fold_left]. fold (clicks points (click p s)).
    assert (Hc : click p s = setDrawingPoints (drawingPoints s ++ [p]) s).
    { unfold click. now rewrite Hd, LatLng_eta. }
    rewrite Hc, IH by exact Hd. cbn. now rewrite <- app_assoc.
Qed.

(** From a state where the draw tool is not active: picking the tool,
    clicking any number of points and putting the tool back confirms the
    clicked points, in click order, when there are at least three, and
    otherwise has the effect of the Clear button; either way whatever was
    confirmed before is gone. *)
Theorem drawing_session (s : state) (points : list LatLng) :
  tool_is "polygon" (activeDrawTool s) = false ->
  toggleDrawing (clicks points (toggleDrawing s))
  = if (3 <=? List.length points)%nat
    then setDrawnPolygon points (handleClearAOI s)
    else handleClearAOI s.
Proof.
  intros H. rewrite (toggleDrawing_enter s H).
  rewrite clicks_while_drawing by reflexivity.
  unfold toggleDrawing. cbn.
  destruct points as [ | p1 [ | p2 [ | p3 rest]]]; reflexivity.
Qed.

Lemma drawing_session_witness :
  tool_is "polygon" (activeDrawTool triangle_drawn) = false /\
  drawnPolygon
    (toggleDrawing (clicks [corner_c; corner_a] (toggleDrawing triangle_drawn)))
  = [].
Proof.
  assert (H : tool_is "polygon" (activeDrawTool triangle_drawn) = false)
    by reflexivity.
  split; [exact H | ].
  now rewrite (drawing_session triangle_drawn [corner_c; corner_a] H).
Defined.

(** ** Invariants of the reachable states *)

Section Reachable.

Variable argument_limit : N.
Variable trim : string -> string.
Variable encodeURIComponent : string -> string.
Variable parseFloat : string -> number.

Local Abbreviation step' :=
  (step argument_limit trim encodeURIComponent parseFloat).
Local Abbreviation run' :=
  (run argument_limit trim encodeURIComponent parseFloat).

(** The callback leaves the state as it was, or replaces the polygon and
    stops at the bounding box, or does the whole import. *)
Lemma reader_onload_cases (fileName : string) (parsed : completion json)
    (s : state) :
  fst (reader_onload argument_limit fileName parsed s) = s \/
  (exists polygon,
     fst (reader_onload argument_limit fileName parsed s)
     = mkState (view s) (searchQuery s) (selectedArea s) false polygon []
         (mapCenter s) (zoom s) None (isSearching s) (searchError s)
         (isGridOn s)) \/
  (exists polygon,
     fst (reader_onload argument_limit fileName parsed s)
     = mkState (view s) (searchQuery s) fileName false polygon []
         (bbox_midpoint polygon) 12 None (isSearching s) (searchError s)
         (isGridOn s)).
Proof.
  unfold reader_onload.
  destruct (let* geojson := parsed in read_polygon (Some geojson))
    as [[polygon | ] | ]; [ | now left | now left].
  right. rewrite bbox_center_spread.
  destruct (N.of_nat (List.length polygon) <=? argument_limit)%N;
    [right | left]; now exists polygon.
Qed.

Lemma handleSearch_settled_frame (response : search_response) (s : state) :
  let s' := handleSearch_settled parseFloat response s in
  isDrawing s' = isDrawing s /\ activeDrawTool s' = activeDrawTool s /\
  drawnPolygon s' = drawnPolygon s /\ drawingPoints s' = drawingPoints s /\
  isSearching s' = false.
Proof.
  destruct response as [ | [[ | first rest] | ]]; repeat split; reflexivity.
Qed.

Lemma step_keeps_drawing_invariant (s : state) (e : event) :
  drawing_invariant s -> drawing_invariant (step' s e).
Proof.
  unfold drawing_invariant. intros (Htool & Hbuffer & Hpolygon).
  destruct e; cbn [step' step];
    try (repeat split; assumption);
    try (repeat split; intros; (reflexivity || discriminate)).
  - (* click *)
    unfold click. destruct (isDrawing s) eqn:Hd; cbn; rewrite ?Hd;
      repeat split; auto; discriminate.
  - (* search *)
    unfold handleSearch. destruct (trim (searchQuery s) =? "")%string;
      cbn; repeat split; assumption.
  - (* search settled *)
    destruct (handleSearch_settled_frame response s)
      as (E1 & E2 & E3 & E4 & _).
    rewrite E1, E2, E3, E4. repeat split; assumption.
  - (* file *)
    destruct file as [[fileName parsed] | ]; cbn [handleFileChange fst];
      [ | repeat split; assumption].
    destruct (reader_onload_cases fileName parsed s)
      as [-> | [(polygon & ->) | (polygon & ->)]];
      [repeat split; assumption | | ];
      cbn; repeat split; intros; (reflexivity || discriminate).
  - (* apply outline *)
    unfold handleApplyOutline.
    destruct (selectedArea s =? "")%string, (activeShape s);
      cbn; repeat split; assumption.
  - (* toggle drawing *)
    unfold toggleDrawing.
    destruct (tool_is "polygon" (activeDrawTool s));
      [destruct (2 <? List.length (drawingPoints s))%nat | ];
      cbn; repeat split; intros; (reflexivity || discriminate).
  - (* zoom to shape *)
    unfold handleZoomToShape.
    destruct (activeShape s) as [pts | ]; [ | repeat split; assumption].
    destruct (List.length pts =? 0)%nat; [repeat split; assumption | ].
    destruct (bbox_center argument_limit pts); cbn; repeat split; assumption.
  - (* locate *)
    destruct answer; cbn; repeat split; assumption.
  - (* export *)
    unfold handleExportGeoJSON.
    destruct (activeShape s) as [shape | ]; [ | repeat split; assumption].
    destruct (List.length shape <? 3)%nat; cbn; repeat split; assumption.
Qed.

Lemma run_keeps_drawing_invariant (events : list event) (s : state) :
  drawing_invariant s -> drawing_invariant (run' events s).
Proof.
  revert s. induction events as [ | e events IH]; intros s Hs; [exact Hs | ].
  apply IH. now apply step_keeps_drawing_invariant.
Qed.

(** Whatever sequence of events the component has seen since its first
    render: drawing mode is on exactly when the draw tool is the active
    tool; the buffer holds vertices only in drawing mode; in drawing mode
    there is no confirmed polygon.  So the confirmed polygon and the buffer
    are never both non-empty, and the map never shows the polygon overlay
    together with the polyline of the buffer. *)
Theorem reachable_drawing_invariant (events : list event) :
  let s := run' events initial_state in
  drawing_invariant s /\
  (drawnPolygon s = [] \/ drawingPoints s = []) /\
  isDrawing s = draw_button_active s /\
  ((List.length (overlays s) <= 1)%nat \/
   exists positions markers,
     overlays s = overlay_polyline positions :: map overlay_marker markers).
Proof.
  cbv zeta.
  assert (Hinv : drawing_invariant (run' events initial_state)).
  { apply run_keeps_drawing_invariant. repeat split; intros; reflexivity
      || discriminate. }
  split; [exact Hinv | ].
  destruct Hinv as (Htool & Hbuffer & Hpolygon).
  set (s := run' events initial_state) in *.
  assert (Hone : drawnPolygon s = [] \/ drawingPoints s = []).
  { destruct (isDrawing s); [left | right]; auto. }
  split; [exact Hone | split; [exact Htool | ]].
  unfold overlays. destruct Hone as [E | E]; rewrite E.
  - cbn [List.length Nat.ltb Nat.leb app].
    destruct (drawingPoints s) as [ | p rest]; [left; cbn; lia | right].
    exists (map lat_lng_pair (p :: rest)), (map lat_lng_pair (p :: rest)).
    cbn [List.length Nat.ltb Nat.leb]. now rewrite map_map.
  - left. rewrite app_nil_r.
    destruct (0 <? List.length (drawnPolygon s))%nat; cbn [List.length]; lia.
Qed.

End Reachable.

(** ** The zoom level *)

Lemma step_keeps_zoom_in_bounds
    (argument_limit : N) (trim encodeURIComponent : string -> string)
    (parseFloat : string -> number) (s : state) (e : event) :
  widget_zoom_in_bounds e ->
  (MIN_ZOOM <= zoom s <= MAX_ZOOM)%Z ->
  (MIN_ZOOM
   <= zoom (step argument_limit trim encodeURIComponent parseFloat s e)
   <= MAX_ZOOM)%Z.
Proof.
  unfold MIN_ZOOM, MAX_ZOOM. intros He Hs.
  destruct e; cbn [step widget_zoom_in_bounds] in *;
    try exact Hs; try (cbn; unfold DEFAULT_ZOOM; lia).
  - unfold click. destruct (isDrawing s); exact Hs.
  - unfold MIN_ZOOM, MAX_ZOOM in He. exact He.
  - unfold handleSearch. destruct (trim (searchQuery s) =? "")%string;
      exact Hs.
  - destruct response as [ | [[ | first rest] | ]]; cbn; (exact Hs || lia).
  - destruct file as [[fileName parsed] | ]; cbn [handleFileChange fst];
      [ | exact Hs].
    destruct (reader_onload_cases argument_limit fileName parsed s)
      as [-> | [(polygon & ->) | (polygon & ->)]];
      [exact Hs | exact Hs | cbn; lia].
  - unfold handleApplyOutline.
    destruct (selectedArea s =? "")%string, (activeShape s); exact Hs.
  - unfold toggleDrawing.
    destruct (tool_is "polygon" (activeDrawTool s));
      [destruct (2 <? List.length (drawingPoints s))%nat | ]; exact Hs.
  - unfold handleZoomToShape.
    destruct (activeShape s) as [pts | ]; [ | exact Hs].
    destruct (List.length pts =? 0)%nat; [exact Hs | ].
    destruct (bbox_center argument_limit pts); cbn; (exact Hs || lia).
  - destruct answer; cbn; (exact Hs || lia).
  - unfold handleExportGeoJSON.
    destruct (activeShape s) as [shape | ]; [ | exact Hs].
    destruct (List.length shape <? 3)%nat; exact Hs.
  - cbn. unfold MAX_ZOOM. lia.
  - cbn. unfold MIN_ZOOM. lia.
Qed.

(** As long as the map widget reports zoom levels within the bounds it was
    given, the zoom level of every reachable state is between 2 and 18:
    the zoom buttons clamp, and search, import, recenter, geolocate and
    home set levels inside the range. *)
Theorem reachable_zoom_in_bounds
    (argument_limit : N) (trim encodeURIComponent : string -> string)
    (parseFloat : string -> number) (events : list event) :
  Forall widget_zoom_in_bounds events ->
  (2 <= zoom (run argument_limit trim encodeURIComponent parseFloat events
                initial_state)
   <= 18)%Z.
Proof.
  assert (Hgen : forall s,
            Forall widget_zoom_in_bounds events ->
            (MIN_ZOOM <= zoom s <= MAX_ZOOM)%Z ->
            (MIN_ZOOM
             <= zoom (run argument_limit trim encodeURIComponent parseFloat
                        events s)
             <= MAX_ZOOM)%Z).
  { induction events as [ | e events IH]; intros s Hall Hs; [exact Hs | ].
    inversion Hall as [ | e' events' He Hrest]; subst.
    cbn [run fold_left]. apply IH; [exact Hrest | ].
    now apply step_keeps_zoom_in_bounds. }
  intros Hall. apply (Hgen initial_state Hall). cbn.
  unfold MIN_ZOOM, MAX_ZOOM, DEFAULT_ZOOM. lia.
Qed.

Lemma reachable_zoom_in_bounds_witness :
  Forall widget_zoom_in_bounds
    [on_zoomend 17; on_zoom_in; on_zoom_in; on_zoom_to_shape] /\
  (2 <= zoom (run JavaScriptCore_limit (fun q => q) (fun q => q)
                (fun _ => NaN)
                [on_zoomend 17; on_zoom_in; on_zoom_in; on_zoom_to_shape]
                initial_state)
   <= 18)%Z.
Proof.
  assert (H : Forall widget_zoom_in_bounds
                [on_zoomend 17; on_zoom_in; on_zoom_in; on_zoom_to_shape]).
  { repeat constructor; cbn; unfold MIN_ZOOM, MAX_ZOOM; lia. }
  split; [exact H | ].
  exact (reachable_zoom_in_bounds JavaScriptCore_limit (fun q => q)
           (fun q => q) (fun _ => NaN) H).
Defined.

(** The zoom buttons.  Zoom-in never leaves a level above 18 and zoom-out
    never one below 2, whatever the level was.  From a level within the
    bounds each button moves by exactly one step, except that zoom-in at 18
    and zoom-out at 2 change nothing; so zoom-in followed by zoom-out comes
    back to the level it started from everywhere but at 18, where it ends
    at 17.  No other field is touched. *)
Theorem zoom_buttons (s : state) :
  (MIN_ZOOM <= zoom s <= MAX_ZOOM)%Z ->
  (zoom (handleZoomIn s)
   = if (zoom s =? MAX_ZOOM)%Z then MAX_ZOOM else zoom s + 1)%Z /\
  (zoom (handleZoomOut s)
   = if (zoom s =? MIN_ZOOM)%Z then MIN_ZOOM else zoom s - 1)%Z /\
  (zoom (handleZoomOut (handleZoomIn s))
   = if (zoom s =? MAX_ZOOM)%Z then MAX_ZOOM - 1 else zoom s)%Z /\
  handleZoomIn s = setZoom (zoom (handleZoomIn s)) s /\
  handleZoomOut s = setZoom (zoom (handleZoomOut s)) s.
Proof.
  intros H. destruct (zoom_buttons_clamped s H) as (Hin & Hout).
  split; [exact Hin | split; [exact Hout | split]].
  - revert H. unfold MIN_ZOOM, MAX_ZOOM. intros H. cbn.
    unfold MIN_ZOOM, MAX_ZOOM. destruct (Z.eqb_spec (zoom s) 18); lia.
  - split; reflexivity.
Qed.

Lemma zoom_buttons_witness :
  (MIN_ZOOM <= zoom initial_state <= MAX_ZOOM)%Z /\
  zoom (handleZoomOut (handleZoomIn initial_state)) = zoom initial_state.
Proof.
  assert (H : (MIN_ZOOM <= zoom initial_state <= MAX_ZOOM)%Z)
    by (cbn; unfold MIN_ZOOM, MAX_ZOOM, DEFAULT_ZOOM; lia).
  split; [exact H | ].
  exact (proj1 (proj2 (proj2 (zoom_buttons initial_state H)))).
Defined.

(** ** Recentring on the active shape *)

Local Open Scope R_scope.




Local Close Scope R_scope.

(** ** Import: what follows, and the edges of the format *)

Local Open Scope string_scope.

(** After an import without alert, the imported polygon is the active shape
    exactly when it has at least three vertices, whatever was drawn or in
    the buffer before.  With one or two vertices the polygon is shown on
    the map, yet there are no statistics and the export button is disabled;
    with none, nothing is shown at all. *)
Theorem imported_polygon_active_from_three_vertices
    (argument_limit : N) (fileName : string) (doc : json) (s : state)
    (pts : list LatLng) :
  spec_import doc = Some pts ->
  (forall msg,
     ~ In (alert msg)
          (snd (handleFileChange argument_limit
                  (Some (fileName, Normal doc)) s))) ->
  let s' := fst (handleFileChange argument_limit
                   (Some (fileName, Normal doc)) s) in
  activeShape s' = (if (3 <=? List.length pts)%nat then Some pts else None) /\
  export_disabled s' = negb (3 <=? List.length pts)%nat /\
  stats s'
  = (if (3 <=? List.length pts)%nat
     then Some (mkStats (List.length pts) (perimeterKm pts) (areaKm2 pts))
     else None) /\
  overlays s'
  = match pts with
    | [] => []
    | _ :: _ => [overlay_polygon (map lat_lng_pair pts)]
    end.
Proof.
  intros Hspec Hquiet. cbv zeta.
  rewrite (proj2 (@handleFileChange_imports argument_limit fileName doc s pts
                    Hspec Hquiet)).
  cbn [fst].
  unfold export_disabled, stats, activeShape, overlays.
  cbn [drawnPolygon drawingPoints List.length].
  destruct pts as [ | p1 [ | p2 [ | p3 rest]]]; repeat split; reflexivity.
Qed.

Lemma read_two_point_polygon :
  read_polygon (Some two_point_polygon)
  = Normal (Some [mkLatLng (Num 0%R) (Num 0%R); mkLatLng (Num 1%R) (Num 1%R)]).
Proof. reflexivity. Qed.

Lemma imported_polygon_active_from_three_vertices_witness :
  spec_import two_point_polygon
  = Some [mkLatLng (Num 0%R) (Num 0%R); mkLatLng (Num 1%R) (Num 1%R)] /\
  (forall msg,
     ~ In (alert msg)
          (snd (handleFileChange JavaScriptCore_limit
                  (Some ("two.geojson", Normal two_point_polygon))
                  triangle_drawn))) /\
  activeShape
    (fst (handleFileChange JavaScriptCore_limit
            (Some ("two.geojson", Normal two_point_polygon)) triangle_drawn))
  = None.
Proof.
  assert (Hspec : spec_import two_point_polygon
                  = Some [mkLatLng (Num 0%R) (Num 0%R);
                          mkLatLng (Num 1%R) (Num 1%R)]) by reflexivity.
  assert (Hquiet : forall msg,
            ~ In (alert msg)
                 (snd (handleFileChange JavaScriptCore_limit
                         (Some ("two.geojson", Normal two_point_polygon))
                         triangle_drawn))).
  { intros msg. unfold handleFileChange, reader_onload. cbn [bind].
    rewrite read_two_point_polygon, bbox_center_spread. cbn [snd In].
    intros [H | []]. discriminate H. }
  split; [exact Hspec | split; [exact Hquiet | ]].
  exact (proj1 (@imported_polygon_active_from_three_vertices
                  JavaScriptCore_limit "two.geojson" two_point_polygon
                  triangle_drawn _ Hspec Hquiet)).
Defined.

Lemma no_rings_rejected (coords : value) :
  no_rings coords -> negb (truthy coords) || length_is_zero coords = true.
Proof. intros [-> | [-> | ->]]; reflexivity. Qed.

Lemma geometry_coordinates_polygon (holder g : json) :
  field "geometry" holder = Some g ->
  field "type" g = Some (JStr "Polygon") ->
  geometry_coordinates (Some holder) = Normal (field "coordinates" g).
Proof.
  unfold geometry_coordinates.
  destruct holder as [ | b | r | t | items | props]; try discriminate.
  cbn [field prop bind]. intros ->.
  destruct g as [ | b | r | t | items | props']; try discriminate.
  cbn [field prop bind]. now intros ->.
Qed.

Lemma geometry_coordinates_multipolygon (holder g : json) :
  field "geometry" holder = Some g ->
  field "type" g = Some (JStr "MultiPolygon") ->
  geometry_coordinates (Some holder) = index0 (field "coordinates" g).
Proof.
  unfold geometry_coordinates.
  destruct holder as [ | b | r | t | items | props]; try discriminate.
  cbn [field prop bind]. intros ->.
  destruct g as [ | b | r | t | items | props']; try discriminate.
  cbn [field prop bind]. now intros ->.
Qed.

Lemma find_coords_feature (doc : json) :
  field "type" doc = Some (JStr "Feature") ->
  find_coords (Some doc) = geometry_coordinates (Some doc).
Proof.
  unfold find_coords.
  destruct doc as [ | b | r | t | items | props]; try discriminate.
  cbn [field prop bind]. now intros ->.
Qed.

Lemma find_coords_polygon (doc : json) :
  field "type" doc = Some (JStr "Polygon") ->
  find_coords (Some doc) = Normal (field "coordinates" doc).
Proof.
  unfold find_coords.
  destruct doc as [ | b | r | t | items | props]; try discriminate.
  cbn [field prop bind]. now intros ->.
Qed.

(** A polygon geometry that carries no ring is answered with the alert
    "No polygon geometry found in GeoJSON.": a [Polygon] (the document
    itself, or the geometry of a [Feature]) whose coordinates are absent,
    [null] or empty, and a [MultiPolygon] in a [Feature] that has no member
    or whose first member has no ring.  A [MultiPolygon] whose coordinates
    are absent or [null] is answered with "Failed to read GeoJSON file."
    instead.  The state is the same after as before in all these cases. *)
Theorem import_of_geometry_without_rings
    (argument_limit : N) (fileName : string) (doc : json) (s : state) :
  ((polygon_without_rings doc \/
    (field "type" doc = Some (JStr "Feature") /\
     exists g, field "geometry" doc = Some g /\
               (polygon_without_rings g \/ multipolygon_without_rings g))) ->
   handleFileChange argument_limit (Some (fileName, Normal doc)) s
   = (s, [alert "No polygon geometry found in GeoJSON."; clear_file_input]))
  /\
  ((field "type" doc = Some (JStr "Feature") /\
    exists g, field "geometry" doc = Some g /\
              multipolygon_without_coordinates g) ->
   handleFileChange argument_limit (Some (fileName, Normal doc)) s
   = (s, [console_error; alert "Failed to read GeoJSON file.";
          clear_file_input])).
Proof.
  unfold handleFileChange, reader_onload, read_polygon. cbn [bind]. split.
  - intros [[Ht Hc] | (Ht & g & Hg & [[Hgt Hc] | (Hgt & members & Hm & Hc)])].
    + rewrite (find_coords_polygon doc Ht). cbn [bind].
      now rewrite (no_rings_rejected Hc).
    + rewrite (find_coords_feature doc Ht).
      rewrite (geometry_coordinates_polygon doc Hg Hgt). cbn [bind].
      now rewrite (no_rings_rejected Hc).
    + rewrite (find_coords_feature doc Ht).
      rewrite (geometry_coordinates_multipolygon doc Hg Hgt), Hm.
      cbn [index0 bind]. now rewrite (no_rings_rejected Hc).
  - intros (Ht & g & Hg & Hgt & Hc).
    rewrite (find_coords_feature doc Ht).
    rewrite (geometry_coordinates_multipolygon doc Hg Hgt).
    destruct Hc as [-> | ->]; reflexivity.
Qed.

Lemma import_of_geometry_without_rings_witness :
  polygon_without_rings polygon_without_coordinates /\
  handleFileChange JavaScriptCore_limit
    (Some ("empty.json", Normal polygon_without_coordinates)) triangle_drawn
  = (triangle_drawn,
     [alert "No polygon geometry found in GeoJSON."; clear_file_input]).
Proof.
  assert (H : polygon_without_rings polygon_without_coordinates).
  { split; [reflexivity | now left]. }
  split; [exact H | ].
  exact (proj1 (import_of_geometry_without_rings
                  JavaScriptCore_limit "empty.json"
                  polygon_without_coordinates triangle_drawn)
               (or_introl H)).
Defined.

(** An outer ring without positions is imported without any alert: the
    confirmed polygon becomes empty, the buffer is emptied and drawing mode
    left, and the map centre becomes NaN in both coordinates (there is no
    least or greatest coordinate to take the midpoint of), at zoom 12.  No
    shape is active afterwards. *)
Theorem import_of_empty_ring
    (argument_limit : N) (fileName : string) (doc : json) (s : state) :
  spec_import doc = Some [] ->
  (forall msg,
     ~ In (alert msg)
          (snd (handleFileChange argument_limit
                  (Some (fileName, Normal doc)) s))) ->
  handleFileChange argument_limit (Some (fileName, Normal doc)) s
  = (mkState (view s) (searchQuery s) fileName false [] [] (mkLatLng NaN NaN)
       12 None (isSearching s) (searchError s) (isGridOn s),
     [clear_file_input]) /\
  activeShape
    (fst (handleFileChange argument_limit (Some (fileName, Normal doc)) s))
  = None.
Proof.
  intros Hspec Hquiet.
  rewrite (proj2 (@handleFileChange_imports argument_limit fileName doc s []
                    Hspec Hquiet)).
  split; reflexivity.
Qed.

Lemma import_of_empty_ring_witness :
  spec_import empty_ring_polygon = Some [] /\
  (forall msg,
     ~ In (alert msg)
          (snd (handleFileChange JavaScriptCore_limit
                  (Some ("e.json", Normal empty_ring_polygon))
                  triangle_drawn))) /\
  mapCenter
    (fst (handleFileChange JavaScriptCore_limit
            (Some ("e.json", Normal empty_ring_polygon)) triangle_drawn))
  = mkLatLng NaN NaN.
Proof.
  assert (Hspec : spec_import empty_ring_polygon = Some []) by reflexivity.
  assert (Hquiet : forall msg,
            ~ In (alert msg)
                 (snd (handleFileChange JavaScriptCore_limit
                         (Some ("e.json", Normal empty_ring_polygon))
                         triangle_drawn))).
  { intros msg. cbn. intros [H | []]. discriminate H. }
  split; [exact Hspec | split; [exact Hquiet | ]].
  exact (f_equal (fun r => mapCenter (fst r))
           (proj1 (import_of_empty_ring JavaScriptCore_limit "e.json"
                     empty_ring_polygon triangle_drawn Hspec Hquiet))).
Defined.

Lemma find_feature_null (before after : list json) :
  forallb (fun f => negb (bears_polygon f)) before = true ->
  find_feature (before ++ JNull :: after) = Throw.
Proof.
  induction before as [ | f before IH]; [reflexivity | ].
  cbn [forallb app find_feature]. intros H.
  apply andb_true_iff in H as [Hf Hrest].
  rewrite polygon_feature_spec.
  destruct f; try reflexivity; cbn [bind];
    apply negb_true_iff in Hf; rewrite Hf; exact (IH Hrest).
Qed.

Lemma map_completion_null (before after : list json) :
  map_completion to_LatLng (before ++ JNull :: after) = Throw.
Proof.
  induction before as [ | c before IH]; [reflexivity | ].
  cbn [app map_completion]. rewrite IH.
  destruct (to_LatLng c); reflexivity.
Qed.

(** A [null] in the wrong place makes the whole import fail with "Failed to
    read GeoJSON file." and no change of state: a [null] listed among the
    features of a collection before any polygon-bearing feature, even when
    a polygon feature follows; and a [null] among the positions of the
    outer ring of a polygon document. *)
Theorem import_fails_on_null
    (argument_limit : N) (fileName : string) (doc : json) (s : state) :
  (field "type" doc = Some (JStr "FeatureCollection") /\
   exists before after,
     field "features" doc = Some (JArr (before ++ JNull :: after)) /\
     forallb (fun f => negb (bears_polygon f)) before = true) \/
  (field "type" doc = Some (JStr "Polygon") /\
   exists before after holes,
     field "coordinates" doc
     = Some (JArr (JArr (before ++ JNull :: after) :: holes))) ->
  handleFileChange argument_limit (Some (fileName, Normal doc)) s
  = (s, [console_error; alert "Failed to read GeoJSON file.";
         clear_file_input]).
Proof.
  unfold handleFileChange, reader_onload, read_polygon. cbn [bind].
  intros [(Ht & before & after & Hf & Hb)
         | (Ht & before & after & holes & Hc)].
  - unfold find_coords.
    destruct doc as [ | b | r | t | items | props]; try discriminate.
    cbn [field prop bind] in *. rewrite Ht. cbn [is_string].
    change ("FeatureCollection" =? "FeatureCollection") with true.
    cbn iota. rewrite Hf. cbn [bind features_find].
    now rewrite (find_feature_null before after Hb).
  - rewrite (find_coords_polygon doc Ht), Hc.
    cbn [bind truthy negb length_is_zero List.length Nat.eqb orb index0
         nth_error ring_map].
    now rewrite map_completion_null.
Qed.

Lemma import_fails_on_null_witness :
  handleFileChange JavaScriptCore_limit
    (Some ("n.json", Normal null_then_polygon)) triangle_drawn
  = (triangle_drawn,
     [console_error; alert "Failed to read GeoJSON file."; clear_file_input]).
Proof.
  apply import_fails_on_null. left. split; [reflexivity | ].
  exists [], [JObj [("type", JStr "Feature"); ("geometry", two_point_polygon)]].
  split; reflexivity.
Defined.

(** ** Export *)

(** The document that export downloads is a [Feature] with a [Polygon]
    geometry of exactly one ring; the ring lists the vertices of the active
    shape in order as [[lng, lat]] and ends with a copy of its first
    position, so it is closed and has one position more than the shape has
    vertices, at least four.  The feature is named after the selected area,
    or "Area of Interest" when none is selected.  The state is not
    changed. *)
Theorem exported_ring_is_closed (s : state) (shape : list LatLng) :
  activeShape s = Some shape ->
  exists doc geometry ring,
    handleExportGeoJSON s = (s, [download "area-of-interest.geojson" doc]) /\
    field "type" doc = Some (JStr "Feature") /\
    field "properties" doc
    = Some (JObj [("name",
                   JStr (if nonempty (selectedArea s) then selectedArea s
                         else "Area of Interest"))]) /\
    field "geometry" doc = Some geometry /\
    field "type" geometry = Some (JStr "Polygon") /\
    field "coordinates" geometry = Some (JArr [JArr ring]) /\
    ring = (map position_of shape ++ [hd JNull (map position_of shape)])%list /\
    hd JNull ring = last ring JNull /\
    List.length ring = S (List.length shape) /\
    (4 <= List.length ring)%nat.
Proof.
  intros Hactive. pose proof (activeShape_length s Hactive) as Hlen.
  destruct (stats_and_export_with_shape s Hactive) as (_ & Hexport).
  exists (export_document (selectedArea s) shape).
  eexists. eexists. split; [exact Hexport | ].
  unfold export_document. cbn [field lookup].
  change ("type" =? "type") with true. cbn iota.
  split; [reflexivity | ]. split.
  { unfold nonempty. now destruct (selectedArea s =? ""). }
  split; [reflexivity | ]. cbn [field lookup].
  split; [reflexivity | ]. split; [reflexivity | ]. split; [reflexivity | ].
  destruct shape as [ | p rest]; [cbn in Hlen; lia | ].
  cbn [map hd]. split.
  - change (position_of p :: map position_of rest ++ [position_of p])%list
      with (map position_of (p :: rest) ++ [position_of p])%list.
    now rewrite last_last.
  - cbn [List.length app] in *. rewrite length_app, length_map.
    cbn [List.length]. split; lia.
Qed.

Lemma exported_ring_is_closed_witness :
  activeShape triangle_drawn = Some triangle /\
  exists doc geometry ring,
    handleExportGeoJSON triangle_drawn
    = (triangle_drawn, [download "area-of-interest.geojson" doc]) /\
    field "geometry" doc = Some geometry /\
    field "coordinates" geometry = Some (JArr [JArr ring]) /\
    hd JNull ring = last ring JNull /\
    List.length ring = 4%nat.
Proof.
  assert (Ha : activeShape triangle_drawn = Some triangle) by reflexivity.
  split; [exact Ha | ].
  destruct (exported_ring_is_closed triangle_drawn Ha)
    as (doc & geometry & ring & H1 & _ & _ & H4 & _ & H6 & _ & H8 & H9 & _).
  exists doc, geometry, ring. repeat split; assumption.
Defined.

(** ** Export, import and the statistics *)

Lemma off_pole_finite (p : LatLng) : off_pole p -> finite_point p.
Proof.
  destruct p as [[la | ] [lo | ]]; cbn; intros H; try contradiction.
  now exists la, lo.
Qed.

Lemma rotate_app (A : Type) (l1 l2 : list A) :
  rotate (List.length l1) (l1 ++ l2) = (l2 ++ l1)%list.
Proof.
  unfold rotate. rewrite skipn_app, firstn_app, Nat.sub_diag.
  rewrite skipn_all, firstn_all. cbn. now rewrite app_nil_r.
Qed.

(** Closing a ring of finite points with a copy of its first vertex does
    not change its perimeter. *)
Lemma perimeterKm_closed (a : LatLng) (rest : list LatLng) :
  finite_point a ->
  perimeterKm ((a :: rest) ++ [a]) = perimeterKm (a :: rest).
Proof.
  intros Ha.
  rewrite <- (perimeterKm_rotate (List.length (a :: rest))
                ((a :: rest) ++ [a])).
  rewrite rotate_app.
  exact (perimeterKm_duplicate [] rest Ha).
Qed.

Lemma areaKm2_closed (a : LatLng) (rest : list LatLng) :
  Forall off_pole (a :: rest) ->
  areaKm2 ((a :: rest) ++ [a]) = areaKm2 (a :: rest).
Proof.
  intros Hall.
  rewrite <- (areaKm2_rotate (List.length (a :: rest)) ((a :: rest) ++ [a])).
  rewrite rotate_app.
  exact (areaKm2_duplicate a [] rest Hall).
Qed.

(** Exporting an active shape whose vertices are finite and away from the
    poles and importing the document again gives a polygon with the same
    perimeter and the same area as the shape: the statistics shown after the
    round trip differ from those before in the vertex count alone, which is
    one higher. *)
Theorem round_trip_keeps_perimeter_and_area
    (argument_limit : N) (s s0 : state) (shape : list LatLng)
    (fileName : string) :
  activeShape s = Some shape ->
  Forall off_pole shape ->
  exists doc,
    handleExportGeoJSON s = (s, [download "area-of-interest.geojson" doc]) /\
    stats s
    = Some (mkStats (List.length shape) (perimeterKm shape) (areaKm2 shape)) /\
    stats (fst (handleFileChange argument_limit
                  (Some (fileName, Normal doc)) s0))
    = Some (mkStats (S (List.length shape)) (perimeterKm shape)
              (areaKm2 shape)).
Proof.
  intros Hactive Hall.
  pose proof (activeShape_length s Hactive) as Hlen.
  destruct (stats_and_export_with_shape s Hactive) as (Hstats & Hexport).
  exists (export_document (selectedArea s) shape).
  split; [exact Hexport | split; [exact Hstats | ]].
  assert (Hfin : Forall finite_point shape).
  { eapply Forall_impl; [ | exact Hall]. apply off_pole_finite. }
  assert (Hne : shape <> []) by (intros ->; cbn in Hlen; lia).
  destruct (@handleFileChange_polygon argument_limit fileName
              (export_document (selectedArea s) shape) s0 _
              (read_polygon_exported (selectedArea s) Hne Hfin))
    as [Hpolygon Hbuffer].
  unfold stats, activeShape. rewrite Hpolygon, Hbuffer.
  destruct shape as [ | a rest]; [contradiction | ].
  cbn [hd].
  assert (Hlong : (2 <? List.length ((a :: rest) ++ [a]))%nat = true).
  { apply Nat.ltb_lt. rewrite length_app. cbn [List.length] in *. lia. }
  rewrite Hlong.
  rewrite perimeterKm_closed by (inversion Hfin; assumption).
  rewrite areaKm2_closed by exact Hall.
  rewrite length_app. cbn [List.length].
  now replace (S (List.length rest) + 1)%nat with (S (S (List.length rest)))
    by lia.
Qed.

Lemma triangle_off_pole : Forall off_pole triangle.
Proof. repeat constructor; cbn; lra. Qed.

Lemma round_trip_keeps_perimeter_and_area_witness :
  activeShape triangle_drawn = Some triangle /\
  Forall off_pole triangle /\
  exists doc,
    handleExportGeoJSON triangle_drawn
    = (triangle_drawn, [download "area-of-interest.geojson" doc]) /\
    stats triangle_drawn
    = Some (mkStats (List.length triangle) (perimeterKm triangle)
              (areaKm2 triangle)) /\
    stats (fst (handleFileChange JavaScriptCore_limit
                  (Some ("copy.geojson", Normal doc)) initial_state))
    = Some (mkStats (S (List.length triangle)) (perimeterKm triangle)
              (areaKm2 triangle)).
Proof.
  assert (Ha : activeShape triangle_drawn = Some triangle) by reflexivity.
  split; [exact Ha | split; [exact triangle_off_pole | ]].
  exact (round_trip_keeps_perimeter_and_area
           JavaScriptCore_limit triangle_drawn initial_state "copy.geojson"
           Ha triangle_off_pole).
Defined.

(** ** Search *)

Section Search.

Variable trim : string -> string.
Variable encodeURIComponent : string -> string.
Variable parseFloat : string -> number.

Local Abbreviation handleSearch' := (handleSearch trim encodeURIComponent).
Local Abbreviation settled := (handleSearch_settled parseFloat).

Lemma status_row_error (s : state) (message : string) :
  isSearching s = false -> searchError s = Some message ->
  nonempty message = true ->
  status_row s = [span_error message].
Proof.
  intros Hb He Hm. unfold status_row, has_error. now rewrite Hb, He, Hm.
Qed.

(** A search that fails (network error, bad status, unreadable body) or
    finds nothing leaves the map centre, the zoom, the selected-area label,
    the polygon, the buffer and the drawing mode as they were and lowers the
    busy flag.  The status row then shows the error message and nothing
    else, "Error searching location" for a failure and "Location not found"
    for an empty answer; an area selected earlier stays selected but its
    label is no longer shown. *)
Theorem search_without_result (s : state) (response : search_response) :
  response = search_failed \/ response = search_data None \/
  response = search_data (Some []) ->
  let message := match response with
                 | search_failed => "Error searching location"
                 | search_data _ => "Location not found"
                 end in
  settled response s
  = mkState (view s) (searchQuery s) (selectedArea s) (isDrawing s)
      (drawnPolygon s) (drawingPoints s) (mapCenter s) (zoom s)
      (activeDrawTool s) false (Some message) (isGridOn s) /\
  status_row (settled response s) = [span_error message].
Proof.
  intros [-> | [-> | ->]]; cbv zeta; (split; [reflexivity | ]);
    now apply status_row_error.
Qed.


(** A blank query sends no request and changes nothing. *)
Lemma search_blank_query (s : state) :
  trim (searchQuery s) = "" -> handleSearch' s = (s, None).
Proof.
  intros Hq. unfold handleSearch', handleSearch. now rewrite Hq.
Qed.

(** Two searches in flight.  When a second search is started before the
    first has been answered, the first answer to arrive lowers the busy
    flag although a request is still open.  And when the answer with a
    place arrives first and a failure after it, the map has moved to the
    place and the area is selected, but the status row shows the error and
    not the selection. *)
Theorem overlapping_searches
    (s : state) (response : search_response) (first : Nominatim.result)
    (others : list Nominatim.result) :
  trim (searchQuery s) <> "" ->
  let started := fst (handleSearch' s) in
  let restarted := fst (handleSearch' started) in
  let found := settled (search_data (Some (first :: others))) restarted in
  snd (handleSearch' s) <> None /\
  snd (handleSearch' started) <> None /\
  isSearching (settled response restarted) = false /\
  ~ In span_searching (status_row (settled response restarted)) /\
  mapCenter (settled search_failed found)
  = mkLatLng (parseFloat (Nominatim.lat first))
             (parseFloat (Nominatim.lon first)) /\
  selectedArea (settled search_failed found) = Nominatim.display_name first /\
  status_row (settled search_failed found)
  = [span_error "Error searching location"].
Proof.
  intros Hq. cbv zeta. unfold handleSearch', handleSearch.
  apply String.eqb_neq in Hq. rewrite Hq. cbn [fst snd searchQuery
    setIsSearching setSearchError]. rewrite Hq. cbn [fst snd].
  split; [discriminate | split; [discriminate | ]].
  assert (Hdown : isSearching (settled response
                     (setSearchError None (setIsSearching true
                        (setSearchError None (setIsSearching true s)))))
                  = false).
  { destruct response as [ | [[ | r rs] | ]]; reflexivity. }
  split; [exact Hdown | ]. split.
  - unfold status_row. rewrite Hdown. cbn [negb andb app].
    intros Hin. apply in_app_or in Hin as [Hin | Hin].
    + destruct (has_error _); [ | destruct Hin].
      destruct (searchError _); cbn in Hin; [ | destruct Hin].
      destruct Hin as [Hin | []]. discriminate Hin.
    + destruct (_ && _); cbn in Hin; [ | destruct Hin].
      destruct Hin as [Hin | []]. discriminate Hin.
  - repeat split; reflexivity.
Qed.

End Search.

Lemma search_without_result_witness :
  status_row
    (handleSearch_settled (fun _ => NaN) (search_data (Some []))
       (setSelectedArea "London" initial_state))
  = [span_error "Location not found"].
Proof.
  exact (proj2 (search_without_result (fun _ => NaN)
                  (setSelectedArea "London" initial_state)
                  (or_intror (or_intror eq_refl)))).
Defined.


Lemma overlapping_searches_witness :
  (fun q : string => q) (searchQuery pune_typed) <> "" /\
  status_row
    (handleSearch_settled (fun _ => NaN) search_failed
       (handleSearch_settled (fun _ => NaN) (search_data (Some [pune]))
          (fst (handleSearch (fun q => q) (fun q => q)
                  (fst (handleSearch (fun q => q) (fun q => q) pune_typed))))))
  = [span_error "Error searching location"].
Proof.
  assert (Hq : (fun q : string => q) (searchQuery pune_typed) <> "")
    by discriminate.
  split; [exact Hq | ].
  exact (proj2 (proj2 (proj2 (proj2 (proj2 (proj2
    (overlapping_searches (fun q => q) (fun q => q) (fun _ => NaN)
       pune_typed search_failed pune [] Hq))))))).
Defined.

(* ================================================================== *)
(** * Part IV. Further properties of the geometry                      *)
(* ================================================================== *)

Local Close Scope string_scope.
Local Open Scope R_scope.

(** ** When the statistics are not numbers *)

Lemma ring_sum_spoiled (A : Type) (f : A -> A -> number) (p : A)
    (l1 l2 : list A) :
  (forall q, f p q = NaN) -> ring_sum f (l1 ++ p :: l2) = NaN.
Proof.
  intros Hp. rewrite <- (ring_sum_rotate f l1 (p :: l2)).
  cbn [app]. destruct (l2 ++ l1)%list as [ | b rest].
  - cbn [ring_sum path_sum last]. now rewrite Hp.
  - change (ring_sum f (p :: b :: rest))
      with (js_add (js_add (f p b) (path_sum f (b :: rest)))
                   (f (last (b :: rest) p) p)).
    now rewrite Hp.
Qed.

Lemma project_south_pole (lo : number) :
  y (project (mkLatLng (Num (-90)) lo)) = NaN.
Proof.
  unfold project, Math_PI. cbn [y lat js_mul lift2].
  rewrite !js_div_Num by lra. cbn [js_add lift2 Math_tan].
  replace (PI / 4 + -90 * PI / 360) with 0 by lra.
  destruct (Req_dec_T (cos 0) 0) as [E | _].
  - rewrite cos_0 in E. lra.
  - cbn [Math_log]. rewrite tan_0.
    destruct (Rlt_dec 0 0) as [H | _]; [lra | reflexivity].
Qed.

Lemma cross_spoiled (a b : XY) :
  x a = NaN \/ y a = NaN -> cross a b = NaN.
Proof.
  unfold cross. destruct a as [ax ay], b as [bx by']. cbn [x y].
  intros [-> | ->]; [reflexivity | ].
  destruct ax, bx, by'; reflexivity.
Qed.

Lemma project_spoiled (p : LatLng) :
  lat p = NaN \/ lng p = NaN \/ lat p = Num (-90) ->
  x (project p) = NaN \/ y (project p) = NaN.
Proof.
  destruct p as [la lo]. cbn [lat lng]. intros [-> | [-> | ->]].
  - right. unfold project, Math_PI. cbn [y lat js_mul lift2].
    rewrite js_div_Num by lra. reflexivity.
  - left. reflexivity.
  - right. apply project_south_pole.
Qed.

(** One bad vertex spoils the statistics of the whole polygon.  With a
    vertex that has a NaN coordinate, the perimeter of a polygon of two or
    more vertices is NaN.  With such a vertex, or with a vertex at latitude
    -90, where the Mercator projection has no finite value, the area of a
    polygon of three or more vertices is not a finite number, whatever the
    other vertices are. *)
Theorem bad_vertex_spoils_statistics (p : LatLng) (l1 l2 : list LatLng) :
  (lat p = NaN \/ lng p = NaN ->
   (2 <= List.length (l1 ++ p :: l2))%nat ->
   perimeterKm (l1 ++ p :: l2) = NaN) /\
  (lat p = NaN \/ lng p = NaN \/ lat p = Num (-90) ->
   (3 <= List.length (l1 ++ p :: l2))%nat ->
   areaKm2 (l1 ++ p :: l2) = NaN).
Proof.
  split.
  - intros Hp Hlen. unfold perimeterKm.
    assert (E : (List.length (l1 ++ p :: l2) <? 2)%nat = false)
      by (apply Nat.ltb_ge; lia).
    rewrite E, ring_loop_ring_sum. apply ring_sum_spoiled.
    intros q. apply distanceKm_NaN. tauto.
  - intros Hp Hlen. unfold areaKm2.
    assert (E : (List.length (l1 ++ p :: l2) <? 3)%nat = false)
      by (apply Nat.ltb_ge; lia).
    rewrite E, ring_loop_ring_sum, map_app. cbn [map].
    rewrite ring_sum_spoiled; [reflexivity | ].
    intros q. apply cross_spoiled, project_spoiled, Hp.
Qed.

Lemma bad_vertex_spoils_statistics_witness :
  (lat (mkLatLng (Num (-90)) (Num 0)) = NaN \/
   lng (mkLatLng (Num (-90)) (Num 0)) = NaN \/
   lat (mkLatLng (Num (-90)) (Num 0)) = Num (-90)) /\
  (3 <= List.length
          ([corner_b] ++ mkLatLng (Num (-90)) (Num 0) :: [corner_c]))%nat /\
  areaKm2 ([corner_b] ++ mkLatLng (Num (-90)) (Num 0) :: [corner_c]) = NaN.
Proof.
  assert (Hp : lat (mkLatLng (Num (-90)) (Num 0)) = NaN \/
               lng (mkLatLng (Num (-90)) (Num 0)) = NaN \/
               lat (mkLatLng (Num (-90)) (Num 0)) = Num (-90))
    by (right; right; reflexivity).
  assert (Hlen : (3 <= List.length
                         ([corner_b] ++ mkLatLng (Num (-90)) (Num 0)
                          :: [corner_c]))%nat) by (cbn; lia).
  split; [exact Hp | split; [exact Hlen | ]].
  exact (proj2 (bad_vertex_spoils_statistics
                  (mkLatLng (Num (-90)) (Num 0)) [corner_b] [corner_c])
           Hp Hlen).
Defined.
